(** * Smartnode: network-state snapshot, effective stakes, rewards utilities
      and the bond-reduction task

    A shallow embedding of
      - shared/services/state/network-state.go
          (CreateNetworkState, getNetworkDetails, CalculateEffectiveStakes),
      - rocketpool/common/rewards/utils.go
          (GetClaimStatus, GetIntervalInfo, GetELBlockHeaderForTime,
           DownloadRewardsFile, GetStartSlotForInterval,
           getMinipoolBondAndNodeFee),
      - the node daemon's reduce-bonds task
          (run, getReduceableMinipools, reduceBond),
      - rocketpool/api/auction (recoverRplFromLot),
      - rocketpool-cli/pdao (proposeSetting),
      - shared/services/rocketpool/client.go (callAPI and its helpers),
      - the Nimbus client's JSON types (uinteger),
    with the properties of the design document, and further properties
    read off the code, stated over it. *)

From Stdlib Require Import ZArith Lia List Bool Permutation.
From Stdlib.Strings Require Import Byte.
From Stdlib Require DecimalString DecimalPos.
From stdpp Require Import gmap strings list fin_maps.

Local Open Scope Z_scope.

(* ================================================================== *)
(** * Go values                                                        *)
(* ================================================================== *)

(** ** Errors

    A Go [error] built by [fmt.Errorf]: the format string of the source, the
    numeric arguments that are formatted into it and, for a [%w] verb, the
    wrapped error ([Errorw]). *)
Inductive error : Type :=
| Errorf (format : string) (args : list Z)
| Errorw (format : string) (args : list Z) (wrapped : error).


(** The result of a call [v, err := f(...)] on an external collaborator. *)
Inductive result (A : Type) : Type :=
| Ok (a : A)
| Err (e : error).
Arguments Ok {A} a.
Arguments Err {A} e.

Definition is_Err {A} (r : result A) : bool :=
  match r with Ok _ => false | Err _ => true end.

(** ** Machine integers *)

Definition two64 : Z := 2 ^ 64.
Definition maxInt64 : Z := 2 ^ 63 - 1.
Definition minInt64 : Z := - 2 ^ 63.

(** [uint64] arithmetic wraps modulo 2^64. *)
Definition wrap64 (x : Z) : Z := x mod two64.

(** Conversion to [int64] (two's complement). *)
Definition toInt64 (x : Z) : Z := (x + 2 ^ 63) mod two64 - 2 ^ 63.

(** ** math/big

    [*big.Int] values are unbounded integers. [Div] is Euclidean division
    and panics on a zero divisor; [Int64] and [Uint64] take the low 64 bits
    of the absolute value ([Int64] then restores the sign). *)
Definition big_Div (x y : Z) : option Z :=
  if y =? 0 then None
  else if 0 <? y then Some (x / y)
  else Some (- (x / (- y))).

Definition big_Uint64 (x : Z) : Z := Z.abs x mod two64.
Definition big_Int64 (x : Z) : Z := toInt64 (Z.sgn x * (Z.abs x mod two64)).

(** [x.Cmp(y)] *)
Definition big_Cmp (x y : Z) : Z :=
  match x ?= y with Lt => -1 | Eq => 0 | Gt => 1 end.

(** ** time

    A [time.Time] without monotonic reading is modelled by its offset from
    the Unix epoch in nanoseconds; a [time.Duration] is an [int64] count of
    nanoseconds. [Sub] saturates at the extreme durations. *)
Definition Time : Type := Z.
Definition Duration : Type := Z.

Definition Second : Duration := 1000000000.

Definition time_Unix (sec : Z) : Time := sec * Second.
Definition Time_Unix (t : Time) : Z := t / Second.
Definition Time_Add (t : Time) (d : Duration) : Time := t + d.
Definition Time_Sub (t u : Time) : Duration :=
  let d := t - u in
  if d <? minInt64 then minInt64
  else if maxInt64 <? d then maxInt64
  else d.

(** [int64] operations on durations: addition, subtraction and
    multiplication wrap, division truncates toward zero. *)
Definition dur_add (a b : Duration) : Duration := toInt64 (a + b).
Definition dur_sub (a b : Duration) : Duration := toInt64 (a - b).
Definition dur_mul (a b : Duration) : Duration := toInt64 (a * b).
Definition dur_div (a b : Duration) : Duration := toInt64 (Z.quot a b).

(** [d.Seconds()] converted to [int64]. [Seconds] is the [float64] sum of
    the whole seconds and the fractional part; for a duration of whole
    seconds, the only kind the network reports, that sum is exact and the
    conversion returns the number of seconds. *)
Definition Duration_Seconds_int64 (d : Duration) : Z := Z.quot d Second.

(** ** Addresses, hashes and keys *)

(** [common.Address] (20 bytes), [common.Hash] (32 bytes) and
    [types.ValidatorPubkey] (48 bytes), as the numbers their bytes spell. *)
Definition Address : Type := N.
Definition Hash : Type := N.
Definition ValidatorPubkey : Type := N.

(** [types.MinipoolStatus] *)
Inductive MinipoolStatus : Type :=
| Initialized | Prelaunch | Staking | Withdrawable | Dissolved.

Definition MinipoolStatus_eqb (a b : MinipoolStatus) : bool :=
  match a, b with
  | Initialized, Initialized | Prelaunch, Prelaunch | Staking, Staking
  | Withdrawable, Withdrawable | Dissolved, Dissolved => true
  | _, _ => false
  end.

(* ================================================================== *)
(** * rewards.GetClaimStatus                                            *)
(* ================================================================== *)

Module ClaimStatusTracker.

Record ClaimStatus : Type := mkClaimStatus {
  Claimed : list Z;
  Unclaimed : list Z
}.

(** The chain as [GetClaimStatus] sees it: whether the batched [rp.Query]
    fails, and the word stored under
    [keccak256("rewards.interval.claimed", nodeAddress, bucket)]. *)
Record Chain : Type := mkChain {
  Query_err : option error;
  Storage_GetUint : Address -> Z -> Z
}.

(** The body of the loop over [j], for the positions [js] still to visit;
    [break] leaves the rest of [js] unvisited. *)
Fixpoint bucketLoop (bitmap i currentIndex : Z) (js : list Z)
    (claimStatus : ClaimStatus) : ClaimStatus :=
  match js with
  | [] => claimStatus
  | j :: js' =>
      let targetIndex := wrap64 (i * 256 + j) in
      if currentIndex <=? targetIndex then claimStatus
      else
        let mask := Z.shiftl 1 j in
        let maskedBitmap := Z.land bitmap mask in
        if big_Cmp maskedBitmap mask =? 0 then
          bucketLoop bitmap i currentIndex js'
            (mkClaimStatus (Claimed claimStatus ++ [targetIndex])
                           (Unclaimed claimStatus))
        else
          bucketLoop bitmap i currentIndex js'
            (mkClaimStatus (Claimed claimStatus)
                           (Unclaimed claimStatus ++ [targetIndex]))
  end.

Definition GetClaimStatus (rp : Chain) (nodeAddress : Address)
    (currentIndex : Z) : option ClaimStatus * option error :=
  let bucket := currentIndex / 256 in
  let bucketBitmaps :=
    List.map (Storage_GetUint rp nodeAddress) (seqZ 0 (bucket + 1)) in
  match Query_err rp with
  | Some err =>
      (None, Some (Errorw "error getting reward bucket bitmaps: %w" [] err))
  | None =>
      let claimStatus :=
        fold_left
          (fun cs i =>
             let bitmap := nth (Z.to_nat i) bucketBitmaps 0 in
             bucketLoop bitmap i currentIndex (seqZ 0 256) cs)
          (seqZ 0 (bucket + 1)) (mkClaimStatus [] []) in
      (Some claimStatus, None)
  end.

(** The claim bit of an interval, as the design document words it: bit
    [index mod 256] of the bitmap of bucket [index / 256]. *)
Definition isClaimed (rp : Chain) (nodeAddress : Address) (index : Z) : bool :=
  Z.testbit (Storage_GetUint rp nodeAddress (index / 256)) (index mod 256).

End ClaimStatusTracker.

(* ================================================================== *)
(** * External reads and their trace                                    *)
(* ================================================================== *)

(** A read issued to a collaborator (execution client, Beacon client,
    contract bindings), recorded with the name of the Go function called
    and whether it returned an error. *)
Record Event : Type := mkEvent {
  ev_call : string;
  ev_failed : bool
}.

(** A run of sequential code that issues reads: the reads in the order
    they are issued, and the value or the error the code ends with. An
    error ends the run ([return nil, err]). *)
Definition Run (A : Type) : Type := list Event * result A.

Definition ret {A} (a : A) : Run A := ([], Ok a).
Definition fail {A} (e : error) : Run A := ([], Err e).

(** [v, err := f(...)] *)
Definition call {A} (name : string) (r : result A) : Run A :=
  ([mkEvent name (is_Err r)], r).

Definition bind {A B} (m : Run A) (k : A -> Run B) : Run B :=
  match m with
  | (t, Ok a) => let (t', r) := k a in (t ++ t', r)
  | (t, Err e) => (t, Err e)
  end.

(** [if err != nil { return nil, fmt.Errorf(format, args..., err) }] *)
Definition orWrap {A} (format : string) (args : list Z) (m : Run A) : Run A :=
  match m with
  | (t, Err e) => (t, Err (Errorw format args e))
  | _ => m
  end.

Declare Scope run_scope.
Delimit Scope run_scope with run.
Notation "'do' x <- m ; k" := (bind m (fun x => k))
  (at level 10, x name, m at level 100, k at level 200) : run_scope.
Notation "'do' ' pat <- m ; k" :=
  (bind m (fun x => match x with pat => k end))
  (at level 10, pat pattern, m at level 100, k at level 200) : run_scope.

(** What the Go caller receives from a function returning a pointer
    and an [error]. *)
Definition returned {A} (m : Run A) : option A * option error :=
  match snd m with
  | Ok a => (Some a, None)
  | Err e => (None, Some e)
  end.

(** A run is clean when it can only end with a value if none of its reads
    failed. *)
Definition clean {A} (m : Run A) : Prop :=
  forall a, snd m = Ok a -> Forall (fun ev => ev_failed ev = false) (fst m).

(* ================================================================== *)
(** * The network state snapshot                                        *)
(* ================================================================== *)

Module State.

Definition threadLimit : Z := 6.

(** ** Data *)

(** [beacon.Eth2Config], the fields the snapshot code reads. *)
Record Eth2Config : Type := mkEth2Config {
  GenesisTime : Z;
  SecondsPerSlot : Z;
  SlotsPerEpoch : Z
}.

(** [beacon.ValidatorStatus] *)
Record ValidatorStatus : Type := mkValidatorStatus {
  Balance : Z;
  ActivationEpoch : Z;
  ExitEpoch : Z
}.

(** [rpstate.NativeNodeDetails] *)
Record NativeNodeDetails : Type := mkNode {
  NodeAddress : Address;
  RplStake : Z;
  RegistrationTime : Z
}.

(** [rpstate.NativeMinipoolDetails] *)
Record NativeMinipoolDetails : Type := mkMinipool {
  Exists : bool;
  MinipoolAddress : Address;
  Pubkey : ValidatorPubkey;
  Status : MinipoolStatus;
  mp_NodeAddress : Address;
  UserDepositBalance : Z;
  NodeDepositBalance : Z;
  Version : Z
}.

(** [rpstate.NetworkDetails]. The struct is filled field by field by the
    goroutines of [getNetworkDetails], so it is kept as a store from field
    to value; a field never written holds the zero value of its type
    ([VNil] for a [*big.Int]). *)
Inductive Field : Type :=
| RplPrice | MinCollateralFraction | MaxCollateralFraction | RewardIndex
| IntervalDuration | IntervalStart | NodeOperatorRewardsPercent
| TrustedNodeOperatorRewardsPercent | ProtocolDaoRewardsPercent
| PendingRPLRewards | ScrubPeriod | SmoothingPoolAddress
| SmoothingPoolBalance | DepositPoolBalance | DepositPoolExcess
| QueueCapacity | RPLInflationIntervalRate | RPLTotalSupply | PricesBlock
| LatestReportablePricesBlock | ETHUtilizationRate | StakingETHBalance
| RETHExchangeRate | TotalETHBalance | RETHBalance | TotalRETHSupply
| TotalRPLStake | NodeFee | BalancesBlock | LatestReportableBalancesBlock
| SubmitBalancesEnabled | SubmitPricesEnabled | MinipoolLaunchTimeout
| PromotionScrubPeriod | BondReductionWindowStart
| BondReductionWindowLength | DepositPoolUserBalance.

#[global] Instance Field_eq_dec : EqDecision Field.
Proof. solve_decision. Defined.

Inductive Value : Type :=
| VNil
| VBig (z : Z)              (* *big.Int *)
| VUint64 (n : Z)
| VDuration (d : Duration)
| VTime (t : Time)
| VFloat64 (bits : Z)       (* a float64, by its bit pattern *)
| VBool (b : bool)
| VAddress (a : Address)
| VQueueCapacity (total effective : Z).

Definition NetworkDetails : Type := Field -> Value.

(** [&rpstate.NetworkDetails{}] *)
Definition zeroValue (f : Field) : Value :=
  match f with
  | RewardIndex | PricesBlock | LatestReportablePricesBlock
  | LatestReportableBalancesBlock => VUint64 0
  | IntervalDuration | ScrubPeriod | PromotionScrubPeriod
  | BondReductionWindowStart | BondReductionWindowLength => VDuration 0
  | IntervalStart => VTime 0
  | ETHUtilizationRate | RETHExchangeRate | NodeFee => VFloat64 0
  | SubmitBalancesEnabled | SubmitPricesEnabled => VBool false
  | SmoothingPoolAddress => VAddress 0%N
  | QueueCapacity => VQueueCapacity 0 0
  | _ => VNil
  end.

Definition setField (f : Field) (v : Value) (nd : NetworkDetails) : NetworkDetails :=
  fun g => if decide (g = f) then v else nd g.

(** Field reads: a [*big.Int] field that is nil has no value. *)
Definition getBig (nd : NetworkDetails) (f : Field) : option Z :=
  match nd f with VBig z => Some z | _ => None end.
Definition getUint64 (nd : NetworkDetails) (f : Field) : Z :=
  match nd f with VUint64 n => n | _ => 0 end.
Definition getDuration (nd : NetworkDetails) (f : Field) : Duration :=
  match nd f with VDuration d => d | _ => 0 end.

(** A pointer to a [NativeNodeDetails]: an element of the [NodeDetails]
    slice, or the range variable [details] of the loop that builds the node
    lookup. *)
Inductive NodePtr : Type :=
| NodeElem (i : nat)
| RangeVar_details.

(** [NetworkState]. Pointers to minipool details are indices into
    [MinipoolDetails] (the code only takes [&state.MinipoolDetails[i]]).
    [details_var] is the storage of the range variable that
    [NodeDetailsByAddress] points into; it is not a field of the Go struct,
    but it is reachable from it. *)
Record NetworkState : Type := mkNetworkState {
  IsAtlasDeployed : bool;
  ElBlockNumber : Z;
  BeaconSlotNumber : Z;
  BeaconConfig : Eth2Config;
  NetworkDetails_ : option NetworkDetails;
  NodeDetails : list NativeNodeDetails;
  NodeDetailsByAddress : gmap Address NodePtr;
  details_var : option NativeNodeDetails;
  MinipoolDetails : list NativeMinipoolDetails;
  MinipoolDetailsByAddress : gmap Address nat;
  MinipoolDetailsByNode : gmap Address (list nat);
  ValidatorDetails : gmap ValidatorPubkey ValidatorStatus
}.

(** [*p] for a node pointer of the snapshot. *)
Definition derefNode (s : NetworkState) (p : NodePtr) : option NativeNodeDetails :=
  match p with
  | NodeElem i => NodeDetails s !! i
  | RangeVar_details => details_var s
  end.

(** ** Collaborators

    Every contract read is pinned to an execution block ([opts]); reads are
    named after the Go function the snapshot code calls. *)

(** [beacon.BeaconBlock] *)
Record BeaconBlock : Type := mkBeaconBlock {
  ExecutionBlockNumber : Z
}.

Record BeaconClient : Type := mkBeaconClient {
  GetBeaconBlock : Z -> result (BeaconBlock * bool);
  GetValidatorStatuses :
    list ValidatorPubkey -> Z -> result (gmap ValidatorPubkey ValidatorStatus)
}.

Record RocketPoolConfig : Type := mkConfig {
  GetMulticallAddress : Address;
  GetBalanceBatcherAddress : Address;
  GetRethAddress : Address
}.

Record RocketPool : Type := mkRocketPool {
  (* reads by result type: function name, block *)
  readBig : string -> Z -> result Z;
  readUint64 : string -> Z -> result Z;
  readFloat64 : string -> Z -> result Z;
  readBool : string -> Z -> result bool;
  readTime : string -> Z -> result Time;
  readQueueCapacity : Z -> result (Z * Z);
  (* helpers of the state package that take the reward index *)
  readBigAtIndex : string -> Z -> Z -> result Z;
  GetClaimIntervalTime : Z -> Z -> result Duration;
  GetContract : string -> Z -> result Address;
  Client_BalanceAt : Address -> Z -> result Z;
  IsAtlasDeployed_at : Z -> result bool;
  NewNetworkContracts : bool -> Z -> result unit;
  GetAllNativeNodeDetails : Address -> Address -> Z -> result (list NativeNodeDetails);
  GetAllNativeMinipoolDetails : Address -> Address -> Z -> result (list NativeMinipoolDetails);
  (* updates the minipools it is given pointers to *)
  CalculateCompleteMinipoolShares :
    Address -> list NativeMinipoolDetails -> list Z -> Z ->
    result (list NativeMinipoolDetails)
}.

(** [eth.GweiToWei(float64(balance))]; exact for balances below 2^53 gwei. *)
Definition GweiToWei (gwei : Z) : Z := gwei * 1000000000.

(** ** The goroutines of getNetworkDetails

    A goroutine sees the struct as the goroutines that ran before it left
    it, issues its reads, writes its field and returns an error or nil. *)
Definition Task : Type := NetworkDetails -> list Event * NetworkDetails * option error.

(** [state.NetworkDetails.F, err = read(...)]: the field is assigned
    whatever the call returns, the zero value when it fails. *)
Definition assign (f : Field) (name : string)
    (read : NetworkDetails -> result Value) (mkErr : error -> error) : Task :=
  fun nd =>
    match read nd with
    | Ok v => ([mkEvent name false], setField f v nd, None)
    | Err e => ([mkEvent name true], setField f (zeroValue f) nd, Some (mkErr e))
    end.

(** [v, err := read(...); if err != nil { return ... }; state.NetworkDetails.F = conv(v)] *)
Definition fetch (f : Field) (name : string)
    (read : NetworkDetails -> result Value) (mkErr : error -> error) : Task :=
  fun nd =>
    match read nd with
    | Ok v => ([mkEvent name false], setField f v nd, None)
    | Err e => ([mkEvent name true], nd, Some (mkErr e))
    end.

Definition rmap {A B} (g : A -> B) (r : result A) : result B :=
  match r with Ok a => Ok (g a) | Err e => Err e end.

(** [time.Duration(seconds) * time.Second] for a [uint64] count. *)
Definition secondsToDuration (seconds : Z) : Duration :=
  dur_mul (toInt64 seconds) Second.

Section Tasks.
Variable cfg : RocketPoolConfig.
Variable rp : RocketPool.
Variable opts : Z.

Let big name := fun _ : NetworkDetails => rmap VBig (readBig rp name opts).
Let u64 name := fun _ : NetworkDetails => rmap VUint64 (readUint64 rp name opts).
Let f64 name := fun _ : NetworkDetails => rmap VFloat64 (readFloat64 rp name opts).
Let boolean name := fun _ : NetworkDetails => rmap VBool (readBool rp name opts).
Let seconds name :=
  fun _ : NetworkDetails => rmap (fun x => VDuration (secondsToDuration x)) (readUint64 rp name opts).
Let atIndex name :=
  fun nd : NetworkDetails => rmap VBig (readBigAtIndex rp name (getUint64 nd RewardIndex) opts).
Let w (format : string) := fun e => Errorw format [] e.
Let nw (format : string) := fun _ : error => Errorf format [].

(** The goroutine that reads the smoothing pool: two reads, the address
    is stored before the balance is asked for. *)
Definition smoothingPoolTask : Task :=
  fun nd =>
    match GetContract rp "rocketSmoothingPool" opts with
    | Err e =>
        ([mkEvent "rp.GetContract" true], nd,
         Some (Errorw "error getting smoothing pool contract: %w" [] e))
    | Ok address =>
        let nd1 := setField SmoothingPoolAddress (VAddress address) nd in
        match Client_BalanceAt rp address opts with
        | Ok b =>
            ([mkEvent "rp.GetContract" false; mkEvent "rp.Client.BalanceAt" false],
             setField SmoothingPoolBalance (VBig b) nd1, None)
        | Err e =>
            ([mkEvent "rp.GetContract" false; mkEvent "rp.Client.BalanceAt" true],
             setField SmoothingPoolBalance VNil nd1,
             Some (Errorw "error getting smoothing pool balance: %w" [] e))
        end
    end.

(** The goroutines in the order [wg.Go] starts them. *)
Definition networkDetailsTasks (isAtlasDeployed : bool) : list Task :=
  [ assign RplPrice "network.GetRPLPrice" (big "network.GetRPLPrice")
      (w "error getting RPL price ratio: %w");
    assign MinCollateralFraction "protocol.GetMinimumPerMinipoolStakeRaw"
      (big "protocol.GetMinimumPerMinipoolStakeRaw")
      (w "error getting minimum per minipool stake: %w");
    assign MaxCollateralFraction "protocol.GetMaximumPerMinipoolStakeRaw"
      (big "protocol.GetMaximumPerMinipoolStakeRaw")
      (w "error getting maximum per minipool stake: %w");
    fetch RewardIndex "rewards.GetRewardIndex"
      (fun _ => rmap (fun x => VUint64 (big_Uint64 x)) (readBig rp "rewards.GetRewardIndex" opts))
      (w "error getting reward index: %w");
    assign IntervalDuration "GetClaimIntervalTime"
      (fun nd => rmap VDuration (GetClaimIntervalTime rp (getUint64 nd RewardIndex) opts))
      (w "error getting interval duration: %w");
    assign IntervalStart "rewards.GetClaimIntervalTimeStart"
      (fun _ => rmap VTime (readTime rp "rewards.GetClaimIntervalTimeStart" opts))
      (w "error getting interval start: %w");
    assign NodeOperatorRewardsPercent "GetNodeOperatorRewardsPercent"
      (atIndex "GetNodeOperatorRewardsPercent")
      (nw "error getting node operator rewards percent");
    assign TrustedNodeOperatorRewardsPercent "GetTrustedNodeOperatorRewardsPercent"
      (atIndex "GetTrustedNodeOperatorRewardsPercent")
      (nw "error getting trusted node operator rewards percent");
    assign ProtocolDaoRewardsPercent "GetProtocolDaoRewardsPercent"
      (atIndex "GetProtocolDaoRewardsPercent")
      (nw "error getting protocol DAO rewards percent");
    assign PendingRPLRewards "GetPendingRPLRewards"
      (atIndex "GetPendingRPLRewards")
      (nw "error getting pending RPL rewards");
    fetch ScrubPeriod "trustednode.GetScrubPeriod" (seconds "trustednode.GetScrubPeriod")
      (w "error getting scrub period: %w");
    smoothingPoolTask;
    assign DepositPoolBalance "deposit.GetBalance" (big "deposit.GetBalance")
      (w "error getting deposit pool balance: %w");
    assign DepositPoolExcess "deposit.GetExcessBalance" (big "deposit.GetExcessBalance")
      (w "error getting deposit pool excess: %w");
    assign QueueCapacity "minipool.GetQueueCapacity"
      (fun _ => rmap (fun q => VQueueCapacity (fst q) (snd q)) (readQueueCapacity rp opts))
      (w "error getting minipool queue capacity: %w");
    assign RPLInflationIntervalRate "tokens.GetRPLInflationIntervalRate"
      (big "tokens.GetRPLInflationIntervalRate")
      (w "error getting RPL inflation interval: %w");
    assign RPLTotalSupply "tokens.GetRPLTotalSupply" (big "tokens.GetRPLTotalSupply")
      (w "error getting total RPL supply: %w");
    assign PricesBlock "network.GetPricesBlock" (u64 "network.GetPricesBlock")
      (w "error getting ETH1 prices block: %w");
    fetch LatestReportablePricesBlock "network.GetLatestReportablePricesBlock"
      (fun _ => rmap (fun x => VUint64 (big_Uint64 x))
                  (readBig rp "network.GetLatestReportablePricesBlock" opts))
      (w "error getting ETH1 latest reportable block: %w");
    assign ETHUtilizationRate "network.GetETHUtilizationRate"
      (f64 "network.GetETHUtilizationRate")
      (w "error getting ETH utilization rate: %w");
    assign StakingETHBalance "network.GetStakingETHBalance"
      (big "network.GetStakingETHBalance")
      (w "error getting total ETH staking balance: %w");
    assign RETHExchangeRate "tokens.GetRETHExchangeRate" (f64 "tokens.GetRETHExchangeRate")
      (w "error getting ETH-rETH exchange rate: %w");
    assign TotalETHBalance "network.GetTotalETHBalance" (big "network.GetTotalETHBalance")
      (w "error getting total ETH balance (TVL): %w");
    assign RETHBalance "rp.Client.BalanceAt"
      (fun _ => rmap VBig (Client_BalanceAt rp (GetRethAddress cfg) opts))
      (w "error getting ETH balance of rETH staking contract: %w");
    assign TotalRETHSupply "tokens.GetRETHTotalSupply" (big "tokens.GetRETHTotalSupply")
      (w "error getting total rETH supply: %w");
    assign TotalRPLStake "node.GetTotalRPLStake" (big "node.GetTotalRPLStake")
      (w "error getting total amount of RPL staked on the network: %w");
    assign NodeFee "network.GetNodeFee" (f64 "network.GetNodeFee")
      (w "error getting current node fee for new minipools: %w");
    assign BalancesBlock "network.GetBalancesBlockRaw" (big "network.GetBalancesBlockRaw")
      (w "error getting balances block: %w");
    assign LatestReportableBalancesBlock "network.GetLatestReportableBalancesBlock"
      (u64 "network.GetLatestReportableBalancesBlock")
      (w "error getting latest reportable balances block: %w");
    assign SubmitBalancesEnabled "protocol.GetSubmitBalancesEnabled"
      (boolean "protocol.GetSubmitBalancesEnabled")
      (w "error getting submit balances enabled status: %w");
    assign SubmitPricesEnabled "protocol.GetSubmitPricesEnabled"
      (boolean "protocol.GetSubmitPricesEnabled")
      (w "error getting submit prices enabled status: %w");
    assign MinipoolLaunchTimeout "protocol.GetMinipoolLaunchTimeoutRaw"
      (big "protocol.GetMinipoolLaunchTimeoutRaw")
      (w "error getting minipool launch timeout %w") ]
  ++
  (if isAtlasDeployed then
     [ fetch PromotionScrubPeriod "trustednode.GetPromotionScrubPeriod"
         (seconds "trustednode.GetPromotionScrubPeriod")
         (w "error getting promotion scrub period: %w");
       fetch BondReductionWindowStart "trustednode.GetBondReductionWindowStart"
         (seconds "trustednode.GetBondReductionWindowStart")
         (w "error getting bond reduction window start: %w");
       fetch BondReductionWindowLength "trustednode.GetBondReductionWindowLength"
         (seconds "trustednode.GetBondReductionWindowLength")
         (w "error getting bond reduction window length: %w");
       assign DepositPoolUserBalance "deposit.GetUserBalance" (big "deposit.GetUserBalance")
         (w "error getting deposit pool user balance: %w") ]
   else []).

End Tasks.

(** ** errgroup

    The goroutines of a group run to completion whatever the others return
    (the group has no context to cancel); [Wait] returns the first non-nil
    error. The interleaving is a parameter: [tasks] is the list of
    goroutines in the order in which they take effect. *)
Fixpoint errgroup_Wait (tasks : list Task) (nd : NetworkDetails)
    : list Event * NetworkDetails * option error :=
  match tasks with
  | [] => ([], nd, None)
  | task :: rest =>
      let '(t1, nd1, e1) := task nd in
      let '(t2, nd2, e2) := errgroup_Wait rest nd1 in
      (t1 ++ t2, nd2, match e1 with Some e => Some e | None => e2 end)
  end.

(** A scheduler: the order in which the goroutines started by [wg.Go]
    take effect, a permutation of the order in which they were started. *)
Definition Scheduler : Type := list Task -> list Task.

Definition getNetworkDetails (sched : Scheduler) (cfg : RocketPoolConfig)
    (rp : RocketPool) (opts : Z) (isAtlasDeployed : bool) : Run NetworkDetails :=
  let '(t, nd, err) :=
    errgroup_Wait (sched (networkDetailsTasks cfg rp opts isAtlasDeployed)) zeroValue in
  match err with
  | Some e => (t, Err e)
  | None => (t, Ok nd)
  end.

(** ** CreateNetworkState *)

(** The node lookup loop,
    [for _, details := range state.NodeDetails { m[details.NodeAddress] = &details }].
    The range variable is one variable for the whole loop (the loops of
    [CalculateEffectiveStakes] copy theirs, [i := i] and [node := node],
    before a closure captures them): every iteration overwrites it and
    stores its address. *)
Definition buildNodeLookup (nodeDetails : list NativeNodeDetails)
    : option NativeNodeDetails * gmap Address NodePtr :=
  fold_left
    (fun '(var, lookup) details =>
       (Some details, <[NodeAddress details := RangeVar_details]> lookup))
    nodeDetails (None, ∅).

Definition emptyPubkey : ValidatorPubkey := 0%N.

(** The minipool lookup loop: the index by address, the public keys to ask
    the Beacon node for, and the minipools of each node. *)
Definition buildMinipoolLookups (minipoolDetails : list NativeMinipoolDetails)
    : gmap Address nat * list ValidatorPubkey * gmap Address (list nat) :=
  fold_left
    (fun '(byAddress, pubkeys, byNode) '(i, details) =>
       let byAddress := <[MinipoolAddress details := i]> byAddress in
       let pubkeys :=
         if negb (N.eqb (Pubkey details) emptyPubkey)
         then pubkeys ++ [Pubkey details] else pubkeys in
       let nodeList :=
         match byNode !! mp_NodeAddress details with
         | Some l => l
         | None => []
         end in
       (byAddress, pubkeys, <[mp_NodeAddress details := nodeList ++ [i]]> byNode))
    (imap (fun i details => (i, details)) minipoolDetails) (∅, [], ∅).

Local Open Scope run_scope.

Definition CreateNetworkState (sched : Scheduler) (cfg : RocketPoolConfig)
    (rp : RocketPool) (bc : BeaconClient) (slotNumber : Z)
    (beaconConfig : Eth2Config) : Run NetworkState :=
  let multicallerAddress := GetMulticallAddress cfg in
  let balanceBatcherAddress := GetBalanceBatcherAddress cfg in
  do '(beaconBlock, exists_) <-
    orWrap "error getting Beacon block for slot %d: %w" [slotNumber]
      (call "bc.GetBeaconBlock" (GetBeaconBlock bc slotNumber));
  if negb exists_ then fail (Errorf "slot %d did not have a Beacon block" [slotNumber]) else
  let elBlockNumber := ExecutionBlockNumber beaconBlock in
  let opts := elBlockNumber in
  do isAtlasDeployed <-
    orWrap "error checking if Atlas is deployed: %w" []
      (call "IsAtlasDeployed" (IsAtlasDeployed_at rp elBlockNumber));
  do contracts <-
    orWrap "error getting network contracts: %w" []
      (call "rpstate.NewNetworkContracts" (NewNetworkContracts rp isAtlasDeployed opts));
  do networkDetails <-
    orWrap "error getting network details: %w" []
      (getNetworkDetails sched cfg rp opts isAtlasDeployed);
  do nodeDetails <-
    orWrap "error getting all node details: %w" []
      (call "rpstate.GetAllNativeNodeDetails"
         (GetAllNativeNodeDetails rp multicallerAddress balanceBatcherAddress opts));
  do minipoolDetails <-
    orWrap "error getting all minipool details: %w" []
      (call "rpstate.GetAllNativeMinipoolDetails"
         (GetAllNativeMinipoolDetails rp multicallerAddress balanceBatcherAddress opts));
  let '(var, nodeDetailsByAddress) := buildNodeLookup nodeDetails in
  let '(minipoolDetailsByAddress, pubkeys, minipoolDetailsByNode) :=
    buildMinipoolLookups minipoolDetails in
  do statusMap <-
    call "bc.GetValidatorStatuses" (GetValidatorStatuses bc pubkeys slotNumber);
  let beaconBalances :=
    List.map
      (fun mpd =>
         match statusMap !! Pubkey mpd with
         | None => 0
         | Some validator => GweiToWei (Balance validator)
         end)
      minipoolDetails in
  do minipoolDetails <-
    call "rpstate.CalculateCompleteMinipoolShares"
      (CalculateCompleteMinipoolShares rp multicallerAddress minipoolDetails
         beaconBalances opts);
  ret {| IsAtlasDeployed := isAtlasDeployed;
         ElBlockNumber := elBlockNumber;
         BeaconSlotNumber := slotNumber;
         BeaconConfig := beaconConfig;
         NetworkDetails_ := Some networkDetails;
         NodeDetails := nodeDetails;
         NodeDetailsByAddress := nodeDetailsByAddress;
         details_var := var;
         MinipoolDetails := minipoolDetails;
         MinipoolDetailsByAddress := minipoolDetailsByAddress;
         MinipoolDetailsByNode := minipoolDetailsByNode;
         ValidatorDetails := statusMap |}.

Local Close Scope run_scope.

(** ** CalculateEffectiveStakes

    A run-time panic (a nil dereference, an integer division by zero, a
    [big.Int] division by zero) is [None]. *)

(** [s.BeaconSlotNumber / s.BeaconConfig.SlotsPerEpoch] on [uint64]. *)
Definition intervalEndEpochOf (s : NetworkState) : option Z :=
  if SlotsPerEpoch (BeaconConfig s) =? 0 then None
  else Some (BeaconSlotNumber s / SlotsPerEpoch (BeaconConfig s)).

(** One iteration of the loop over the minipools of a node; [acc] holds
    [eligibleBorrowedEth] and [eligibleBondedEth]. *)
Definition addMinipool (s : NetworkState) (acc : Z * Z) (p : nat) : option (Z * Z) :=
  mpd ← MinipoolDetails s !! p;
  if Exists mpd && MinipoolStatus_eqb (Status mpd) Staking then
    match ValidatorDetails s !! Pubkey mpd with
    | None => Some acc
    | Some validatorStatus =>
        intervalEndEpoch ← intervalEndEpochOf s;
        if intervalEndEpoch <? ActivationEpoch validatorStatus then Some acc
        else if ExitEpoch validatorStatus <=? intervalEndEpoch then Some acc
        else Some (fst acc + UserDepositBalance mpd, snd acc + NodeDepositBalance mpd)
    end
  else Some acc.

Fixpoint eligibleEth (s : NetworkState) (mpds : list nat) (acc : Z * Z)
    : option (Z * Z) :=
  match mpds with
  | [] => Some acc
  | p :: rest => acc' ← addMinipool s acc p; eligibleEth s rest acc'
  end.

(** The clamp of the node's stake between the two collateral bounds. *)
Definition clampStake (rplStake minCollateral maxCollateral : Z) : Z :=
  if big_Cmp rplStake minCollateral =? -1 then 0
  else if big_Cmp rplStake maxCollateral =? 1 then maxCollateral
  else rplStake.

(** [minCollateral] and [maxCollateral] of a node. *)
Definition collateralBounds (s : NetworkState) (node : NativeNodeDetails)
    : option (Z * Z) :=
  let mpds := default [] (MinipoolDetailsByNode s !! NodeAddress node) in
  '(eligibleBorrowedEth, eligibleBondedEth) ← eligibleEth s mpds (0, 0);
  nd ← NetworkDetails_ s;
  minCollateralFraction ← getBig nd MinCollateralFraction;
  rplPrice ← getBig nd RplPrice;
  minCollateral ← big_Div (eligibleBorrowedEth * minCollateralFraction) rplPrice;
  maxCollateralFraction ← getBig nd MaxCollateralFraction;
  maxCollateral ← big_Div (eligibleBondedEth * maxCollateralFraction) rplPrice;
  Some (minCollateral, maxCollateral).

(** The scaling of a stake by the node's participation in the interval. *)
Definition scaleStake (nd : NetworkDetails) (intervalDurationBig : Z)
    (slotTime : Time) (node : NativeNodeDetails) (nodeStake : Z) : option Z :=
  let regTimeBig := RegistrationTime node in
  let regTime := time_Unix (big_Int64 regTimeBig) in
  let eligibleDuration := Time_Sub slotTime regTime in
  if eligibleDuration <? getDuration nd IntervalDuration then
    let eligibleSeconds := toInt64 (dur_div eligibleDuration Second) in
    big_Div (nodeStake * eligibleSeconds) intervalDurationBig
  else Some nodeStake.

(** The goroutine started for one node: the stake it stores in its slot of
    [effectiveStakeSlice], and the error it returns (always nil). *)
Definition nodeGoroutine (s : NetworkState) (scaleByParticipation : bool)
    (intervalDurationBig : Z) (slotTime : Time) (node : NativeNodeDetails)
    : option (Z * option error) :=
  '(minCollateral, maxCollateral) ← collateralBounds s node;
  let nodeStake := clampStake (RplStake node) minCollateral maxCollateral in
  nd ← NetworkDetails_ s;
  nodeStake ←
    (if scaleByParticipation
     then scaleStake nd intervalDurationBig slotTime node nodeStake
     else Some nodeStake);
  Some (nodeStake, None).

(** [wg.Wait()] on goroutines that share no state. *)
Definition firstError {A} (results : list (A * option error)) : option error :=
  list_find (fun r => is_Some (snd r)) results ≫= (fun '(_, r) => snd r).

Definition slotTimeOf (s : NetworkState) : Time :=
  let genesisTime := time_Unix (toInt64 (GenesisTime (BeaconConfig s))) in
  let slotOffset :=
    dur_mul (toInt64 (wrap64 (BeaconSlotNumber s * SecondsPerSlot (BeaconConfig s))))
            Second in
  Time_Add genesisTime slotOffset.

Definition CalculateEffectiveStakes (s : NetworkState) (scaleByParticipation : bool)
    : option (option (gmap Address Z) * option Z * option error) :=
  nd ← NetworkDetails_ s;
  let intervalDurationBig := Duration_Seconds_int64 (getDuration nd IntervalDuration) in
  let slotTime := slotTimeOf s in
  results ← mapM (nodeGoroutine s scaleByParticipation intervalDurationBig slotTime)
                 (NodeDetails s);
  match firstError results with
  | Some err => Some (None, None, Some err)
  | None =>
      let effectiveStakeSlice := List.map fst results in
      let '(effectiveStakes, totalEffectiveStake) :=
        fold_left
          (fun '(stakes, total) '(node, nodeStake) =>
             (<[NodeAddress node := nodeStake]> stakes, total + nodeStake))
          (zip (NodeDetails s) effectiveStakeSlice) (∅, 0) in
      Some (Some effectiveStakes, Some totalEffectiveStake, None)
  end.

(** The eligibility conditions of the design document: the minipool exists
    and is staking, its validator is known, was activated at or before the
    interval's ending epoch, and exits after it. *)
Definition eligible (s : NetworkState) (intervalEndEpoch : Z)
    (mpd : NativeMinipoolDetails) : bool :=
  Exists mpd && MinipoolStatus_eqb (Status mpd) Staking &&
  match ValidatorDetails s !! Pubkey mpd with
  | None => false
  | Some validatorStatus =>
      (ActivationEpoch validatorStatus <=? intervalEndEpoch) &&
      (intervalEndEpoch <? ExitEpoch validatorStatus)
  end.

(** What a minipool adds to the borrowed and bonded totals of its node. *)
Definition contribution (s : NetworkState) (intervalEndEpoch : Z)
    (mpd : NativeMinipoolDetails) : Z * Z :=
  if eligible s intervalEndEpoch mpd
  then (UserDepositBalance mpd, NodeDepositBalance mpd)
  else (0, 0).

(** ** Conditions on a snapshot *)

Definition sumZ (l : list Z) : Z := fold_right Z.add 0 l.

(** The snapshot is usable by [CalculateEffectiveStakes]: the network
    details are there with a non-zero RPL price, the Beacon configuration
    has a non-zero epoch length, and the minipool pointers of every node
    point into [MinipoolDetails]. *)
Record Usable (s : NetworkState) (nd : NetworkDetails)
    (rplPrice minFraction maxFraction : Z) : Prop := {
  usable_details : NetworkDetails_ s = Some nd;
  usable_price : getBig nd RplPrice = Some rplPrice;
  usable_price_nonzero : rplPrice <> 0;
  usable_min : getBig nd MinCollateralFraction = Some minFraction;
  usable_max : getBig nd MaxCollateralFraction = Some maxFraction;
  usable_epoch : SlotsPerEpoch (BeaconConfig s) <> 0;
  usable_pointers :
    forall node, In node (NodeDetails s) ->
      Forall (fun p => is_Some (MinipoolDetails s !! p))
             (default [] (MinipoolDetailsByNode s !! NodeAddress node))
}.

(** The amounts of the snapshot are what the chain can hold: unsigned
    numbers, and a positive RPL price. *)
Record Unsigned (s : NetworkState) (rplPrice minFraction maxFraction : Z) : Prop := {
  unsigned_price : 0 < rplPrice;
  unsigned_min : 0 <= minFraction;
  unsigned_max : 0 <= maxFraction;
  unsigned_stake : forall node, In node (NodeDetails s) -> 0 <= RplStake node;
  unsigned_deposits :
    forall mpd, In mpd (MinipoolDetails s) ->
      0 <= UserDepositBalance mpd /\ 0 <= NodeDepositBalance mpd
}.

(** No node of the snapshot registered after the snapshot's slot time. *)
Definition RegisteredBySlotTime (s : NetworkState) : Prop :=
  forall node, In node (NodeDetails s) ->
    time_Unix (big_Int64 (RegistrationTime node)) <= slotTimeOf s.

(** The stake [v] is the clamped stake of a node of the snapshot with
    address [a]: the node's bounds are
    [minCollateral = eligibleBorrowedEth * minFraction / rplPrice] and
    [maxCollateral = eligibleBondedEth * maxFraction / rplPrice], taken over
    the node's eligible minipools; [v] is 0 if the node's RPL stake is below
    [minCollateral], and the smaller of the RPL stake and [maxCollateral]
    otherwise. *)
Definition ClampedStakeOf (s : NetworkState) (rplPrice minFraction maxFraction : Z)
    (a : Address) (v : Z) : Prop :=
  exists node details minCollateral maxCollateral,
    In node (NodeDetails s) /\ NodeAddress node = a /\
    Forall2 (fun p mpd => MinipoolDetails s !! p = Some mpd)
            (default [] (MinipoolDetailsByNode s !! a)) details /\
    (let epoch := BeaconSlotNumber s / SlotsPerEpoch (BeaconConfig s) in
     let eligibleBorrowedEth :=
       sumZ (List.map (fun mpd => fst (contribution s epoch mpd)) details) in
     let eligibleBondedEth :=
       sumZ (List.map (fun mpd => snd (contribution s epoch mpd)) details) in
     big_Div (eligibleBorrowedEth * minFraction) rplPrice = Some minCollateral /\
     big_Div (eligibleBondedEth * maxFraction) rplPrice = Some maxCollateral) /\
    (RplStake node < minCollateral -> v = 0) /\
    (minCollateral <= RplStake node ->
       v = Z.min (RplStake node) maxCollateral /\
       v <= maxCollateral /\
       (minCollateral <= maxCollateral -> minCollateral <= v)).

(** A goroutine is clean when it returns nil only if none of its reads
    failed. *)
Definition cleanTask (task : Task) : Prop :=
  forall nd, snd (task nd) = None ->
    Forall (fun ev => ev_failed ev = false) (fst (fst (task nd))).

End State.

(* ================================================================== *)
(** * Rewards files                                                     *)
(* ================================================================== *)

Module RewardsFiles.

Definition bytes : Type := list byte.

(** [cfgtypes.Network] *)
Inductive Network : Type := Network_Mainnet | Network_Prater | Network_Devnet.

Definition Network_eqb (a b : Network) : bool :=
  match a, b with
  | Network_Mainnet, Network_Mainnet | Network_Prater, Network_Prater
  | Network_Devnet, Network_Devnet => true
  | _, _ => false
  end.

(** [rewards.RewardsEvent], the on-chain record of an interval. *)
Record RewardsEvent : Type := mkRewardsEvent {
  ev_Index : Z;
  IntervalStartTime : Time;
  IntervalEndTime : Time;
  ConsensusBlock : Z;
  MerkleRoot : Hash;
  MerkleTreeCID : string
}.

(** The rewards of one node in a rewards file. *)
Record NodeRewardsInfo : Type := mkNodeRewardsInfo {
  CollateralRpl : Z;
  OracleDaoRpl : Z;
  SmoothingPoolEth : Z;
  MerkleProof_hex : list string
}.

(** [RewardsFile]: the [merkleRoot] string and the per-node rewards. *)
Record RewardsFile : Type := mkRewardsFile {
  rf_MerkleRoot : string;
  NodeRewards : gmap Address NodeRewardsInfo
}.

(** [IntervalInfo]; the amounts are [*big.Int] (nil until set). *)
Record IntervalInfo : Type := mkIntervalInfo {
  Index : Z;
  TreeFilePath : string;
  TreeFileExists : bool;
  MerkleRootValid : bool;
  CID : string;
  StartTime : Time;
  EndTime : Time;
  NodeExists : bool;
  CollateralRplAmount : option Z;
  ODaoRplAmount : option Z;
  SmoothingPoolEthAmount : option Z;
  MerkleProof : list Hash
}.

Inductive StatResult : Type :=
| StatOk
| StatNotExist            (* an error for which os.IsNotExist holds *)
| StatError (e : error).

(** The operating system, the network and the libraries, as the rewards
    utilities use them. The URL formats, the IPFS extension and the
    prehistoric Prater events are constants of packages that are not among
    the sources. *)
Record World : Type := mkWorld {
  (* configuration *)
  cfg_Network : Network;
  Network_string : string;
  GetRewardsTreePath : Z -> bool -> string;
  GetPreviousRewardsPoolAddresses : list Address;
  RewardsTreeIpfsExtension : string;
  PrimaryRewardsFileUrl : string -> string -> string;
  SecondaryRewardsFileUrl : string -> string -> string;
  GithubRewardsFileUrl : string -> string -> string;
  praterPrehistoryIntervalEvents : Z -> RewardsEvent;
  (* contract bindings *)
  NewRewardsPool : result unit;
  GetRewardsEvent : Z -> list Address -> Z -> result (bool * RewardsEvent);
  (* files *)
  homedir_Expand : string -> result string;
  filepath_Base : string -> string;
  os_Stat : string -> StatResult;
  os_ReadFile : string -> result bytes;
  os_WriteFile : string -> bytes -> option error;
  (* libraries *)
  json_Unmarshal : bytes -> result RewardsFile;
  HexToHash : string -> Hash;
  GetMerkleProof : NodeRewardsInfo -> result (list Hash);
  zstd_NewReader : option error;
  zstd_DecodeAll : bytes -> result bytes;
  (* http *)
  http_Get : string -> result (Z * string * result bytes)
}.

Definition zeroEvent : RewardsEvent := mkRewardsEvent 0 0 0 0 0%N "".

(** ** GetRewardSnapshotEvent *)
Definition GetRewardSnapshotEvent (w : World) (interval opts : Z)
    : RewardsEvent * option error :=
  let addresses := GetPreviousRewardsPoolAddresses w in
  match NewRewardsPool w with
  | Err err => (zeroEvent, Some (Errorw "error getting rewards pool binding: %w" [] err))
  | Ok rewardsPool =>
      match GetRewardsEvent w interval addresses opts with
      | Err err =>
          (zeroEvent,
           Some (Errorw "error getting rewards event for interval %d: %w" [interval] err))
      | Ok (found, event) =>
          if negb found
          then (zeroEvent, Some (Errorf "interval %d event not found" [interval]))
          else (event, None)
      end
  end.

(** The event [GetIntervalInfo] works with. *)
Definition intervalEvent (w : World) (interval opts : Z) : RewardsEvent * option error :=
  if Network_eqb (cfg_Network w) Network_Prater && (interval <? 6)
  then (praterPrehistoryIntervalEvents w interval, None)
  else GetRewardSnapshotEvent w interval opts.

(** ** GetIntervalInfo *)
Definition GetIntervalInfo (w : World) (nodeAddress : Address) (interval opts : Z)
    : IntervalInfo * option error :=
  match intervalEvent w interval opts with
  | (_, Some err) =>
      (mkIntervalInfo interval "" false false "" 0 0 false None None None [], Some err)
  | (event, None) =>
      let cid := MerkleTreeCID event in
      let startTime := IntervalStartTime event in
      let endTime := IntervalEndTime event in
      let merkleRootCanon := MerkleRoot event in
      let treeFilePath := GetRewardsTreePath w interval true in
      let info := fun valid nodeExists collateral odao smoothing proof =>
        mkIntervalInfo interval treeFilePath true valid cid startTime endTime
                       nodeExists collateral odao smoothing proof in
      match os_Stat w treeFilePath with
      | StatNotExist =>
          (mkIntervalInfo interval treeFilePath false false cid startTime endTime
                          false None None None [], None)
      | _ =>
          match os_ReadFile w treeFilePath with
          | Err err =>
              (info false false None None None [],
               Some (Errorw "error reading %s: %w" [] err))
          | Ok fileBytes =>
              match json_Unmarshal w fileBytes with
              | Err err =>
                  (info false false None None None [],
                   Some (Errorw "error deserializing %s: %w" [] err))
              | Ok proofWrapper =>
                  let merkleRootFromFile := HexToHash w (rf_MerkleRoot proofWrapper) in
                  if negb (N.eqb merkleRootCanon merkleRootFromFile)
                  then (info false false None None None [], None)
                  else
                    match NodeRewards proofWrapper !! nodeAddress with
                    | None => (info true false None None None [], None)
                    | Some rewards =>
                        let collateral := Some (CollateralRpl rewards) in
                        let odao := Some (OracleDaoRpl rewards) in
                        let smoothing := Some (SmoothingPoolEth rewards) in
                        match GetMerkleProof w rewards with
                        | Err err =>
                            (info true true collateral odao smoothing [],
                             Some (Errorw "error deserializing merkle proof for %s, node %s: %w"
                                          [] err))
                        | Ok proof =>
                            (info true true collateral odao smoothing proof, None)
                        end
                    end
              end
          end
      end
  end.

(** ** DownloadRewardsFile *)












(** The root check of [GetIntervalInfo] as the design document words it,
    with [recomputed] the Merkle root recomputed from the leaves of a
    rewards file: whenever the stored file parses and its
    recomputed root differs from the event's root, the file is reported
    invalid and no reward amounts are returned. *)
Definition RootRecomputedFromLeaves (recomputed : RewardsFile -> Hash) : Prop :=
  forall w nodeAddress interval opts event fileBytes file,
    intervalEvent w interval opts = (event, None) ->
    os_Stat w (GetRewardsTreePath w interval true) = StatOk ->
    os_ReadFile w (GetRewardsTreePath w interval true) = Ok fileBytes ->
    json_Unmarshal w fileBytes = Ok file ->
    recomputed file <> MerkleRoot event ->
    MerkleRootValid (fst (GetIntervalInfo w nodeAddress interval opts)) = false /\
    CollateralRplAmount (fst (GetIntervalInfo w nodeAddress interval opts)) = None.

End RewardsFiles.

(* ================================================================== *)
(** * Locating the execution block of a timestamp                       *)
(* ================================================================== *)

Module BlockLocator.

(** [types.Header], the fields the search reads. *)
Record Header : Type := mkHeader {
  Number : Z;
  Time_ : Z
}.

(** The execution client and the deployment block of the protocol.
    [HeaderByNumber None] is the call with a nil number (the latest
    block). *)
Record RocketPool : Type := mkRocketPool {
  HeaderByNumber : option Z -> result Header;
  DeployBlock : Z
}.

Definition Outcome : Type := option Header * option error.

(** [float64] values are modelled by the numbers they stand for: block
    times, the target time and the pivot are integers, on which the
    conversions, the subtraction, [math.Abs] and the halving with
    [math.Ceil] are exact below 2^53. *)
Definition ceilHalf (pivotSize : Z) : Z := wrap64 ((pivotSize + 1) / 2).

(** The inner loop: walk back while the candidate is later than the
    target. [None] when the fuel runs out. *)
Fixpoint walkBack (rp : RocketPool) (fuel : nat) (targetTimeUnix : Z)
    (candidateBlockNumber candidateTime : Z) (bestBlock : Header) : option Outcome :=
  match fuel with
  | O => None
  | S fuel' =>
      if targetTimeUnix <? candidateTime then
        let candidateBlockNumber := candidateBlockNumber - 1 in
        match HeaderByNumber rp (Some candidateBlockNumber) with
        | Err err => Some (None, Some (Errorw "error getting EL block %d: %w" [] err))
        | Ok candidateBlock =>
            walkBack rp fuel' targetTimeUnix candidateBlockNumber
                     (Time_ candidateBlock) candidateBlock
        end
      else Some (Some bestBlock, None)
  end.

(** The move of the candidate by the pivot, to the left when the candidate
    is later than the target, and the clamp to the block before the
    latest. *)
Definition nextCandidate (latestBlock delta candidateBlockNumber pivotSize : Z) : Z :=
  let candidateBlockNumber :=
    if delta <? 0
    then candidateBlockNumber - toInt64 pivotSize
    else candidateBlockNumber + toInt64 pivotSize in
  if wrap64 (big_Uint64 latestBlock - 1) <? big_Uint64 candidateBlockNumber
  then wrap64 (big_Uint64 latestBlock - 1)
  else candidateBlockNumber.

(** The outer loop. [minimumDistance] is [None] while it is +Inf. *)
Fixpoint search (rp : RocketPool) (fuel : nat) (latestBlock targetTimeUnix : Z)
    (candidateBlockNumber : Z) (candidateBlock bestBlock : Header)
    (pivotSize : Z) (minimumDistance : option Z) : option Outcome :=
  match fuel with
  | O => None
  | S fuel' =>
      let candidateTime := Time_ candidateBlock in
      let delta := targetTimeUnix - candidateTime in
      let distance := Z.abs delta in
      let better :=
        match minimumDistance with
        | None => true
        | Some m => distance <? m
        end in
      if negb better && (pivotSize =? 1) then
        walkBack rp fuel' targetTimeUnix candidateBlockNumber candidateTime bestBlock
      else
        let minimumDistance := if better then Some distance else minimumDistance in
        let bestBlock := if better then candidateBlock else bestBlock in
        let pivotSize := ceilHalf pivotSize in
        let candidateBlockNumber :=
          nextCandidate latestBlock delta candidateBlockNumber pivotSize in
        match HeaderByNumber rp (Some candidateBlockNumber) with
        | Err err => Some (None, Some (Errorw "error getting EL block %d: %w" [] err))
        | Ok candidateBlock =>
            search rp fuel' latestBlock targetTimeUnix candidateBlockNumber
                   candidateBlock bestBlock pivotSize minimumDistance
        end
  end.

Definition GetELBlockHeaderForTime (fuel : nat) (rp : RocketPool) (targetTime : Time)
    : option Outcome :=
  match HeaderByNumber rp None with
  | Err err => Some (None, Some (Errorw "error getting latest block header: %w" [] err))
  | Ok latestBlockHeader =>
      let latestBlock := Number latestBlockHeader in
      (* Div by the constant 2: Euclidean and floored division agree *)
      let delta := (latestBlock - DeployBlock rp) / 2 in
      let candidateBlockNumber := latestBlock - delta in
      match HeaderByNumber rp (Some candidateBlockNumber) with
      | Err err => Some (None, Some (Errorw "error getting EL block %d: %w" [] err))
      | Ok candidateBlock =>
          let bestBlock := candidateBlock in
          let pivotSize := big_Uint64 (Number candidateBlock) in
          let targetTimeUnix := Time_Unix targetTime in
          search rp fuel latestBlock targetTimeUnix candidateBlockNumber
                 candidateBlock bestBlock pivotSize None
      end
  end.

(** A chain of [head + 1] blocks, numbered from 0, mined 12 seconds apart
    from [genesisTime]; the client knows no other block. *)
Definition regularChain (genesisTime head deployBlock : Z) : RocketPool :=
  {| HeaderByNumber := fun number =>
       match number with
       | None => Ok (mkHeader head (genesisTime + 12 * head))
       | Some n =>
           if (0 <=? n) && (n <=? head)
           then Ok (mkHeader n (genesisTime + 12 * n))
           else Err (Errorf "not found" [])
       end;
     DeployBlock := deployBlock |}.

(** The outcome the design document allows: an error, or a block below
    the head. *)
Definition belowHead (latestBlock : Z) (r : Outcome) : Prop :=
  match r with
  | (Some header, None) => Number header < latestBlock
  | (None, Some _) => True
  | _ => False
  end.

(** The execution client serves exactly the blocks [0 .. latestBlock],
    each under its own number; the head is far enough from the deployment
    block, and times and numbers are in the range in which [float64]
    computes exactly. *)
Record Served (rp : RocketPool) (latestBlock targetTimeUnix : Z) : Prop := {
  served_head : exists time, HeaderByNumber rp None = Ok (mkHeader latestBlock time);
  served_blocks :
    forall n, 0 <= n <= latestBlock ->
      exists time, HeaderByNumber rp (Some n) = Ok (mkHeader n time) /\ 0 <= time < 2 ^ 53;
  served_only :
    forall n, n < 0 \/ latestBlock < n ->
      exists err, HeaderByNumber rp (Some n) = Err err;
  served_deploy : 0 <= DeployBlock rp <= latestBlock - 2;
  served_range : latestBlock < 2 ^ 53;
  served_target : - 2 ^ 53 < targetTimeUnix < 2 ^ 53
}.

End BlockLocator.

(* ================================================================== *)
(** * The reduce-bonds task                                             *)
(* ================================================================== *)

Module ReduceBonds.
Import State.

(** The fraction of the timeout period to trigger overdue transactions *)
Definition reduceBondTimeoutSafetyFactor : Z := 2.

(** [rocketpool.GasInfo] *)
Record GasInfo : Type := mkGasInfo {
  EstGasLimit : Z;
  SafeGasLimit : Z
}.

(** [bind.TransactOpts], the fields [reduceBond] sets. *)
Record TransactOpts : Type := mkTransactOpts {
  GasFeeCap : option Z;
  GasTipCap : option Z;
  GasLimit : Z
}.

(** The task: the fields [reduceBond] reads. [maxFee] may be nil;
    [gasThreshold] is a [float64], kept by its bit pattern. *)
Record reduceBonds : Type := mkReduceBonds {
  gasThreshold : Z;
  maxFee : option Z;
  maxPriorityFee : Z;
  gasLimit : Z
}.

(** The wallet, the minipool bindings, the gas oracle and the API helpers
    the task calls. A minipool binding is identified by the minipool's
    address and version. *)
Record Services : Type := mkServices {
  GetNodeAccountTransactor : result TransactOpts;
  NewMinipoolFromVersion : Address -> Z -> result (Address * Z);
  GetMinipoolAsV3 : Address * Z -> bool;
  EstimateReduceBondAmountGas : Address -> TransactOpts -> result GasInfo;
  GetHeadlessMaxFeeWei : result Z;
  GetReduceBondTime : Address -> Z -> result Time;
  PrintAndCheckGasInfo : GasInfo -> bool -> Z -> Z -> Z -> bool;
  ReduceBondAmount : Address -> TransactOpts -> result Hash;
  PrintAndWaitForTransaction : Hash -> option error
}.

(** [remainingTime] and [isDue] of the timeout check. *)
Definition remainingTime (windowStart windowLength : Duration)
    (latestBlockTime reduceBondTime : Time) : Duration :=
  let timeSinceReductionStart := Time_Sub latestBlockTime reduceBondTime in
  dur_sub (dur_add windowStart windowLength) timeSinceReductionStart.

Definition isDue (windowStart windowLength : Duration)
    (latestBlockTime reduceBondTime : Time) : bool :=
  remainingTime windowStart windowLength latestBlockTime reduceBondTime
    <? dur_div windowLength reduceBondTimeoutSafetyFactor.

Local Open Scope run_scope.

(** The tail of [reduceBond]: submit the transaction and wait for it. *)
Definition submitReduceBond (t : reduceBonds) (sv : Services)
    (mpd : NativeMinipoolDetails) (opts : TransactOpts) (maxFee gas : Z) : Run bool :=
  let opts := mkTransactOpts (Some maxFee) (Some (maxPriorityFee t)) (big_Uint64 gas) in
  do hash <- call "mpv3.ReduceBondAmount" (ReduceBondAmount sv (MinipoolAddress mpd) opts);
  match PrintAndWaitForTransaction sv hash with
  | Some err => (([mkEvent "api.PrintAndWaitForTransaction" true], Err err) : Run bool)
  | None => ([mkEvent "api.PrintAndWaitForTransaction" false], Ok true)
  end.

(** The max fee: the user's, or the headless one when that is nil or 0. *)
Definition getMaxFee (t : reduceBonds) (sv : Services) : Run Z :=
  match maxFee t with
  | Some fee =>
      if big_Uint64 fee =? 0
      then call "rpgas.GetHeadlessMaxFeeWei" (GetHeadlessMaxFeeWei sv)
      else ret fee
  | None => call "rpgas.GetHeadlessMaxFeeWei" (GetHeadlessMaxFeeWei sv)
  end.

(** [reduceBond]; the value of the run is [success], an error stands for
    [return false, err]. *)
Definition reduceBond (t : reduceBonds) (sv : Services) (mpd : NativeMinipoolDetails)
    (windowStart windowLength : Duration) (latestBlockTime : Time) (callOpts : Z)
    : Run bool :=
  do opts <- call "t.w.GetNodeAccountTransactor" (GetNodeAccountTransactor sv);
  do mpBinding <-
    orWrap "error creating minipool binding for %s: %w" []
      (call "minipool.NewMinipoolFromVersion"
         (NewMinipoolFromVersion sv (MinipoolAddress mpd) (Version mpd)));
  if negb (GetMinipoolAsV3 sv mpBinding) then
    fail (Errorf "cannot reduce bond for minipool %s because its delegate version is too low (v%d); please update the delegate"
            [snd mpBinding])
  else
  do gasInfo <-
    orWrap "could not estimate the gas required to reduce bond: %w" []
      (call "mpv3.EstimateReduceBondAmountGas"
         (EstimateReduceBondAmountGas sv (fst mpBinding) opts));
  let gas := if negb (gasLimit t =? 0) then gasLimit t else SafeGasLimit gasInfo in
  do maxFee <- getMaxFee t sv;
  do reduceBondTime <-
    orWrap "error getting reduce bond time for minipool %s: %w" []
      (call "minipool.GetReduceBondTime"
         (GetReduceBondTime sv (MinipoolAddress mpd) callOpts));
  if negb (PrintAndCheckGasInfo sv gasInfo true (gasThreshold t) maxFee (gasLimit t)) then
    if negb (isDue windowStart windowLength latestBlockTime reduceBondTime)
    then ret false
    else submitReduceBond t sv mpd opts maxFee gas
  else submitReduceBond t sv mpd opts maxFee gas.

Local Close Scope run_scope.

(** What the Go caller receives from [reduceBond]. *)
Definition returnedBool (m : Run bool) : bool * option error :=
  match snd m with
  | Ok b => (b, None)
  | Err e => (false, Some e)
  end.

(** Whether the run sent the bond-reduction transaction. *)
Definition submitted (m : Run bool) : bool :=
  existsb (fun ev => String.eqb (ev_call ev) "mpv3.ReduceBondAmount") (fst m).

End ReduceBonds.

(* ================================================================== *)
(** * Concrete networks                                                 *)
(* ================================================================== *)

Module ClaimStatusExample.
Import ClaimStatusTracker.

(** Bucket 0 of every node holds 0b101; the query succeeds. *)
Definition chain : Chain :=
  mkChain None (fun _ bucket => if bucket =? 0 then 5 else 0).

End ClaimStatusExample.

(** A small network: two nodes and three minipools, on a Beacon chain with
    12-second slots and 32-slot epochs, snapshotted at slot 3200 (epoch
    100). RPL is priced at 0.01 ETH, the collateral fractions are 10% and
    150%, the rewards interval lasts 28 days. *)
Module SmallNetwork.
Import State.

Definition ether : Z := 10 ^ 18.
Definition genesis : Z := 1606824023.
Definition slot : Z := 3200.
Definition FarEpoch : Z := 18446744073709551615.

Definition beaconConfig : Eth2Config := mkEth2Config genesis 12 32.

(** Node 1 stakes 100 RPL; node 2 stakes 1000 RPL and has a registration
    time one interval after the snapshot's slot time. *)
Definition node1 : NativeNodeDetails := mkNode 1%N (100 * ether) (genesis + 1000).
Definition node2 : NativeNodeDetails :=
  mkNode 2%N (1000 * ether) (genesis + slot * 12 + 2419200).

Definition minipool1 : NativeMinipoolDetails :=
  mkMinipool true 101%N 11%N Staking 1%N (16 * ether) (16 * ether) 3.
Definition minipool2 : NativeMinipoolDetails :=
  mkMinipool true 102%N 12%N Staking 2%N (16 * ether) (16 * ether) 3.
Definition minipool3 : NativeMinipoolDetails :=
  mkMinipool true 103%N 13%N Prelaunch 2%N (16 * ether) (16 * ether) 3.

Definition validators : gmap ValidatorPubkey ValidatorStatus :=
  {[ 11%N := mkValidatorStatus 32000000000 5 FarEpoch;
     12%N := mkValidatorStatus 32000000000 7 FarEpoch ]}.

Definition bigValue (name : string) : Z :=
  if String.eqb name "network.GetRPLPrice" then 10 ^ 16
  else if String.eqb name "protocol.GetMinimumPerMinipoolStakeRaw" then 10 ^ 17
  else if String.eqb name "protocol.GetMaximumPerMinipoolStakeRaw" then 15 * 10 ^ 17
  else 0.

Definition cfg : RocketPoolConfig := mkConfig 201%N 202%N 203%N.

(** Every read succeeds, except the reads of [*big.Int] values named in
    [failing]. *)
Definition rocketPool (failing : list string) : RocketPool :=
  {| readBig := fun name _ =>
       if existsb (String.eqb name) failing
       then Err (Errorf "execution reverted" [])
       else Ok (bigValue name);
     readUint64 := fun _ _ => Ok 0;
     readFloat64 := fun _ _ => Ok 0;
     readBool := fun _ _ => Ok true;
     readTime := fun _ _ => Ok 0;
     readQueueCapacity := fun _ => Ok (0, 0);
     readBigAtIndex := fun _ _ _ => Ok 0;
     GetClaimIntervalTime := fun _ _ => Ok (2419200 * Second);
     GetContract := fun _ _ => Ok 204%N;
     Client_BalanceAt := fun _ _ => Ok 0;
     IsAtlasDeployed_at := fun _ => Ok true;
     NewNetworkContracts := fun _ _ => Ok tt;
     GetAllNativeNodeDetails := fun _ _ _ => Ok [node1; node2];
     GetAllNativeMinipoolDetails := fun _ _ _ => Ok [minipool1; minipool2; minipool3];
     CalculateCompleteMinipoolShares := fun _ mpds _ _ => Ok mpds |}.

Definition beaconClient : BeaconClient :=
  {| GetBeaconBlock := fun _ => Ok (mkBeaconBlock 17000000, true);
     GetValidatorStatuses := fun _ _ => Ok validators |}.

(** The goroutines take effect in the order they were started. *)
Definition inOrder : Scheduler := fun tasks => tasks.

Definition networkDetails : NetworkDetails :=
  setField RplPrice (VBig (10 ^ 16))
    (setField MinCollateralFraction (VBig (10 ^ 17))
       (setField MaxCollateralFraction (VBig (15 * 10 ^ 17))
          (setField IntervalDuration (VDuration (2419200 * Second)) zeroValue))).

(** A snapshot of this network with the given nodes, the node lookup
    being the one the effective-stake code expects (how
    [CreateNetworkState] builds it is a separate matter). *)
Definition stateWith (nodes : list NativeNodeDetails) : NetworkState :=
  {| IsAtlasDeployed := true;
     ElBlockNumber := 17000000;
     BeaconSlotNumber := slot;
     BeaconConfig := beaconConfig;
     NetworkDetails_ := Some networkDetails;
     NodeDetails := nodes;
     NodeDetailsByAddress := {[ 1%N := NodeElem 0; 2%N := NodeElem 1 ]};
     details_var := None;
     MinipoolDetails := [minipool1; minipool2; minipool3];
     MinipoolDetailsByAddress := {[ 101%N := 0%nat; 102%N := 1%nat; 103%N := 2%nat ]};
     MinipoolDetailsByNode := {[ 1%N := [0%nat]; 2%N := [1%nat; 2%nat] ]};
     ValidatorDetails := validators |}.

Definition state : NetworkState := stateWith [node1; node2].

(** The snapshot [CreateNetworkState] builds of the network when every
    read succeeds. *)
Definition snapshot : Run NetworkState :=
  CreateNetworkState inOrder cfg (rocketPool []) beaconClient slot beaconConfig.

(** The same network with node 2 registered half an interval before the
    snapshot's slot time. *)
Definition node2_settled : NativeNodeDetails :=
  mkNode 2%N (1000 * ether) (genesis + slot * 12 - 1209600).

Definition settled : NetworkState := stateWith [node1; node2_settled].

End SmallNetwork.

(** A minipool whose bond reduction was requested at [requested]; the
    window opens 12 hours later and stays open for 2 days. Gas is too
    expensive for the configured threshold. *)
Module ReduceBondsExample.
Import ReduceBonds.

Definition hour : Duration := 3600 * Second.
Definition windowStart : Duration := 12 * hour.
Definition windowLength : Duration := 48 * hour.
Definition requested : Time := time_Unix 1700000000.

Definition task : reduceBonds := mkReduceBonds 0 None 2000000000 0.

Definition services : Services :=
  {| GetNodeAccountTransactor := Ok (mkTransactOpts None None 0);
     NewMinipoolFromVersion := fun address version => Ok (address, version);
     GetMinipoolAsV3 := fun binding => 3 <=? snd binding;
     EstimateReduceBondAmountGas := fun _ _ => Ok (mkGasInfo 200000 300000);
     GetHeadlessMaxFeeWei := Ok 150000000000;
     GetReduceBondTime := fun _ _ => Ok requested;
     PrintAndCheckGasInfo := fun _ _ _ _ _ => false;
     ReduceBondAmount := fun _ _ => Ok 77%N;
     PrintAndWaitForTransaction := fun _ => None |}.

(** 13 hours after the request: inside the window, more than half of it
    left. *)
Definition early : Run bool :=
  reduceBond task services SmallNetwork.minipool1 windowStart windowLength
    (Time_Add requested (13 * hour)) 17000000.

(** 37 hours after the request: less than half of the window left. *)
Definition late : Run bool :=
  reduceBond task services SmallNetwork.minipool1 windowStart windowLength
    (Time_Add requested (37 * hour)) 17000000.

End ReduceBondsExample.

(** Interval 7 of a main-net node: the on-chain event records the Merkle
    root 0xaa. [world stored served] has [stored] on disk as the interval's
    rewards file (if any), and every mirror serves [served]. *)
Module RewardsExample.
Import RewardsFiles.

Definition nodeA : Address := 10%N.

Definition event : RewardsEvent :=
  mkRewardsEvent 7 (time_Unix 1690000000) (time_Unix 1692419200) 7000000 170%N "bafy-interval-7".

(** The published file, and a copy in which the collateral reward of the
    node was changed while the [merkleRoot] string was left alone. *)
Definition original : RewardsFile :=
  mkRewardsFile "0xaa" {[ nodeA := mkNodeRewardsInfo 10 20 30 ["0x01"%string] ]}.
Definition tampered : RewardsFile :=
  mkRewardsFile "0xaa" {[ nodeA := mkNodeRewardsInfo 999 20 30 ["0x01"%string] ]}.

Definition world (stored : option RewardsFile) (served : bytes) : World :=
  {| cfg_Network := Network_Mainnet;
     Network_string := "mainnet";
     GetRewardsTreePath := fun _ _ => "~/.rocketpool/data/rewards-trees/rp-rewards-mainnet-7.json";
     GetPreviousRewardsPoolAddresses := [];
     RewardsTreeIpfsExtension := ".zst";
     PrimaryRewardsFileUrl := fun cid filename =>
       "https://" +:+ cid +:+ ".ipfs.example/" +:+ filename;
     SecondaryRewardsFileUrl := fun cid filename =>
       "https://ipfs.example/ipfs/" +:+ cid +:+ "/" +:+ filename;
     GithubRewardsFileUrl := fun network filename =>
       "https://github.example/rewards-trees/" +:+ network +:+ "/" +:+ filename;
     praterPrehistoryIntervalEvents := fun _ => zeroEvent;
     NewRewardsPool := Ok tt;
     GetRewardsEvent := fun _ _ _ => Ok (true, event);
     homedir_Expand := fun path => Ok ("/home/rp" +:+ path);
     filepath_Base := fun _ => "rp-rewards-mainnet-7.json";
     os_Stat := fun _ => match stored with Some _ => StatOk | None => StatNotExist end;
     os_ReadFile := fun _ => Ok [x7b; x7d];
     os_WriteFile := fun _ _ => None;
     json_Unmarshal := fun _ =>
       match stored with
       | Some file => Ok file
       | None => Err (Errorf "unexpected end of JSON input" [])
       end;
     HexToHash := fun hex => if String.eqb hex "0xaa" then 170%N else 0%N;
     GetMerkleProof := fun _ => Ok [1%N];
     zstd_NewReader := None;
     zstd_DecodeAll := fun compressed => Ok compressed;
     http_Get := fun _ => Ok (200, "200 OK"%string, Ok served) |}.


End RewardsExample.

(** Mirrors that answer differently. *)
Module RewardsMirrors.
Import RewardsFiles.

Definition primaryUrl : string :=
  "https://bafy-interval-7.ipfs.example/rp-rewards-mainnet-7.json.zst".
Definition secondaryUrl : string :=
  "https://ipfs.example/ipfs/bafy-interval-7/rp-rewards-mainnet-7.json.zst".
Definition fallbackUrl : string :=
  "https://github.example/rewards-trees/mainnet/rp-rewards-mainnet-7.json".

(** The world of [RewardsExample] with no stored file, a decoder that
    strips a one-byte frame header, and the three mirrors answering as
    given. *)
Definition world (primary secondary fallback : result (Z * string * result bytes))
    : World :=
  let w := RewardsExample.world None [] in
  {| cfg_Network := cfg_Network w;
     Network_string := Network_string w;
     GetRewardsTreePath := GetRewardsTreePath w;
     GetPreviousRewardsPoolAddresses := GetPreviousRewardsPoolAddresses w;
     RewardsTreeIpfsExtension := RewardsTreeIpfsExtension w;
     PrimaryRewardsFileUrl := PrimaryRewardsFileUrl w;
     SecondaryRewardsFileUrl := SecondaryRewardsFileUrl w;
     GithubRewardsFileUrl := GithubRewardsFileUrl w;
     praterPrehistoryIntervalEvents := praterPrehistoryIntervalEvents w;
     NewRewardsPool := NewRewardsPool w;
     GetRewardsEvent := GetRewardsEvent w;
     homedir_Expand := homedir_Expand w;
     filepath_Base := filepath_Base w;
     os_Stat := os_Stat w;
     os_ReadFile := os_ReadFile w;
     os_WriteFile := os_WriteFile w;
     json_Unmarshal := json_Unmarshal w;
     HexToHash := HexToHash w;
     GetMerkleProof := GetMerkleProof w;
     zstd_NewReader := None;
     zstd_DecodeAll := fun compressed =>
       match compressed with
       | [] => Err (Errorf "unexpected EOF" [])
       | _ :: decompressed => Ok decompressed
       end;
     http_Get := fun url =>
       if String.eqb url primaryUrl then primary
       else if String.eqb url secondaryUrl then secondary
       else if String.eqb url fallbackUrl then fallback
       else Err (Errorf "no such host" []) |}.



End RewardsMirrors.

(* ================================================================== *)
(** * The lookups of a snapshot, read as lists of indices               *)
(* ================================================================== *)

Module Lookups.
Import State.

(** The indices, in increasing order, of the minipools that satisfy [P]. *)
Definition indicesWhere (P : NativeMinipoolDetails -> bool)
    (minipoolDetails : list NativeMinipoolDetails) : list nat :=
  List.filter
    (fun i => match minipoolDetails !! i with Some details => P details | None => false end)
    (seq 0 (length minipoolDetails)).

(** The minipools of a node, and the minipools at an address. *)
Definition indicesOfNode (node : Address) : list NativeMinipoolDetails -> list nat :=
  indicesWhere (fun details => N.eqb (mp_NodeAddress details) node).
Definition indicesAt (address : Address) : list NativeMinipoolDetails -> list nat :=
  indicesWhere (fun details => N.eqb (MinipoolAddress details) address).

(** The public keys that are not the empty key, in the order of the
    minipools. *)
Definition nonEmptyPubkeys (minipoolDetails : list NativeMinipoolDetails)
    : list ValidatorPubkey :=
  List.filter (fun pubkey => negb (N.eqb pubkey emptyPubkey))
              (List.map Pubkey minipoolDetails).

End Lookups.

(** ** Variants of the small network *)

Module SmallNetworkVariants.
Import State SmallNetwork.

(** Node 3 stakes 500 RPL, has no minipool, and registered exactly one
    interval before the snapshot's slot time. *)
Definition node3 : NativeNodeDetails :=
  mkNode 3%N (500 * ether) (genesis + slot * 12 - 2419200).

(** Node 1, registered long before the snapshot. *)
Definition node1_veteran : NativeNodeDetails :=
  mkNode 1%N (100 * ether) (genesis - 3000000).


Definition veterans : NetworkState := stateWith [node1_veteran; node3].

End SmallNetworkVariants.

(* ================================================================== *)
(** * What a goroutine of getNetworkDetails touches                     *)
(* ================================================================== *)

Module Goroutines.
Import State.

(** The goroutine leaves the field [g] of the struct as it finds it. *)
Definition keeps (g : Field) (task : Task) : Prop :=
  forall nd, (task nd).1.2 g = nd g.

(** The goroutine never issues the read [name]. *)
Definition silentOn (name : string) (task : Task) : Prop :=
  forall nd, Forall (fun ev => ev_call ev <> name) (task nd).1.1.

(** The goroutine issues at least one read. *)
Definition reads (task : Task) : Prop :=
  forall nd, (1 <= length (task nd).1.1)%nat.

(** The reads that only an Atlas deployment has. *)
Definition atlasReads : list string :=
  [ "trustednode.GetPromotionScrubPeriod"; "trustednode.GetBondReductionWindowStart";
    "trustednode.GetBondReductionWindowLength"; "deposit.GetUserBalance" ]%string.

(** The fields of the network details that only an Atlas deployment
    fills. *)
Definition atlasFields : list Field :=
  [ PromotionScrubPeriod; BondReductionWindowStart; BondReductionWindowLength;
    DepositPoolUserBalance ].

End Goroutines.

(* ================================================================== *)
(** * The answers of one execution block                                *)
(* ================================================================== *)

Module BlockAnswers.
Import State.

Section AnswerAt.
Variable cfg : RocketPoolConfig.
Variable rp : RocketPool.
Variable opts : Z.
Variable isAtlasDeployed : bool.

(** The reward index a goroutine of [getNetworkDetails] can find in the
    struct: the zero value, or the index that [rewards.GetRewardIndex]
    answers at block [opts]. *)
Definition indexSeen (index : Z) : Prop :=
  index = 0 \/
  exists x, readBig rp "rewards.GetRewardIndex" opts = Ok x /\ index = big_Uint64 x.

Let big (name : string) (v : Value) : Prop :=
  rmap VBig (readBig rp name opts) = Ok v.
Let bigAsUint64 (name : string) (v : Value) : Prop :=
  rmap (fun x => VUint64 (big_Uint64 x)) (readBig rp name opts) = Ok v.
Let u64 (name : string) (v : Value) : Prop :=
  rmap VUint64 (readUint64 rp name opts) = Ok v.
Let f64 (name : string) (v : Value) : Prop :=
  rmap VFloat64 (readFloat64 rp name opts) = Ok v.
Let boolean (name : string) (v : Value) : Prop :=
  rmap VBool (readBool rp name opts) = Ok v.
Let seconds (name : string) (v : Value) : Prop :=
  rmap (fun x => VDuration (secondsToDuration x)) (readUint64 rp name opts) = Ok v.
Let atIndex (name : string) (v : Value) : Prop :=
  exists index, indexSeen index /\ rmap VBig (readBigAtIndex rp name index opts) = Ok v.
Let atlasOnly (f : Field) (answer : Value -> Prop) (v : Value) : Prop :=
  if isAtlasDeployed then answer v else v = zeroValue f.

(** The value [v] of field [f] of the network details is the answer, at
    execution block [opts], of the contract read that [getNetworkDetails]
    issues for this field. The four values of the rewards pool that are
    asked for a reward index are the answers for a reward index the
    goroutine can find in the struct; the smoothing pool balance is the
    balance of the address the smoothing pool contract has at that block;
    the four Atlas fields are read only with Atlas deployed and are left at
    their zero value otherwise. *)
Definition answerAt (f : Field) (v : Value) : Prop :=
  match f with
  | RplPrice => big "network.GetRPLPrice" v
  | MinCollateralFraction => big "protocol.GetMinimumPerMinipoolStakeRaw" v
  | MaxCollateralFraction => big "protocol.GetMaximumPerMinipoolStakeRaw" v
  | RewardIndex => bigAsUint64 "rewards.GetRewardIndex" v
  | IntervalDuration =>
      exists index,
        indexSeen index /\ rmap VDuration (GetClaimIntervalTime rp index opts) = Ok v
  | IntervalStart =>
      rmap VTime (readTime rp "rewards.GetClaimIntervalTimeStart" opts) = Ok v
  | NodeOperatorRewardsPercent => atIndex "GetNodeOperatorRewardsPercent" v
  | TrustedNodeOperatorRewardsPercent => atIndex "GetTrustedNodeOperatorRewardsPercent" v
  | ProtocolDaoRewardsPercent => atIndex "GetProtocolDaoRewardsPercent" v
  | PendingRPLRewards => atIndex "GetPendingRPLRewards" v
  | ScrubPeriod => seconds "trustednode.GetScrubPeriod" v
  | SmoothingPoolAddress =>
      rmap VAddress (GetContract rp "rocketSmoothingPool" opts) = Ok v
  | SmoothingPoolBalance =>
      exists address,
        GetContract rp "rocketSmoothingPool" opts = Ok address /\
        rmap VBig (Client_BalanceAt rp address opts) = Ok v
  | DepositPoolBalance => big "deposit.GetBalance" v
  | DepositPoolExcess => big "deposit.GetExcessBalance" v
  | QueueCapacity =>
      rmap (fun q => VQueueCapacity (fst q) (snd q)) (readQueueCapacity rp opts) = Ok v
  | RPLInflationIntervalRate => big "tokens.GetRPLInflationIntervalRate" v
  | RPLTotalSupply => big "tokens.GetRPLTotalSupply" v
  | PricesBlock => u64 "network.GetPricesBlock" v
  | LatestReportablePricesBlock => bigAsUint64 "network.GetLatestReportablePricesBlock" v
  | ETHUtilizationRate => f64 "network.GetETHUtilizationRate" v
  | StakingETHBalance => big "network.GetStakingETHBalance" v
  | RETHExchangeRate => f64 "tokens.GetRETHExchangeRate" v
  | TotalETHBalance => big "network.GetTotalETHBalance" v
  | RETHBalance => rmap VBig (Client_BalanceAt rp (GetRethAddress cfg) opts) = Ok v
  | TotalRETHSupply => big "tokens.GetRETHTotalSupply" v
  | TotalRPLStake => big "node.GetTotalRPLStake" v
  | NodeFee => f64 "network.GetNodeFee" v
  | BalancesBlock => big "network.GetBalancesBlockRaw" v
  | LatestReportableBalancesBlock => u64 "network.GetLatestReportableBalancesBlock" v
  | SubmitBalancesEnabled => boolean "protocol.GetSubmitBalancesEnabled" v
  | SubmitPricesEnabled => boolean "protocol.GetSubmitPricesEnabled" v
  | MinipoolLaunchTimeout => big "protocol.GetMinipoolLaunchTimeoutRaw" v
  | PromotionScrubPeriod =>
      atlasOnly PromotionScrubPeriod (seconds "trustednode.GetPromotionScrubPeriod") v
  | BondReductionWindowStart =>
      atlasOnly BondReductionWindowStart
        (seconds "trustednode.GetBondReductionWindowStart") v
  | BondReductionWindowLength =>
      atlasOnly BondReductionWindowLength
        (seconds "trustednode.GetBondReductionWindowLength") v
  | DepositPoolUserBalance =>
      atlasOnly DepositPoolUserBalance (big "deposit.GetUserBalance") v
  end.

(** A goroutine that returns nil leaves in field [f] the answer of the
    block, provided the reward index it found was one it can find. *)
Definition answers (f : Field) (task : Task) : Prop :=
  forall nd,
    indexSeen (getUint64 nd RewardIndex) ->
    (task nd).2 = None -> answerAt f ((task nd).1.2 f).

End AnswerAt.

End BlockAnswers.

(* ================================================================== *)
(** * The reduce-bonds task: selection and run                          *)
(* ================================================================== *)

Module ReduceBondsTask.
Import State ReduceBonds.

(** What [run] and [getReduceableMinipools] use besides the services of
    [reduceBond]: the wallet, the wait for the execution client, the state
    manager, the execution client (a header is kept by its [Time]), the
    reduce-bond-cancelled flag of a minipool, and the comparison
    [eth.WeiToEth(wei) == n] on [float64]. *)
Record Daemon : Type := mkDaemon {
  Reload : option error;
  WaitEthClientSynced : option error;
  GetLatestState : NetworkState;
  GetNodeAccount : result Address;
  HeaderByNumber : Z -> result Z;
  GetReduceBondCancelled : Address -> Z -> result bool;
  WeiToEth_is : Z -> Z -> bool
}.

(** [if err := f(...); err != nil { return err }] *)
Definition callErr (name : string) (err : option error) : Run unit :=
  match err with
  | Some e => ([mkEvent name true], Err e)
  | None => ([mkEvent name false], Ok tt)
  end.

(** Sequencing with a continuation that may panic (a nil dereference is
    [None]). *)
Definition andThen {A B} (m : Run A) (k : A -> option (Run B)) : option (Run B) :=
  match m with
  | (t, Ok a) => '(t', r) ← k a; Some (t ++ t', r)
  | (t, Err e) => Some (t, Err e)
  end.

(** The loop of [getReduceableMinipools] over the minipool pointers of the
    node; [reduceableMinipools] is the slice built so far. *)
Fixpoint getReduceableLoop (d : Daemon) (sv : Services) (s : NetworkState)
    (windowStart windowLength : Duration) (latestBlockTime : Time) (opts : Z)
    (pointers : list nat) (reduceableMinipools : list nat) : option (Run (list nat)) :=
  match pointers with
  | [] => Some (ret reduceableMinipools)
  | p :: rest =>
      mpd ← MinipoolDetails s !! p;
      andThen
        (orWrap "error getting reduce bond time for minipool %s: %w" []
           (call "minipool.GetReduceBondTime"
              (GetReduceBondTime sv (MinipoolAddress mpd) opts)))
        (fun reduceBondTime =>
      andThen
        (orWrap "error getting reduce bond cancelled for minipool %s: %w" []
           (call "minipool.GetReduceBondCancelled"
              (GetReduceBondCancelled d (MinipoolAddress mpd) opts)))
        (fun reduceBondCancelled =>
      let timeSinceReductionStart := Time_Sub latestBlockTime reduceBondTime in
      if WeiToEth_is d (NodeDepositBalance mpd) 16 &&
         (timeSinceReductionStart <? dur_add windowStart windowLength) &&
         negb reduceBondCancelled &&
         MinipoolStatus_eqb (Status mpd) Staking
      then
        if windowStart <? timeSinceReductionStart
        then getReduceableLoop d sv s windowStart windowLength latestBlockTime opts rest
               (reduceableMinipools ++ [p])
        else getReduceableLoop d sv s windowStart windowLength latestBlockTime opts rest
               reduceableMinipools
      else getReduceableLoop d sv s windowStart windowLength latestBlockTime opts rest
             reduceableMinipools))
  end.

Definition getReduceableMinipools (d : Daemon) (sv : Services) (s : NetworkState)
    (nodeAddress : Address) (windowStart windowLength : Duration)
    (latestBlockTime : Time) (opts : Z) : option (Run (list nat)) :=
  getReduceableLoop d sv s windowStart windowLength latestBlockTime opts
    (default [] (MinipoolDetailsByNode s !! nodeAddress)) [].

(** The loop of [run] over the reduceable minipools. *)
Fixpoint reduceLoop (t : reduceBonds) (sv : Services) (s : NetworkState)
    (windowStart windowLength : Duration) (latestBlockTime : Time) (opts : Z)
    (minipools : list nat) (successCount : Z) : option (Run Z) :=
  match minipools with
  | [] => Some (ret successCount)
  | p :: rest =>
      mp ← MinipoolDetails s !! p;
      andThen (reduceBond t sv mp windowStart windowLength latestBlockTime opts)
        (fun success =>
           reduceLoop t sv s windowStart windowLength latestBlockTime opts rest
             (if success then successCount + 1 else successCount))
  end.

(** [run]; the value of the run is the nil error, an error stands for
    [return err]. *)
Definition run (t : reduceBonds) (d : Daemon) (sv : Services) (isAtlasDeployed : bool)
    : option (Run unit) :=
  andThen (callErr "t.w.Reload" (Reload d)) (fun _ =>
  andThen (callErr "services.WaitEthClientSynced" (WaitEthClientSynced d)) (fun _ =>
  if negb isAtlasDeployed then Some (ret tt)
  else
    let s := GetLatestState d in
    let opts := ElBlockNumber s in
    andThen (call "t.w.GetNodeAccount" (GetNodeAccount d)) (fun nodeAccount =>
    nd ← NetworkDetails_ s;
    let windowStart := getDuration nd BondReductionWindowStart in
    let windowLength := getDuration nd BondReductionWindowLength in
    andThen
      (orWrap "can't get the latest block time: %w" []
         (call "t.rp.Client.HeaderByNumber" (HeaderByNumber d opts)))
      (fun latestEth1BlockTime =>
    let latestBlockTime := time_Unix (toInt64 latestEth1BlockTime) in
    selection ←
      getReduceableMinipools d sv s nodeAccount windowStart windowLength
        latestBlockTime opts;
    andThen selection (fun minipools =>
    if (length minipools =? 0)%nat then Some (ret tt)
    else
      loop ← reduceLoop t sv s windowStart windowLength latestBlockTime opts minipools 0;
      andThen loop (fun _ => Some (ret tt))))))).

(** A minipool pointer that [getReduceableMinipools] keeps: the minipool
    holds a 16 ETH deposit and is staking, its bond reduction was not
    cancelled, and the time since the reduction was requested lies inside
    the window. *)
Definition selectable (d : Daemon) (sv : Services) (s : NetworkState)
    (windowStart windowLength : Duration) (latestBlockTime : Time) (opts : Z)
    (p : nat) : bool :=
  match MinipoolDetails s !! p with
  | None => false
  | Some mpd =>
      match GetReduceBondTime sv (MinipoolAddress mpd) opts,
            GetReduceBondCancelled d (MinipoolAddress mpd) opts with
      | Ok reduceBondTime, Ok reduceBondCancelled =>
          WeiToEth_is d (NodeDepositBalance mpd) 16 &&
          MinipoolStatus_eqb (Status mpd) Staking &&
          negb reduceBondCancelled &&
          (windowStart <? Time_Sub latestBlockTime reduceBondTime) &&
          (Time_Sub latestBlockTime reduceBondTime <? dur_add windowStart windowLength)
      | _, _ => false
      end
  end.

(** The number of bond-reduction transactions a run sent. *)
Definition transactions (trace : list Event) : nat :=
  length (List.filter (fun ev => String.eqb (ev_call ev) "mpv3.ReduceBondAmount") trace).

End ReduceBondsTask.

(** The reduce-bonds task of node 2 of the small network: its two
    minipools have a bond reduction requested at [requested]; minipool 2 is
    staking, minipool 3 is not. *)
Module ReduceBondsTaskExample.
Import State ReduceBonds ReduceBondsTask.

Definition networkDetails : NetworkDetails :=
  setField BondReductionWindowStart (VDuration ReduceBondsExample.windowStart)
    (setField BondReductionWindowLength (VDuration ReduceBondsExample.windowLength)
       SmallNetwork.networkDetails).

Definition latestState : NetworkState :=
  {| IsAtlasDeployed := true;
     ElBlockNumber := 17000000;
     BeaconSlotNumber := SmallNetwork.slot;
     BeaconConfig := SmallNetwork.beaconConfig;
     NetworkDetails_ := Some networkDetails;
     NodeDetails := [SmallNetwork.node1; SmallNetwork.node2];
     NodeDetailsByAddress := {[ 1%N := NodeElem 0; 2%N := NodeElem 1 ]};
     details_var := None;
     MinipoolDetails :=
       [SmallNetwork.minipool1; SmallNetwork.minipool2; SmallNetwork.minipool3];
     MinipoolDetailsByAddress := {[ 101%N := 0%nat; 102%N := 1%nat; 103%N := 2%nat ]};
     MinipoolDetailsByNode := {[ 1%N := [0%nat]; 2%N := [1%nat; 2%nat] ]};
     ValidatorDetails := SmallNetwork.validators |}.

(** The latest block is [hours] hours after the request;
    [cancelledReads] tells whether the reads of the cancelled flag
    succeed. *)
Definition daemon (hours : Z) (cancelledReads : bool) : Daemon :=
  {| Reload := None;
     WaitEthClientSynced := None;
     GetLatestState := latestState;
     GetNodeAccount := Ok 2%N;
     HeaderByNumber := fun _ => Ok (1700000000 + hours * 3600);
     GetReduceBondCancelled := fun _ _ =>
       if cancelledReads then Ok false else Err (Errorf "execution reverted" []);
     WeiToEth_is := fun wei n => wei =? n * SmallNetwork.ether |}.

End ReduceBondsTaskExample.

(* ================================================================== *)
(** * The start slot of a rewards interval                              *)
(* ================================================================== *)

Module IntervalStart.
Import State RewardsFiles.

(** [beacon.BeaconHead], the field the search reads. *)
Record BeaconHead : Type := mkBeaconHead {
  Epoch : Z
}.

(** The Beacon client: the chain head, and whether a block exists at a
    slot (the block ID is the decimal numeral of the slot). *)
Record Client : Type := mkClient {
  GetBeaconHead : result BeaconHead;
  GetBeaconBlock : Z -> result (BeaconBlock * bool)
}.

(** How a call ends: it returns, it panics (an integer division by zero),
    or the model runs out of fuel. *)
Inductive Outcome (A : Type) : Type :=
  | Returns (a : A)
  | Panics
  | OutOfFuel.
Arguments Returns {A} a.
Arguments Panics {A}.
Arguments OutOfFuel {A}.

(** The loop [for currentEpoch <= head.Epoch], followed by the check of
    [found]. *)
Fixpoint scan (fuel : nat) (bc : Client) (slotsPerEpoch headEpoch : Z)
    (consensusStartBlock currentEpoch : Z) : Outcome (Z * option error) :=
  match fuel with
  | O => OutOfFuel
  | S fuel' =>
      if currentEpoch <=? headEpoch then
        match GetBeaconBlock bc consensusStartBlock with
        | Err err =>
            Returns (0, Some (Errorw "error getting EL data for BC slot %d: %w"
                                [consensusStartBlock] err))
        | Ok (_, exists_) =>
            if negb exists_ then
              let consensusStartBlock := wrap64 (consensusStartBlock + 1) in
              if slotsPerEpoch =? 0 then Panics
              else scan fuel' bc slotsPerEpoch headEpoch consensusStartBlock
                     (consensusStartBlock / slotsPerEpoch)
            else Returns (consensusStartBlock, None)
        end
      else
        Returns (0, Some (Errorf "scanned up to the chain head (Beacon block %d) but none of the blocks were found."
                            [consensusStartBlock]))
  end.

Definition GetStartSlotForInterval (fuel : nat) (previousIntervalEvent : RewardsEvent)
    (bc : Client) (beaconConfig : Eth2Config) : Outcome (Z * option error) :=
  match GetBeaconHead bc with
  | Err err => Returns (0, Some (Errorw "error getting Beacon chain head: %w" [] err))
  | Ok head =>
      match GetBeaconBlock bc (ConsensusBlock previousIntervalEvent) with
      | Err err =>
          Returns (0, Some (Errorw "error verifying block from previous interval: %w" [] err))
      | Ok (_, exists_) =>
          if negb exists_ then
            Returns (0, Some (Errorf "couldn't retrieve CL block from previous interval (slot %d); this likely means you checkpoint sync'd your Beacon Node and it has not backfilled to the previous interval yet so it cannot be used for tree generation"
                                [big_Uint64 (ConsensusBlock previousIntervalEvent)]))
          else if SlotsPerEpoch beaconConfig =? 0 then Panics
          else
            let previousEpoch :=
              big_Uint64 (ConsensusBlock previousIntervalEvent) / SlotsPerEpoch beaconConfig in
            let nextEpoch := wrap64 (previousEpoch + 1) in
            let consensusStartBlock := wrap64 (nextEpoch * SlotsPerEpoch beaconConfig) in
            let currentEpoch := consensusStartBlock / SlotsPerEpoch beaconConfig in
            scan fuel bc (SlotsPerEpoch beaconConfig) (Epoch head) consensusStartBlock
                 currentEpoch
      end
  end.

(** The first slot of the epoch after the one of the previous interval's
    last block. *)
Definition nextEpochStart (previousIntervalEvent : RewardsEvent) (beaconConfig : Eth2Config)
    : Z :=
  (big_Uint64 (ConsensusBlock previousIntervalEvent) / SlotsPerEpoch beaconConfig + 1)
  * SlotsPerEpoch beaconConfig.

(** The Beacon configuration and the chain head are in range: the epoch
    length is positive, the previous interval ended at or before the head's
    epoch, and the slots up to the end of the head's epoch fit in a
    [uint64]. *)
Record InRange (previousIntervalEvent : RewardsEvent) (beaconConfig : Eth2Config)
    (head : BeaconHead) : Prop := {
  range_epoch_length : 0 < SlotsPerEpoch beaconConfig;
  range_previous :
    big_Uint64 (ConsensusBlock previousIntervalEvent) / SlotsPerEpoch beaconConfig
      <= Epoch head;
  range_head : (Epoch head + 1) * SlotsPerEpoch beaconConfig < two64
}.

End IntervalStart.

(** A Beacon chain of 32-slot epochs whose head is in epoch 101; the
    previous interval ended at slot 3199 (epoch 99); the slots listed in
    [missing] have no block. *)
Module IntervalStartExample.
Import State RewardsFiles IntervalStart.

Definition previous : RewardsEvent :=
  mkRewardsEvent 6 (time_Unix 1687580800) (time_Unix 1690000000) 3199 169%N "bafy-interval-6".

Definition client (missing : list Z) : Client :=
  {| GetBeaconHead := Ok (mkBeaconHead 101);
     GetBeaconBlock := fun slot =>
       Ok (mkBeaconBlock (17000000 + slot), negb (existsb (Z.eqb slot) missing)) |}.

End IntervalStartExample.

(* ================================================================== *)
(** * The bond and fee of a minipool at a block                         *)
(* ================================================================== *)

Module BondHistory.

(** [rpstate.NativeMinipoolDetails], the fields
    [getMinipoolBondAndNodeFee] reads. *)
Record NativeMinipoolDetails : Type := mkDetails {
  NodeDepositBalance : Z;
  NodeFee : Z;
  LastBondReductionPrevValue : Z;
  LastBondReductionPrevNodeFee : Z;
  LastBondReductionTime : Z
}.

(** [getMinipoolBondAndNodeFee]. The package variable [zero] is threaded
    through: it is nil ([None]) until a call sets it. *)
Definition getMinipoolBondAndNodeFee (zero : option Z) (details : NativeMinipoolDetails)
    (blockTime : Time) : option Z * (Z * Z) :=
  let currentBond := NodeDepositBalance details in
  let currentFee := NodeFee details in
  let previousBond := LastBondReductionPrevValue details in
  let previousFee := LastBondReductionPrevNodeFee details in
  let zero := match zero with None => 0 | Some z => z end in
  let reductionTimeBig := LastBondReductionTime details in
  if big_Cmp reductionTimeBig zero =? 0 then (Some zero, (currentBond, currentFee))
  else
    let reductionTime := time_Unix (big_Int64 reductionTimeBig) in
    if 0 <? Time_Sub reductionTime blockTime then
      if big_Cmp previousFee zero =? 0 then (Some zero, (previousBond, currentFee))
      else (Some zero, (previousBond, previousFee))
    else (Some zero, (currentBond, currentFee)).

End BondHistory.

(** A minipool that migrated from a 16 ETH bond at 15% to an 8 ETH bond
    at 14% at time 1700000000. *)
Module BondHistoryExample.
Import BondHistory.

Definition reduced : NativeMinipoolDetails :=
  mkDetails (8 * SmallNetwork.ether) (14 * 10 ^ 16) (16 * SmallNetwork.ether)
            (15 * 10 ^ 16) 1700000000.

End BondHistoryExample.

(* ================================================================== *)
(** * The auction API: recovering unclaimed RPL from a lot              *)
(* ================================================================== *)

Module AuctionRecover.

(** [auction.AuctionLot.Details], the fields the check reads;
    [EndBlock] is kept by its [Formatted()] value. *)
Record LotDetails : Type := mkLotDetails {
  Exists : bool;
  EndBlock : Z;
  RemainingRplAmount : Z;
  RplRecovered : bool
}.

Definition zeroLotDetails : LotDetails := mkLotDetails false 0 0 false.

(** Transaction options and transaction info, kept abstract. *)
Definition TransactOpts : Type := N.
Definition TransactionInfo : Type := N.

(** [api.RecoverRPLFromLotResponse] *)
Record RecoverRPLFromLotResponse : Type := mkResponse {
  DoesNotExist : bool;
  BiddingNotEnded : bool;
  NoUnclaimedRPL : bool;
  RPLAlreadyRecovered : bool;
  CanRecover : bool;
  TxInfo : option TransactionInfo
}.

(** The services, the bindings and the clients the handler calls.
    [Query] is the multicall that fills [lot.Details]; [HeaderByNumber] is
    the call with a nil number, its header kept by its [Number]. *)
Record Services : Type := mkServices {
  RequireNodeWallet : option error;
  RequireRocketStorage : option error;
  GetWallet : option error;
  GetRocketPool : option error;
  NewAuctionLot : Z -> option error;
  NewProtocolDaoSettings : option error;
  Query : result LotDetails;
  HeaderByNumber : result Z;
  GetNodeAccountTransactor : result TransactOpts;
  RecoverUnclaimedRpl : TransactOpts -> result TransactionInfo
}.

(** [if err := f(...); err != nil { return nil, err }] *)
Definition require (name : string) (err : option error) : Run unit :=
  match err with
  | Some e => ([mkEvent name true], Err e)
  | None => ([mkEvent name false], Ok tt)
  end.

(** The first goroutine: the contract state. It leaves [lot.Details] as it
    was when the query fails. *)
Definition stateGoroutine (sv : Services) : list Event * LotDetails * option error :=
  match Query sv with
  | Err err =>
      ([mkEvent "rp.Query" true], zeroLotDetails,
       Some (Errorw "error getting contract state: %w" [] err))
  | Ok details => ([mkEvent "rp.Query" false], details, None)
  end.

(** The second goroutine: the current block. Its [return] is not guarded
    by the error check; [fmt.Errorf] with a nil operand for [%w] is the
    error [Errorf] with no wrapped error. *)
Definition blockGoroutine (sv : Services) : list Event * Z * option error :=
  match HeaderByNumber sv with
  | Ok number =>
      ([mkEvent "rp.Client.HeaderByNumber" false], big_Uint64 number,
       Some (Errorf "error getting current EL block header: %w" []))
  | Err err =>
      ([mkEvent "rp.Client.HeaderByNumber" true], 0,
       Some (Errorw "error getting current EL block header: %w" [] err))
  end.

(** [wg.Wait()] on the two goroutines: the first non-nil error in the
    order in which they return; [stateFirst] tells which one returns
    first. *)
Definition Wait (stateFirst : bool) (stateErr blockErr : option error) : option error :=
  if stateFirst
  then match stateErr with Some e => Some e | None => blockErr end
  else match blockErr with Some e => Some e | None => stateErr end.

Local Open Scope run_scope.

Definition recoverRplFromLot (sv : Services) (stateFirst : bool) (lotIndex : Z)
    : Run RecoverRPLFromLotResponse :=
  do _ <- require "services.RequireNodeWallet" (RequireNodeWallet sv);
  do _ <- require "services.RequireRocketStorage" (RequireRocketStorage sv);
  do _ <- require "services.GetWallet" (GetWallet sv);
  do _ <- require "services.GetRocketPool" (GetRocketPool sv);
  do _ <-
    orWrap "error creating lot %d binding: %w" [lotIndex]
      (require "auction.NewAuctionLot" (NewAuctionLot sv lotIndex));
  do _ <-
    orWrap "error creating pDAO settings binding: %w" []
      (require "settings.NewProtocolDaoSettings" (NewProtocolDaoSettings sv));
  let '(stateTrace, details, stateErr) := stateGoroutine sv in
  let '(blockTrace, currentBlock, blockErr) := blockGoroutine sv in
  let trace := if stateFirst then stateTrace ++ blockTrace else blockTrace ++ stateTrace in
  match Wait stateFirst stateErr blockErr with
  | Some err => (trace, Err err)
  | None =>
      let doesNotExist := negb (Exists details) in
      let biddingNotEnded := negb (EndBlock details <=? currentBlock) in
      let noUnclaimedRPL := big_Cmp (RemainingRplAmount details) 0 =? 0 in
      let rplAlreadyRecovered := RplRecovered details in
      let canRecover :=
        negb (doesNotExist || biddingNotEnded || noUnclaimedRPL || rplAlreadyRecovered) in
      let response :=
        mkResponse doesNotExist biddingNotEnded noUnclaimedRPL rplAlreadyRecovered
                   canRecover None in
      do _ <- ((trace, Ok tt) : Run unit);
      if canRecover then
        do opts <-
          orWrap "error getting node account transactor: %w" []
            (call "w.GetNodeAccountTransactor" (GetNodeAccountTransactor sv));
        do txInfo <-
          orWrap "error getting TX info for RecoverUnclaimedRpl: %w" []
            (call "lot.RecoverUnclaimedRpl" (RecoverUnclaimedRpl sv opts));
        ret (mkResponse doesNotExist biddingNotEnded noUnclaimedRPL rplAlreadyRecovered
                        canRecover (Some txInfo))
      else ret response
  end.

Local Close Scope run_scope.

End AuctionRecover.

(* ================================================================== *)
(** * The pDAO CLI: proposing a setting                                 *)
(* ================================================================== *)

Module ProposeSetting.

(** [api.PDAOCanProposeSettingResponse], the fields [proposeSetting]
    reads; the gas info is kept abstract. *)
Record CanProposeResponse : Type := mkCanPropose {
  CanPropose : bool;
  InsufficientRpl : bool;
  GasInfo : N;
  BlockNumber : Z;
  Pollard : string
}.

(** [api.PDAOProposeSettingResponse] *)
Record ProposeResponse : Type := mkProposeResponse {
  ProposalId : Z;
  TxHash : Hash
}.

(** The daemon client, the gas helper and the terminal. *)
Record Client : Type := mkClient {
  WithReady : option error;
  PDAOCanProposeSetting : string -> string -> result CanProposeResponse;
  AssignMaxFeeAndLimit : N -> bool -> option error;
  Confirm : string -> bool;
  PDAOProposeSetting : string -> string -> Z -> string -> result ProposeResponse;
  WaitForTransaction : Hash -> option error
}.

(** [if err := f(...); err != nil { return err }] *)
Definition step (name : string) (err : option error) : Run unit :=
  match err with
  | Some e => ([mkEvent name true], Err e)
  | None => ([mkEvent name false], Ok tt)
  end.

Local Open Scope run_scope.

(** [c.Bool("yes") || cliutils.Confirm(...)]: the prompt is shown only
    when the flag is not set. *)
Definition consent (rp : Client) (yes : bool) : Run bool :=
  if yes then ret true
  else ([mkEvent "cliutils.Confirm" false],
        Ok (Confirm rp "Are you sure you want to submit this proposal?")).

(** The body of [proposeSetting] after the client was obtained. *)
Definition proposeWith (rp : Client) (yes : bool) (setting value : string) : Run unit :=
  do canPropose <-
    call "rp.PDAOCanProposeSetting" (PDAOCanProposeSetting rp setting value);
  if negb (CanPropose canPropose) then ret tt
  else
    do _ <- step "gas.AssignMaxFeeAndLimit"
              (AssignMaxFeeAndLimit rp (GasInfo canPropose) yes);
    do agreed <- consent rp yes;
    if negb agreed then ret tt
    else
      do response <-
        call "rp.PDAOProposeSetting"
          (PDAOProposeSetting rp setting value (BlockNumber canPropose)
             (Pollard canPropose));
      do _ <- step "rp.WaitForTransaction" (WaitForTransaction rp (TxHash response));
      ret tt.

(** [proposeSetting]: [defer rp.Close()] runs when the function returns,
    on every path after the client was obtained. *)
Definition proposeSetting (rp : Client) (yes : bool) (setting value : string) : Run unit :=
  do _ <- step "rocketpool.NewClientFromCtx.WithReady" (WithReady rp);
  let '(trace, r) := proposeWith rp yes setting value in
  (trace ++ [mkEvent "rp.Close" false], r).

Local Close Scope run_scope.

(** Whether the run made the call [name]. *)
Definition calls (name : string) (m : Run unit) : bool :=
  existsb (fun ev => String.eqb (ev_call ev) name) (fst m).

End ProposeSetting.

(* ================================================================== *)
(** * The CLI client: calling the daemon's API                          *)
(* ================================================================== *)

Module ApiClient.

Definition SettingsFile : string := "user-settings.yml".
Definition APIContainerSuffix : string := "_api".
Definition APIBinPath : string := "/go/bin/rocketpool".

(** [rocketpool.Client], the fields [callAPI] reads and writes; the
    [float64] fees are kept by their bit patterns. *)
Record Client : Type := mkClient {
  configPath : string;
  daemonPath : string;
  maxFee : Z;
  maxPrioFee : Z;
  gasLimit : Z;
  customNonce : option Z;
  originalMaxFee : Z;
  originalMaxPrioFee : Z;
  originalGasLimit : Z;
  debugPrint : bool
}.

(** The libraries and the machine under the client: [strings.Fields],
    [shellescape.Quote], the verbs [%f] and [%d] of [fmt], [big.Int]'s
    [String], the project name of the loaded configuration, and the
    execution of a command line. *)
Record Host : Type := mkHost {
  strings_Fields : string -> list string;
  shellescape_Quote : string -> string;
  format_f : Z -> string;
  format_d : Z -> string;
  big_String : Z -> string;
  LoadConfig : result string;
  readOutput : string -> list byte * option error
}.

Definition GetGasSettings (c : Client) : Z * Z * Z :=
  (maxFee c, maxPrioFee c, gasLimit c).

Definition AssignGasSettings (c : Client) (maxFee' maxPrioFee' gasLimit' : Z) : Client :=
  {| configPath := configPath c;
     daemonPath := daemonPath c;
     maxFee := maxFee';
     maxPrioFee := maxPrioFee';
     gasLimit := gasLimit';
     customNonce := customNonce c;
     originalMaxFee := originalMaxFee c;
     originalMaxPrioFee := originalMaxPrioFee c;
     originalGasLimit := originalGasLimit c;
     debugPrint := debugPrint c |}.

Definition getAPIContainerName (h : Host) : result string :=
  match LoadConfig h with
  | Err err => Err err
  | Ok projectName =>
      if String.eqb projectName EmptyString
      then Err (Errorf "Rocket Pool docker project name not set" [])
      else Ok (projectName +:+ APIContainerSuffix)
  end.

Definition getGasOpts (h : Host) (c : Client) : string :=
  ("--maxFee " +:+ format_f h (maxFee c) +:+ " ")
  +:+ ("--maxPrioFee " +:+ format_f h (maxPrioFee c) +:+ " ")
  +:+ ("--gasLimit " +:+ format_d h (gasLimit c) +:+ " ").

Definition getCustomNonce (h : Host) (c : Client) : string :=
  match customNonce c with
  | Some nonce => "--nonce " +:+ big_String h nonce
  | None => EmptyString
  end.

(** The first half of [callAPI]: the sanitized arguments and the command
    line, or the error of the container name. *)
Definition apiCommand (h : Host) (c : Client) (args : string) (otherArgs : list string)
    : result string :=
  let sanitizedArgs := List.map (shellescape_Quote h) (strings_Fields h args) in
  let args := String.concat " " sanitizedArgs in
  let args :=
    fold_left (fun args arg => args +:+ " " +:+ shellescape_Quote h arg) otherArgs args in
  if String.eqb (daemonPath c) EmptyString then
    match getAPIContainerName h with
    | Err err => Err err
    | Ok containerName =>
        Ok ("docker exec " +:+ shellescape_Quote h containerName +:+ " "
            +:+ shellescape_Quote h APIBinPath +:+ " " +:+ getGasOpts h c +:+ " "
            +:+ getCustomNonce h c +:+ " api " +:+ args)
    end
  else
    Ok (daemonPath c +:+ " --settings "
        +:+ shellescape_Quote h (configPath c +:+ "/" +:+ SettingsFile) +:+ " "
        +:+ getGasOpts h c +:+ " " +:+ getCustomNonce h c +:+ " api " +:+ args).

(** [callAPI]: the client after the call, the output and the error. What
    [debugPrint] writes to the terminal is left out. *)
Definition callAPI (h : Host) (c : Client) (args : string) (otherArgs : list string)
    : Client * (list byte * option error) :=
  match apiCommand h c args otherArgs with
  | Err err => (c, ([], Some err))
  | Ok cmd =>
      let '(output, err) := readOutput h cmd in
      (AssignGasSettings c (originalMaxFee c) (originalMaxPrioFee c) (originalGasLimit c),
       (output, err))
  end.

(** A sequence of API calls on the same client, each with its arguments;
    the outputs and errors are collected. *)
Fixpoint callAll (h : Host) (c : Client) (calls : list (string * list string))
    : Client * list (list byte * option error) :=
  match calls with
  | [] => (c, [])
  | (args, otherArgs) :: rest =>
      let '(c, r) := callAPI h c args otherArgs in
      let '(c, rs) := callAll h c rest in
      (c, r :: rs)
  end.

(** Whether the command of an API call cannot be built: the client has no
    daemon path and the name of the API container is not resolved. *)
Definition unreachable (h : Host) (c : Client) : bool :=
  String.eqb (daemonPath c) EmptyString && is_Err (getAPIContainerName h).

End ApiClient.

(* ================================================================== *)
(** * The Nimbus client: integers in JSON                               *)
(* ================================================================== *)

Module Nimbus.

(** [encoding/json] on a string value: [json.Marshal] of a string and
    [json.Unmarshal] into a string. *)
Record Json : Type := mkJson {
  json_Marshal : string -> result (list byte);
  json_Unmarshal : list byte -> result string
}.

(** [strconv.Itoa]: the decimal numeral, with a minus sign for a negative
    number. *)
Definition strconv_Itoa (i : Z) : string :=
  DecimalString.NilEmpty.string_of_int (Z.to_int i).

(** [strconv.ParseUint(s, 10, 64)]: a non-empty sequence of decimal
    digits, without sign, of a value below 2^64. *)
Definition strconv_ParseUint (s : string) : result Z :=
  match s with
  | EmptyString => Err (Errorf "strconv.ParseUint: invalid syntax" [])
  | _ =>
      match DecimalString.NilEmpty.uint_of_string s with
      | None => Err (Errorf "strconv.ParseUint: invalid syntax" [])
      | Some digits =>
          if Z.of_uint digits <? two64 then Ok (Z.of_uint digits)
          else Err (Errorf "strconv.ParseUint: value out of range" [])
      end
  end.

(** [uinteger.MarshalJSON]; [int(i)] is the conversion to a 64-bit
    [int]. *)
Definition MarshalJSON (js : Json) (i : Z) : result (list byte) :=
  json_Marshal js (strconv_Itoa (toInt64 i)).

(** [uinteger.UnmarshalJSON]: the value stored in [*i], or the error. *)
Definition UnmarshalJSON (js : Json) (data : list byte) : result Z :=
  match json_Unmarshal js data with
  | Err err => Err err
  | Ok dataStr =>
      match strconv_ParseUint dataStr with
      | Err err => Err err
      | Ok value => Ok value
      end
  end.

(** [json.Unmarshal] gives back the string that [json.Marshal]
    encoded. *)
Definition Faithful (js : Json) : Prop :=
  forall s, exists data, json_Marshal js s = Ok data /\ json_Unmarshal js data = Ok s.

End Nimbus.

(** A JSON codec for strings that need no escaping: the bytes of the
    string between double quotes. *)
Module NimbusExample.
Import Nimbus.

Definition json : Json :=
  {| json_Marshal := fun s => Ok (x22 :: String.list_byte_of_string s ++ [x22]);
     json_Unmarshal := fun data =>
       match data with
       | x22 :: rest =>
           match last rest with
           | Some x22 => Ok (String.string_of_list_byte (removelast rest))
           | _ => Err (Errorf "invalid character" [])
           end
       | _ => Err (Errorf "invalid character" [])
       end |}.

End NimbusExample.

(** ** Two schedules of the goroutines of getNetworkDetails *)

Module Schedules.
Import State.

(** The goroutines take effect in the order they were started. *)
Definition startOrder : Scheduler := fun tasks => tasks.

(** The goroutine started fifth (the interval duration) takes effect
    before the one started fourth (the reward index); both are among the
    first [threadLimit] goroutines, which run concurrently. *)
Definition fifthBeforeFourth : Scheduler :=
  fun tasks =>
    match tasks with
    | t1 :: t2 :: t3 :: t4 :: t5 :: rest => t1 :: t2 :: t3 :: t5 :: t4 :: rest
    | _ => tasks
    end.

End Schedules.

(** The small network at reward index 7, with claim intervals whose
    length grows with the index: [index + 1] days. *)
Module IndexedNetwork.
Import State.

Definition day : Duration := 86400 * Second.

Definition rocketPool : RocketPool :=
  {| readBig := fun name opts =>
       if String.eqb name "rewards.GetRewardIndex" then Ok 7
       else readBig (SmallNetwork.rocketPool []) name opts;
     readUint64 := readUint64 (SmallNetwork.rocketPool []);
     readFloat64 := readFloat64 (SmallNetwork.rocketPool []);
     readBool := readBool (SmallNetwork.rocketPool []);
     readTime := readTime (SmallNetwork.rocketPool []);
     readQueueCapacity := readQueueCapacity (SmallNetwork.rocketPool []);
     readBigAtIndex := readBigAtIndex (SmallNetwork.rocketPool []);
     GetClaimIntervalTime := fun index _ => Ok ((index + 1) * day);
     GetContract := GetContract (SmallNetwork.rocketPool []);
     Client_BalanceAt := Client_BalanceAt (SmallNetwork.rocketPool []);
     IsAtlasDeployed_at := IsAtlasDeployed_at (SmallNetwork.rocketPool []);
     NewNetworkContracts := NewNetworkContracts (SmallNetwork.rocketPool []);
     GetAllNativeNodeDetails := GetAllNativeNodeDetails (SmallNetwork.rocketPool []);
     GetAllNativeMinipoolDetails := GetAllNativeMinipoolDetails (SmallNetwork.rocketPool []);
     CalculateCompleteMinipoolShares :=
       CalculateCompleteMinipoolShares (SmallNetwork.rocketPool []) |}.

End IndexedNetwork.

(* ================================================================== *)
(** * Properties                                                        *)
(* ================================================================== *)

(** ** Machine arithmetic *)

Lemma wrap64_small x : 0 <= x < two64 -> wrap64 x = x.
Proof. intros H. unfold wrap64. apply Z.mod_small. exact H. Qed.

Lemma big_Cmp_eq0 x y : (big_Cmp x y =? 0) = (x =? y).
Proof.
  unfold big_Cmp. rewrite (Z.eqb_compare x y).
  destruct (x ?= y); reflexivity.
Qed.

Lemma land_mask_testbit b j :
  0 <= j -> (Z.land b (Z.shiftl 1 j) =? Z.shiftl 1 j) = Z.testbit b j.
Proof.
  intros Hj. rewrite Z.shiftl_1_l.
  destruct (Z.testbit b j) eqn:Hb.
  - apply Z.eqb_eq. apply Z.bits_inj'. intros n Hn.
    rewrite Z.land_spec, Z.pow2_bits_eqb by lia.
    destruct (Z.eqb_spec j n) as [->|]; [rewrite Hb; reflexivity|].
    apply andb_false_r.
  - apply Z.eqb_neq. intros Heq.
    assert (Hbit : Z.testbit (Z.land b (2 ^ j)) j = true).
    { rewrite Heq, Z.pow2_bits_eqb by lia. apply Z.eqb_refl. }
    rewrite Z.land_spec, Hb in Hbit. discriminate.
Qed.

(** ** GetClaimStatus *)

Section ClaimStatus_facts.
Import ClaimStatusTracker.

Variable bitmap i currentIndex : Z.
Hypothesis Hi : 0 <= i.

(** What one pass over the positions [a, a + n) of a bucket appends. *)
Lemma bucketLoop_spec (n : nat) : forall a cs,
  0 <= a -> i * 256 + a + Z.of_nat n <= two64 ->
  let m := Z.max 0 (Z.min (Z.of_nat n) (currentIndex - (i * 256 + a))) in
  let bit := fun idx => Z.testbit bitmap (idx - i * 256) in
  bucketLoop bitmap i currentIndex (seqZ a (Z.of_nat n)) cs =
    mkClaimStatus
      (Claimed cs ++ List.filter bit (seqZ (i * 256 + a) m))
      (Unclaimed cs ++ List.filter (fun idx => negb (bit idx)) (seqZ (i * 256 + a) m)).
Proof.
  induction n as [|n IH]; intros a cs Ha Hb m bit.
  - subst m. rewrite (seqZ_nil a) by lia.
    replace (Z.max 0 _) with 0 by lia. rewrite seqZ_nil by lia.
    destruct cs; simpl. now rewrite !app_nil_r.
  - rewrite (seqZ_cons a) by lia. cbn [bucketLoop].
    rewrite wrap64_small by lia.
    destruct (Z.leb_spec currentIndex (i * 256 + a)) as [Hle|Hlt].
    + subst m. replace (Z.max 0 _) with 0 by lia. rewrite seqZ_nil by lia.
      destruct cs; simpl. now rewrite !app_nil_r.
    + replace (Z.pred (Z.of_nat (S n))) with (Z.of_nat n) by lia.
      rewrite big_Cmp_eq0, land_mask_testbit by lia.
      subst m. rewrite (seqZ_cons (i * 256 + a)) by lia.
      cbn [List.filter]. subst bit. cbn beta.
      replace (i * 256 + a - i * 256) with a by lia.
      destruct (Z.testbit bitmap a); cbn [negb];
        rewrite IH by lia; cbn [Claimed Unclaimed];
        rewrite <- ?app_assoc; cbn [app];
        repeat f_equal; lia.
Qed.

(** A whole bucket: the positions 0 .. 255. *)
Lemma bucketLoop_bucket cs :
  i * 256 + 256 <= two64 ->
  let m := Z.max 0 (Z.min 256 (currentIndex - i * 256)) in
  let bit := fun idx => Z.testbit bitmap (idx - i * 256) in
  bucketLoop bitmap i currentIndex (seqZ 0 256) cs =
    mkClaimStatus
      (Claimed cs ++ List.filter bit (seqZ (i * 256) m))
      (Unclaimed cs ++ List.filter (fun idx => negb (bit idx)) (seqZ (i * 256) m)).
Proof.
  intros Hb. pose proof (bucketLoop_spec 256%nat 0 cs) as H.
  change (Z.of_nat 256) with 256 in H.
  replace (i * 256 + 0) with (i * 256) in H by lia.
  apply H; lia.
Qed.

End ClaimStatus_facts.

Section ClaimStatus_buckets.
Import ClaimStatusTracker.

Variable rp : Chain.
Variable nodeAddress : Address.
Variable currentIndex : Z.
Hypothesis Hrange : 0 <= currentIndex < two64.

Let bucket := currentIndex / 256.
Let bucketBitmaps :=
  List.map (Storage_GetUint rp nodeAddress) (seqZ 0 (bucket + 1)).
Let step := fun cs i =>
  bucketLoop (nth (Z.to_nat i) bucketBitmaps 0) i currentIndex (seqZ 0 256) cs.

Lemma bucketBitmaps_nth k :
  0 <= k <= bucket ->
  nth (Z.to_nat k) bucketBitmaps 0 = Storage_GetUint rp nodeAddress k.
Proof.
  intros Hk. subst bucketBitmaps.
  rewrite (nth_indep _ 0 (Storage_GetUint rp nodeAddress 0)).
  2:{ rewrite length_map, length_seqZ. lia. }
  rewrite map_nth. f_equal.
  apply nth_lookup_Some with (d := 0).
  rewrite lookup_seqZ_lt by lia. f_equal. lia.
Qed.

Lemma filter_bucket_bits k m (f : bool -> bool) :
  0 <= k -> m <= 256 ->
  List.filter (fun idx => f (Z.testbit (Storage_GetUint rp nodeAddress k) (idx - k * 256)))
              (seqZ (k * 256) m) =
  List.filter (fun idx => f (isClaimed rp nodeAddress idx)) (seqZ (k * 256) m).
Proof.
  intros Hk Hm. apply List.filter_ext_in. intros idx Hin.
  apply list_elem_of_In, elem_of_seqZ in Hin.
  unfold isClaimed.
  replace (idx / 256) with k by (apply Z.div_unique with (r := idx - k * 256); lia).
  replace (idx mod 256) with (idx - k * 256)
    by (apply Z.mod_unique with (q := k); lia).
  reflexivity.
Qed.

(** After the buckets [0 .. k-1] every interval below [min (256 k)
    currentIndex] has been classified, in increasing order. *)
Lemma buckets_spec (k : nat) :
  Z.of_nat k <= bucket + 1 ->
  let upto := Z.min (Z.of_nat k * 256) currentIndex in
  fold_left step (seqZ 0 (Z.of_nat k)) (mkClaimStatus [] []) =
    mkClaimStatus
      (List.filter (isClaimed rp nodeAddress) (seqZ 0 upto))
      (List.filter (fun idx => negb (isClaimed rp nodeAddress idx)) (seqZ 0 upto)).
Proof.
  assert (Hb : bucket * 256 <= currentIndex < bucket * 256 + 256).
  { subst bucket. pose proof (Z.div_mod currentIndex 256).
    pose proof (Z.mod_pos_bound currentIndex 256). lia. }
  induction k as [|k IH]; intros Hk upto.
  - subst upto. rewrite !seqZ_nil by lia. reflexivity.
  - rewrite seqZ_S, fold_left_app, IH by lia. cbn [fold_left].
    unfold step at 1. rewrite bucketBitmaps_nth by lia.
    rewrite bucketLoop_bucket by (unfold two64 in *; lia).
    cbn [Claimed Unclaimed]. cbn zeta.
    replace (0 + Z.of_nat k) with (Z.of_nat k) by lia.
    set (m := Z.max 0 (Z.min 256 (currentIndex - Z.of_nat k * 256))).
    assert (Hm : 0 <= m <= 256) by (subst m; lia).
    pose proof (filter_bucket_bits (Z.of_nat k) m (fun b => b) ltac:(lia) ltac:(lia)) as Hc.
    pose proof (filter_bucket_bits (Z.of_nat k) m negb ltac:(lia) ltac:(lia)) as Hu.
    cbn beta in Hc, Hu.
    rewrite Hc, Hu.
    replace (Z.min (Z.of_nat k * 256) currentIndex) with (Z.of_nat k * 256) by lia.
    subst upto.
    replace (Z.min (Z.of_nat (S k) * 256) currentIndex) with (Z.of_nat k * 256 + m)
      by (subst m; lia).
    rewrite (seqZ_app 0) by lia.
    rewrite !List.filter_app. reflexivity.
Qed.

End ClaimStatus_buckets.

Section ClaimStatus_main.
Import ClaimStatusTracker.

(** C4. When the bitmap query succeeds, [GetClaimStatus] returns the
    intervals [0 .. currentIndex-1] split by their claim bit (bit
    [index mod 256] of the bitmap of bucket [index / 256]): [Claimed] lists,
    in increasing order, exactly the intervals whose bit is set, [Unclaimed]
    exactly those whose bit is clear, so every interval below [currentIndex]
    is in exactly one of the two lists and no other index is in either. *)
Theorem GetClaimStatus_partitions (rp : Chain) (nodeAddress : Address) (currentIndex : Z) :
  0 <= currentIndex < two64 ->
  Query_err rp = None ->
  exists cs,
    GetClaimStatus rp nodeAddress currentIndex = (Some cs, None) /\
    Claimed cs = List.filter (isClaimed rp nodeAddress) (seqZ 0 currentIndex) /\
    Unclaimed cs =
      List.filter (fun idx => negb (isClaimed rp nodeAddress idx)) (seqZ 0 currentIndex) /\
    (forall idx, In idx (Claimed cs) <->
       0 <= idx < currentIndex /\ isClaimed rp nodeAddress idx = true) /\
    (forall idx, In idx (Unclaimed cs) <->
       0 <= idx < currentIndex /\ isClaimed rp nodeAddress idx = false).
Proof.
  intros Hrange Hq.
  pose proof (Z.div_mod currentIndex 256 ltac:(lia)) as Hdm.
  pose proof (Z.mod_pos_bound currentIndex 256 ltac:(lia)) as Hmod.
  assert (Hbk : 0 <= currentIndex / 256) by (apply Z.div_pos; lia).
  eexists. split.
  - unfold GetClaimStatus. rewrite Hq.
    pose proof (buckets_spec rp nodeAddress currentIndex Hrange
                  (Z.to_nat (currentIndex / 256 + 1))) as H.
    rewrite Z2Nat.id in H by lia. cbv zeta in H |- *.
    rewrite H by lia. reflexivity.
  - cbn [Claimed Unclaimed].
    replace (Z.min _ currentIndex) with currentIndex by lia.
    split; [reflexivity|]. split; [reflexivity|].
    split; intros idx; rewrite List.filter_In, <- list_elem_of_In, elem_of_seqZ.
    + intuition lia.
    + rewrite negb_true_iff. intuition lia.
Qed.

(** The design document's example: bucket 0 = 0b101 and current index 3
    give claimed = {0, 2} and unclaimed = {1}. *)
Lemma GetClaimStatus_example :
  0 <= 3 < two64 /\
  GetClaimStatus ClaimStatusExample.chain 0%N 3 = (Some (mkClaimStatus [0; 2] [1]), None).
Proof.
  assert (Hr : 0 <= 3 < two64) by (unfold two64; lia).
  split; [exact Hr|].
  destruct (GetClaimStatus_partitions ClaimStatusExample.chain 0%N 3 Hr eq_refl)
    as (cs & Heq & Hc & Hu & _).
  rewrite Heq. destruct cs as [c u]. cbn [Claimed Unclaimed] in Hc, Hu.
  rewrite Hc, Hu. reflexivity.
Defined.

End ClaimStatus_main.

(** ** CalculateEffectiveStakes: eligible minipools *)

Section EligibleEth.
Import State.

Variable s : NetworkState.

Lemma addMinipool_skips_non_staking acc p mpd :
  MinipoolDetails s !! p = Some mpd ->
  Status mpd <> Staking ->
  addMinipool s acc p = Some acc.
Proof.
  intros Hp Hst. unfold addMinipool. rewrite Hp. cbn.
  destruct (Status mpd); try congruence; cbn; now rewrite andb_false_r.
Qed.

Lemma addMinipool_contribution epoch acc p mpd :
  intervalEndEpochOf s = Some epoch ->
  MinipoolDetails s !! p = Some mpd ->
  addMinipool s acc p =
    Some (fst acc + fst (contribution s epoch mpd),
          snd acc + snd (contribution s epoch mpd)).
Proof.
  intros He Hp. unfold addMinipool, contribution, eligible.
  rewrite Hp. cbn.
  destruct (Exists mpd && MinipoolStatus_eqb (Status mpd) Staking); cbn.
  2:{ destruct acc; cbn. f_equal. f_equal; lia. }
  destruct (ValidatorDetails s !! Pubkey mpd) as [v|]; cbn.
  2:{ destruct acc; cbn. f_equal. f_equal; lia. }
  rewrite He. cbn.
  rewrite (Z.leb_antisym epoch (ActivationEpoch v)).
  rewrite (Z.ltb_antisym (ExitEpoch v) epoch).
  destruct (epoch <? ActivationEpoch v); cbn.
  { destruct acc; cbn. f_equal. f_equal; lia. }
  destruct (ExitEpoch v <=? epoch); cbn.
  { destruct acc; cbn. f_equal. f_equal; lia. }
  reflexivity.
Qed.

Lemma eligibleEth_sum epoch mpds details :
  intervalEndEpochOf s = Some epoch ->
  Forall2 (fun p mpd => MinipoolDetails s !! p = Some mpd) mpds details ->
  forall acc,
  eligibleEth s mpds acc =
    Some (fst acc + sumZ (List.map (fun mpd => fst (contribution s epoch mpd)) details),
          snd acc + sumZ (List.map (fun mpd => snd (contribution s epoch mpd)) details)).
Proof.
  intros He Hall. induction Hall as [|p mpd ps ms Hp _ IH]; intros acc.
  - cbn. destruct acc; cbn. f_equal. f_equal; lia.
  - cbn [eligibleEth]. rewrite (addMinipool_contribution epoch acc p mpd He Hp).
    cbn [mbind option_bind]. rewrite IH.
    cbn [fst snd List.map]. unfold sumZ. cbn [fold_right]. f_equal. f_equal; lia.
Qed.

Lemma nodeGoroutine_returns_nil scale ivl slotTime node r :
  nodeGoroutine s scale ivl slotTime node = Some r -> snd r = None.
Proof.
  unfold nodeGoroutine. intros H.
  destruct (collateralBounds s node) as [[mn mx]|]; [cbn in H|discriminate].
  destruct (NetworkDetails_ s) as [nd|]; [cbn in H|discriminate].
  destruct (if scale then _ else _); [cbn in H|discriminate].
  now inversion H.
Qed.

Lemma firstError_all_nil {A} (results : list (A * option error)) :
  Forall (fun r => snd r = None) results -> firstError results = None.
Proof.
  intros Hall. unfold firstError.
  assert (Hnone : list_find (fun r : A * option error => is_Some (snd r)) results = None).
  { apply list_find_None. eapply Forall_impl; [exact Hall|].
    intros r Hr [e He]. cbn in *. congruence. }
  now rewrite Hnone.
Qed.

Lemma CalculateEffectiveStakes_error_nil scale r :
  CalculateEffectiveStakes s scale = Some r -> snd r = None.
Proof.
  unfold CalculateEffectiveStakes. intros H.
  destruct (NetworkDetails_ s) as [nd|]; [cbn in H|discriminate].
  destruct (mapM _ (NodeDetails s)) as [results|] eqn:Hm; [cbn in H|discriminate].
  apply mapM_Some in Hm.
  rewrite firstError_all_nil in H.
  - destruct (fold_left _ _ _) in H. now inversion H.
  - clear H. induction Hm as [|x y l k Hxy _ IH]; constructor; [|exact IH].
    eapply nodeGoroutine_returns_nil; exact Hxy.
Qed.

End EligibleEth.

(** ** CalculateEffectiveStakes: the stakes it returns *)

Section EffectiveStakes.
Import State.

Variable s : NetworkState.

Lemma pointers_resolve (ps : list nat) :
  Forall (fun p => is_Some (MinipoolDetails s !! p)) ps ->
  exists details, Forall2 (fun p mpd => MinipoolDetails s !! p = Some mpd) ps details.
Proof.
  induction 1 as [|p ps [mpd Hp] _ [details IH]].
  - exists []. constructor.
  - exists (mpd :: details). now constructor.
Qed.

Lemma intervalEndEpochOf_defined :
  SlotsPerEpoch (BeaconConfig s) <> 0 ->
  intervalEndEpochOf s =
    Some (BeaconSlotNumber s / SlotsPerEpoch (BeaconConfig s)).
Proof.
  intros H. unfold intervalEndEpochOf.
  destruct (Z.eqb_spec (SlotsPerEpoch (BeaconConfig s)) 0); [contradiction|reflexivity].
Qed.

Lemma big_Div_nonzero x y : y <> 0 -> exists q, big_Div x y = Some q.
Proof.
  intros H. unfold big_Div.
  destruct (Z.eqb_spec y 0); [contradiction|].
  destruct (0 <? y); eauto.
Qed.

Lemma collateralBounds_spec nd price minF maxF node :
  Usable s nd price minF maxF -> In node (NodeDetails s) ->
  exists details minCollateral maxCollateral,
    Forall2 (fun p mpd => MinipoolDetails s !! p = Some mpd)
            (default [] (MinipoolDetailsByNode s !! NodeAddress node)) details /\
    collateralBounds s node = Some (minCollateral, maxCollateral) /\
    let epoch := BeaconSlotNumber s / SlotsPerEpoch (BeaconConfig s) in
    big_Div (sumZ (List.map (fun mpd => fst (contribution s epoch mpd)) details) * minF)
            price = Some minCollateral /\
    big_Div (sumZ (List.map (fun mpd => snd (contribution s epoch mpd)) details) * maxF)
            price = Some maxCollateral.
Proof.
  intros U Hin.
  destruct (pointers_resolve _ (usable_pointers _ _ _ _ _ U node Hin)) as [details Hd].
  set (epoch := BeaconSlotNumber s / SlotsPerEpoch (BeaconConfig s)).
  destruct (big_Div_nonzero
              (sumZ (List.map (fun mpd => fst (contribution s epoch mpd)) details) * minF)
              price (usable_price_nonzero _ _ _ _ _ U)) as [q1 Hq1].
  destruct (big_Div_nonzero
              (sumZ (List.map (fun mpd => snd (contribution s epoch mpd)) details) * maxF)
              price (usable_price_nonzero _ _ _ _ _ U)) as [q2 Hq2].
  exists details, q1, q2. split; [exact Hd|]. split; [|split; assumption].
  unfold collateralBounds.
  rewrite (eligibleEth_sum s _ _ _ (intervalEndEpochOf_defined (usable_epoch _ _ _ _ _ U)) Hd).
  cbn [mbind option_bind fst snd]. rewrite !Z.add_0_l.
  rewrite (usable_details _ _ _ _ _ U). cbn [mbind option_bind].
  rewrite (usable_min _ _ _ _ _ U), (usable_price _ _ _ _ _ U). cbn [mbind option_bind].
  fold epoch. rewrite Hq1. cbn [mbind option_bind].
  rewrite (usable_max _ _ _ _ _ U). cbn [mbind option_bind].
  rewrite Hq2. reflexivity.
Qed.

Lemma collateralBounds_total nd price minF maxF node :
  Usable s nd price minF maxF -> In node (NodeDetails s) ->
  exists minCollateral maxCollateral,
    collateralBounds s node = Some (minCollateral, maxCollateral).
Proof.
  intros U Hin.
  destruct (collateralBounds_spec nd price minF maxF node U Hin)
    as (details & mn & mx & _ & Hb & _).
  eauto.
Qed.

(** Without participation scaling the goroutine stores the clamped stake. *)
Lemma nodeGoroutine_unscaled ivl slotTime nd node minCollateral maxCollateral :
  NetworkDetails_ s = Some nd ->
  collateralBounds s node = Some (minCollateral, maxCollateral) ->
  nodeGoroutine s false ivl slotTime node =
    Some (clampStake (RplStake node) minCollateral maxCollateral, None).
Proof.
  intros Hnd Hb. unfold nodeGoroutine. rewrite Hb. cbn [mbind option_bind].
  rewrite Hnd. reflexivity.
Qed.

(** The tally loop: every entry of the returned map is the stake some
    goroutine stored for a node with that address. *)
Lemma tally_lookup (f : NativeNodeDetails -> option (Z * option error)) nodes results :
  Forall2 (fun node r => f node = Some r) nodes results ->
  forall (stakes0 : gmap Address Z) total0 stakes total,
  fold_left
    (fun '(stakes, total) '(node, nodeStake) =>
       (<[NodeAddress node := nodeStake]> stakes, total + nodeStake))
    (zip nodes (List.map fst results)) (stakes0, total0) = (stakes, total) ->
  forall a v, stakes !! a = Some v ->
    stakes0 !! a = Some v \/
    exists node r, In node nodes /\ NodeAddress node = a /\ f node = Some r /\ fst r = v.
Proof.
  induction 1 as [|node r nodes results Hf _ IH]; intros m0 t0 m t Hfold a v Hl.
  - cbn in Hfold. inversion Hfold; subst. now left.
  - cbn in Hfold. destruct (IH _ _ _ _ Hfold a v Hl) as [H0|(n & r' & Hin & Ha & Hn & Hv)].
    + destruct (decide (NodeAddress node = a)) as [Heq|Hne].
      * rewrite Heq, lookup_insert_eq in H0. inversion H0; subst.
        right. exists node, r. repeat split; auto. now left.
      * rewrite lookup_insert_ne in H0 by exact Hne. now left.
    + right. exists n, r'. repeat split; auto. now right.
Qed.

(** The tally loop: the returned map has an entry for the address of
    every node. *)
Lemma tally_covers (f : NativeNodeDetails -> option (Z * option error)) nodes results :
  Forall2 (fun node r => f node = Some r) nodes results ->
  forall (stakes0 : gmap Address Z) total0 stakes total,
  fold_left
    (fun '(stakes, total) '(node, nodeStake) =>
       (<[NodeAddress node := nodeStake]> stakes, total + nodeStake))
    (zip nodes (List.map fst results)) (stakes0, total0) = (stakes, total) ->
  forall a,
    is_Some (stakes0 !! a) \/ (exists node, In node nodes /\ NodeAddress node = a) ->
    is_Some (stakes !! a).
Proof.
  induction 1 as [|node r nodes results Hf _ IH]; intros m0 t0 m t Hfold a Ha.
  - cbn in Hfold. inversion Hfold; subst.
    destruct Ha as [Ha|(node & [] & _)]. exact Ha.
  - cbn in Hfold. apply (IH _ _ _ _ Hfold a).
    destruct (decide (NodeAddress node = a)) as [Heq|Hne].
    + left. rewrite Heq, lookup_insert_eq. eauto.
    + rewrite lookup_insert_ne by exact Hne.
      destruct Ha as [Ha|(node' & [Hin|Hin] & Hadd)]; [now left|congruence|].
      right. eauto.
Qed.

End EffectiveStakes.

Section EffectiveStakes_result.
Import State.

Variable s : NetworkState.

(** When every goroutine runs to its end, [CalculateEffectiveStakes]
    returns the map and the total with a nil error, and each entry of the
    map is the stake stored by the goroutine of a node with that address. *)
Lemma CalculateEffectiveStakes_returns scale nd :
  NetworkDetails_ s = Some nd ->
  let ivl := Duration_Seconds_int64 (getDuration nd IntervalDuration) in
  (forall node, In node (NodeDetails s) ->
     is_Some (nodeGoroutine s scale ivl (slotTimeOf s) node)) ->
  exists stakes total,
    CalculateEffectiveStakes s scale = Some (Some stakes, Some total, None) /\
    (forall node, In node (NodeDetails s) -> is_Some (stakes !! NodeAddress node)) /\
    forall a v, stakes !! a = Some v ->
      exists node, In node (NodeDetails s) /\ NodeAddress node = a /\
        nodeGoroutine s scale ivl (slotTimeOf s) node = Some (v, None).
Proof.
  intros Hnd ivl Hall.
  assert (Hm : is_Some (mapM (nodeGoroutine s scale ivl (slotTimeOf s)) (NodeDetails s))).
  { apply mapM_is_Some, Forall_forall. intros node Hin.
    apply Hall. now apply list_elem_of_In. }
  destruct Hm as [results Hm].
  unfold CalculateEffectiveStakes. rewrite Hnd. cbn [mbind option_bind].
  fold ivl. rewrite Hm. cbn [mbind option_bind].
  apply mapM_Some in Hm.
  rewrite firstError_all_nil.
  2:{ clear -Hm. induction Hm as [|x y l k Hxy _ IH]; constructor; [|exact IH].
      eapply nodeGoroutine_returns_nil; exact Hxy. }
  destruct (fold_left _ _ _) as [stakes total] eqn:Hfold.
  exists stakes, total. split; [reflexivity|]. split.
  { intros node Hin. apply (tally_covers _ _ _ Hm _ _ _ _ Hfold). right. eauto. }
  intros a v Hl.
  destruct (tally_lookup _ _ _ Hm _ _ _ _ Hfold a v Hl) as [H0|(node & r & Hin & Ha & Hr & Hv)].
  - rewrite lookup_empty in H0. discriminate.
  - exists node. repeat split; auto.
    rewrite Hr. destruct r as [v' e]. cbn in Hv. subst v'.
    apply nodeGoroutine_returns_nil in Hr. cbn in Hr. now subst e.
Qed.

End EffectiveStakes_result.

Lemma clampStake_cases rplStake minCollateral maxCollateral :
  (rplStake < minCollateral ->
     State.clampStake rplStake minCollateral maxCollateral = 0) /\
  (minCollateral <= rplStake ->
     State.clampStake rplStake minCollateral maxCollateral = Z.min rplStake maxCollateral).
Proof.
  unfold State.clampStake, big_Cmp.
  destruct (Z.compare_spec rplStake minCollateral);
    destruct (Z.compare_spec rplStake maxCollateral); cbn; lia.
Qed.

Lemma SmallNetwork_usable :
  State.Usable SmallNetwork.state SmallNetwork.networkDetails
         (10 ^ 16) (10 ^ 17) (15 * 10 ^ 17).
Proof.
  split; try reflexivity.
  - discriminate.
  - discriminate.
  - intros node [<-|[<-|[]]]; repeat constructor; eexists; reflexivity.
Defined.

Lemma SmallNetwork_settled_usable :
  State.Usable SmallNetwork.settled SmallNetwork.networkDetails
         (10 ^ 16) (10 ^ 17) (15 * 10 ^ 17).
Proof.
  split; try reflexivity.
  - discriminate.
  - discriminate.
  - intros node [<-|[<-|[]]]; repeat constructor; eexists; reflexivity.
Defined.

Section EffectiveStakes_claims.
Import State.

Lemma eligible_spec (s : NetworkState) epoch mpd :
  eligible s epoch mpd = true <->
  Exists mpd = true /\ Status mpd = Staking /\
  exists validatorStatus,
    ValidatorDetails s !! Pubkey mpd = Some validatorStatus /\
    ActivationEpoch validatorStatus <= epoch /\
    epoch < ExitEpoch validatorStatus.
Proof.
  unfold eligible. split.
  - intros H. apply andb_true_iff in H as [H Hv].
    apply andb_true_iff in H as [He Hs].
    split; [exact He|]. split.
    { destruct (Status mpd); cbn in Hs; congruence. }
    destruct (ValidatorDetails s !! Pubkey mpd) as [v|]; [|discriminate].
    apply andb_true_iff in Hv as [Ha Hx].
    exists v. split; [reflexivity|]. split; lia.
  - intros (He & Hs & v & Hv & Ha & Hx).
    rewrite He, Hs, Hv. cbn.
    apply andb_true_iff. split; lia.
Qed.

Lemma contribution_filter (s : NetworkState) epoch details :
  sumZ (List.map (fun mpd => fst (contribution s epoch mpd)) details) =
    sumZ (List.map UserDepositBalance (List.filter (eligible s epoch) details)) /\
  sumZ (List.map (fun mpd => snd (contribution s epoch mpd)) details) =
    sumZ (List.map NodeDepositBalance (List.filter (eligible s epoch) details)).
Proof.
  induction details as [|mpd details [IH1 IH2]]; [split; reflexivity|].
  cbn [List.map List.filter]. unfold contribution at 1 3.
  destruct (eligible s epoch mpd); cbn [fst snd List.map];
    unfold sumZ in *; cbn [fold_right]; rewrite IH1, IH2; split; reflexivity.
Qed.

Lemma addMinipool_eligible (s : NetworkState) epoch acc p mpd :
  intervalEndEpochOf s = Some epoch ->
  MinipoolDetails s !! p = Some mpd ->
  addMinipool s acc p =
    Some (if eligible s epoch mpd
          then (fst acc + UserDepositBalance mpd, snd acc + NodeDepositBalance mpd)
          else acc).
Proof.
  intros He Hp. rewrite (addMinipool_contribution s epoch acc p mpd He Hp).
  unfold contribution. destruct (eligible s epoch mpd); cbn [fst snd]; [reflexivity|].
  destruct acc; cbn. f_equal. f_equal; lia.
Qed.

(** C3. A minipool adds its borrowed ([UserDepositBalance]) and bonded
    ([NodeDepositBalance]) amounts to the eligible totals of its node
    exactly when it is eligible: it exists, is staking, its public key has a
    validator status, the validator was activated at or before the
    interval's ending epoch and exits after it. On a usable snapshot: one
    pass of the loop adds the two amounts of an eligible minipool and leaves
    the totals alone for any other, in particular for every minipool that is
    not staking; for every node, the totals of the loop over its entry of
    [MinipoolDetailsByNode] are the sums over the eligible minipools of the
    entry, and the node's collateral bounds are these totals times the
    collateral fractions over the RPL price; the stake map that
    [CalculateEffectiveStakes] returns has an entry for every node, each
    entry being the RPL stake of a node with that address clamped by the
    bounds of its eligible minipools; and no minipool makes
    [CalculateEffectiveStakes] return a non-nil error. *)
Theorem eligible_minipools_contribute (s : NetworkState) (nd : NetworkDetails)
    (rplPrice minFraction maxFraction : Z) :
  Usable s nd rplPrice minFraction maxFraction ->
  let intervalEndEpoch := BeaconSlotNumber s / SlotsPerEpoch (BeaconConfig s) in
  (forall mpd,
     eligible s intervalEndEpoch mpd = true <->
     Exists mpd = true /\ Status mpd = Staking /\
     exists validatorStatus,
       ValidatorDetails s !! Pubkey mpd = Some validatorStatus /\
       ActivationEpoch validatorStatus <= intervalEndEpoch /\
       intervalEndEpoch < ExitEpoch validatorStatus) /\
  (forall p mpd eligibleBorrowedEth eligibleBondedEth,
     MinipoolDetails s !! p = Some mpd ->
     addMinipool s (eligibleBorrowedEth, eligibleBondedEth) p =
       Some (if eligible s intervalEndEpoch mpd
             then (eligibleBorrowedEth + UserDepositBalance mpd,
                   eligibleBondedEth + NodeDepositBalance mpd)
             else (eligibleBorrowedEth, eligibleBondedEth))) /\
  (forall p mpd acc,
     MinipoolDetails s !! p = Some mpd -> Status mpd <> Staking ->
     eligible s intervalEndEpoch mpd = false /\ addMinipool s acc p = Some acc) /\
  (forall node, In node (NodeDetails s) ->
     exists details,
       Forall2 (fun p mpd => MinipoolDetails s !! p = Some mpd)
               (default [] (MinipoolDetailsByNode s !! NodeAddress node)) details /\
       let counted := List.filter (eligible s intervalEndEpoch) details in
       let eligibleBorrowedEth := sumZ (List.map UserDepositBalance counted) in
       let eligibleBondedEth := sumZ (List.map NodeDepositBalance counted) in
       eligibleEth s (default [] (MinipoolDetailsByNode s !! NodeAddress node)) (0, 0) =
         Some (eligibleBorrowedEth, eligibleBondedEth) /\
       exists minCollateral maxCollateral,
         big_Div (eligibleBorrowedEth * minFraction) rplPrice = Some minCollateral /\
         big_Div (eligibleBondedEth * maxFraction) rplPrice = Some maxCollateral /\
         collateralBounds s node = Some (minCollateral, maxCollateral)) /\
  (exists stakes total,
     CalculateEffectiveStakes s false = Some (Some stakes, Some total, None) /\
     (forall node, In node (NodeDetails s) -> is_Some (stakes !! NodeAddress node)) /\
     forall a v, stakes !! a = Some v ->
       exists node details,
         In node (NodeDetails s) /\ NodeAddress node = a /\
         Forall2 (fun p mpd => MinipoolDetails s !! p = Some mpd)
                 (default [] (MinipoolDetailsByNode s !! a)) details /\
         let counted := List.filter (eligible s intervalEndEpoch) details in
         exists minCollateral maxCollateral,
           big_Div (sumZ (List.map UserDepositBalance counted) * minFraction) rplPrice =
             Some minCollateral /\
           big_Div (sumZ (List.map NodeDepositBalance counted) * maxFraction) rplPrice =
             Some maxCollateral /\
           v = clampStake (RplStake node) minCollateral maxCollateral) /\
  (forall scaleByParticipation stakes total err,
     CalculateEffectiveStakes s scaleByParticipation <> Some (stakes, total, Some err)).
Proof.
  intros U epoch.
  pose proof (intervalEndEpochOf_defined s (usable_epoch _ _ _ _ _ U)) as He.
  fold epoch in He.
  pose proof (usable_details _ _ _ _ _ U) as Hnd.
  split; [intros mpd; apply eligible_spec|].
  split; [intros p mpd b c Hp; exact (addMinipool_eligible s epoch (b, c) p mpd He Hp)|].
  split.
  { intros p mpd acc Hp Hst. split; [|now apply (addMinipool_skips_non_staking s acc p mpd)].
    unfold eligible. destruct (Status mpd); try congruence; cbn;
      now rewrite andb_false_r. }
  split.
  { intros node Hin.
    destruct (collateralBounds_spec s nd _ _ _ node U Hin)
      as (details & mn & mx & Hd & Hb & Hmin & Hmax).
    fold epoch in Hmin, Hmax.
    destruct (contribution_filter s epoch details) as [H1 H2].
    rewrite H1 in Hmin. rewrite H2 in Hmax.
    exists details. split; [exact Hd|]. cbv zeta. split.
    - rewrite (eligibleEth_sum s epoch _ details He Hd). cbn [fst snd].
      rewrite !Z.add_0_l, H1, H2. reflexivity.
    - exists mn, mx. auto. }
  split.
  { destruct (CalculateEffectiveStakes_returns s false nd Hnd)
      as (stakes & total & Hces & Hcov & Hmap).
    { intros node Hin.
      destruct (collateralBounds_total s nd _ _ _ node U Hin) as (mn & mx & Hb).
      rewrite (nodeGoroutine_unscaled s _ _ nd node mn mx Hnd Hb). eauto. }
    exists stakes, total. split; [exact Hces|]. split; [exact Hcov|].
    intros a v Hl. destruct (Hmap a v Hl) as (node & Hin & Ha & Hg).
    destruct (collateralBounds_spec s nd _ _ _ node U Hin)
      as (details & mn & mx & Hd & Hb & Hmin & Hmax).
    fold epoch in Hmin, Hmax.
    destruct (contribution_filter s epoch details) as [H1 H2].
    rewrite H1 in Hmin. rewrite H2 in Hmax.
    rewrite (nodeGoroutine_unscaled s _ _ nd node mn mx Hnd Hb) in Hg.
    injection Hg as Hv. subst v.
    exists node, details. rewrite <- Ha.
    split; [exact Hin|]. split; [reflexivity|]. split; [exact Hd|].
    cbv zeta. exists mn, mx. auto. }
  intros scale stakes total err H.
  apply CalculateEffectiveStakes_error_nil in H. discriminate.
Qed.

(** Node 2 of the small network: its staking minipool counts, its
    prelaunch minipool does not; the node stakes 1000 RPL, within its bounds
    of 160 and 2400 RPL. *)
Lemma eligible_minipools_small_network :
  eligible SmallNetwork.state 100 SmallNetwork.minipool2 = true /\
  eligible SmallNetwork.state 100 SmallNetwork.minipool3 = false /\
  eligibleEth SmallNetwork.state [1%nat; 2%nat] (0, 0) =
    Some (16 * SmallNetwork.ether, 16 * SmallNetwork.ether) /\
  collateralBounds SmallNetwork.state SmallNetwork.node2 =
    Some (160 * SmallNetwork.ether, 2400 * SmallNetwork.ether) /\
  exists stakes total,
    CalculateEffectiveStakes SmallNetwork.state false =
      Some (Some stakes, Some total, None) /\
    stakes !! NodeAddress SmallNetwork.node2 = Some (1000 * SmallNetwork.ether).
Proof.
  destruct (eligible_minipools_contribute SmallNetwork.state _ _ _ _ SmallNetwork_usable)
    as (Hiff & _ & Hskip & Hnode & (stakes & total & Hces & Hcov & Hmap) & _).
  split.
  { apply Hiff. split; [reflexivity|]. split; [reflexivity|].
    eexists. split; [reflexivity|]. vm_compute. split; [discriminate|reflexivity]. }
  split.
  { apply (Hskip 2%nat SmallNetwork.minipool3 (0, 0)); [reflexivity|discriminate]. }
  destruct (Hnode SmallNetwork.node2) as (details & Hd & Helig & mn & mx & Hmin & Hmax & Hb).
  { right; left; reflexivity. }
  change (default [] (MinipoolDetailsByNode SmallNetwork.state !! NodeAddress SmallNetwork.node2))
    with [1%nat; 2%nat] in Hd, Helig.
  inversion Hd as [|p1 m2 ps1 ds1 H1 Hd1]; subst.
  inversion Hd1 as [|p2 m3 ps2 ds2 H2 Hd2]; subst.
  inversion Hd2; subst.
  injection H1 as <-. injection H2 as <-.
  split; [rewrite Helig; reflexivity|].
  split.
  { rewrite Hb. vm_compute in Hmin, Hmax.
    injection Hmin as <-. injection Hmax as <-. reflexivity. }
  exists stakes, total. split; [exact Hces|].
  destruct (Hcov SmallNetwork.node2) as [v Hv]; [right; left; reflexivity|].
  rewrite Hv. f_equal.
  destruct (Hmap _ _ Hv) as (node & details & [<-|[<-|[]]] & Ha & Hd' & mn' & mx' & Hmin' & Hmax' & ->);
    [discriminate|].
  change (default [] (MinipoolDetailsByNode SmallNetwork.state !! NodeAddress SmallNetwork.node2))
    with [1%nat; 2%nat] in Hd'.
  inversion Hd' as [|p1' m2' ps1' ds1' H1' Hd1']; subst.
  inversion Hd1' as [|p2' m3' ps2' ds2' H2' Hd2']; subst.
  inversion Hd2'; subst.
  injection H1' as <-. injection H2' as <-.
  vm_compute in Hmin', Hmax'.
  injection Hmin' as <-. injection Hmax' as <-. reflexivity.
Defined.

End EffectiveStakes_claims.

Section Clamp_claims.
Import State.

(** C2, as stated, fails: node 1 of the small network has an eligible
    minipool (16 ETH borrowed, 16 ETH bonded), so its collateral bounds are
    160 RPL and 2400 RPL; it stakes 100 RPL, and the effective stake
    returned for it is 0, which is below [minCollateral]. *)
Lemma effective_stake_below_minCollateral :
  exists stakes total,
    CalculateEffectiveStakes SmallNetwork.state false =
      Some (Some stakes, Some total, None) /\
    eligibleEth SmallNetwork.state [0%nat] (0, 0) =
      Some (16 * SmallNetwork.ether, 16 * SmallNetwork.ether) /\
    collateralBounds SmallNetwork.state SmallNetwork.node1 =
      Some (160 * SmallNetwork.ether, 2400 * SmallNetwork.ether) /\
    stakes !! NodeAddress SmallNetwork.node1 = Some 0 /\
    ~ (160 * SmallNetwork.ether <= 0 <= 2400 * SmallNetwork.ether).
Proof.
  eexists _, _. split; [vm_compute; reflexivity|].
  split; [reflexivity|]. split; [reflexivity|]. split; [reflexivity|].
  vm_compute. intros [H _]. apply H. reflexivity.
Qed.

(** C2, amended. On a usable snapshot, [CalculateEffectiveStakes] without
    participation scaling returns a stake map, a total and a nil error; the
    map has an entry for every node, and every stake [v] in it is the
    clamped stake of a node with that address: 0 if the node's RPL stake is
    below [minCollateral]; otherwise the smaller of the RPL stake and
    [maxCollateral], so that [v <= maxCollateral], and [minCollateral <= v]
    whenever [minCollateral <= maxCollateral]. *)
Theorem effective_stake_clamped (s : NetworkState) nd rplPrice minFraction maxFraction :
  Usable s nd rplPrice minFraction maxFraction ->
  exists stakes total,
    CalculateEffectiveStakes s false = Some (Some stakes, Some total, None) /\
    (forall node, In node (NodeDetails s) -> is_Some (stakes !! NodeAddress node)) /\
    forall a v, stakes !! a = Some v ->
      ClampedStakeOf s rplPrice minFraction maxFraction a v.
Proof.
  intros U.
  pose proof (usable_details _ _ _ _ _ U) as Hnd.
  destruct (CalculateEffectiveStakes_returns s false nd Hnd)
    as (stakes & total & Hces & Hcov & Hmap).
  { intros node Hin.
    destruct (collateralBounds_total s nd _ _ _ node U Hin) as (mn & mx & Hb).
    rewrite (nodeGoroutine_unscaled s _ _ nd node mn mx Hnd Hb). eauto. }
  exists stakes, total. split; [exact Hces|]. split; [exact Hcov|].
  intros a v Hl. destruct (Hmap a v Hl) as (node & Hin & Ha & Hg).
  destruct (collateralBounds_spec s nd _ _ _ node U Hin)
    as (details & mn & mx & Hd & Hb & Hmin & Hmax).
  rewrite (nodeGoroutine_unscaled s _ _ nd node mn mx Hnd Hb) in Hg.
  injection Hg as Hv. subst v.
  exists node, details, mn, mx. rewrite <- Ha.
  split; [exact Hin|]. split; [reflexivity|]. split; [exact Hd|].
  split; [split; assumption|]. split; [|split; [|split]].
  - intros Hlt. now apply clampStake_cases.
  - now apply clampStake_cases.
  - rewrite (proj2 (clampStake_cases (RplStake node) mn mx)) by assumption. lia.
  - intros Hmm.
    rewrite (proj2 (clampStake_cases (RplStake node) mn mx)) by assumption. lia.
Qed.

Lemma effective_stake_clamped_small_network :
  exists stakes total,
    CalculateEffectiveStakes SmallNetwork.state false =
      Some (Some stakes, Some total, None) /\
    (forall node, In node (NodeDetails SmallNetwork.state) ->
       is_Some (stakes !! NodeAddress node)) /\
    forall a v, stakes !! a = Some v ->
      ClampedStakeOf SmallNetwork.state (10 ^ 16) (10 ^ 17) (15 * 10 ^ 17) a v.
Proof.
  exact (effective_stake_clamped SmallNetwork.state _ _ _ _ SmallNetwork_usable).
Defined.

End Clamp_claims.

(** ** CalculateEffectiveStakes: participation scaling *)

Lemma toInt64_small x : minInt64 <= x <= maxInt64 -> toInt64 x = x.
Proof.
  unfold toInt64, minInt64, maxInt64, two64. intros H.
  rewrite Z.mod_small by lia. lia.
Qed.

Lemma Time_Sub_nonneg t u : u <= t -> 0 <= Time_Sub t u <= maxInt64.
Proof.
  unfold Time_Sub, minInt64, maxInt64. intros H. cbv zeta.
  destruct (Z.ltb_spec (t - u) (- 2 ^ 63)); [lia|].
  destruct (Z.ltb_spec (2 ^ 63 - 1) (t - u)); lia.
Qed.

Section Scaling.
Import State.

Lemma scaleStake_bounds nd slotTime node nodeStake k :
  0 <= nodeStake ->
  time_Unix (big_Int64 (RegistrationTime node)) <= slotTime ->
  getDuration nd IntervalDuration = k * Second ->
  exists v,
    scaleStake nd (Duration_Seconds_int64 (getDuration nd IntervalDuration))
               slotTime node nodeStake = Some v /\
    0 <= v <= nodeStake.
Proof.
  intros Hs Hreg Hk. unfold scaleStake. cbv zeta.
  set (eD := Time_Sub slotTime (time_Unix (big_Int64 (RegistrationTime node)))).
  assert (HeD : 0 <= eD <= maxInt64) by (apply Time_Sub_nonneg; exact Hreg).
  rewrite Hk. unfold Duration_Seconds_int64.
  assert (Hsec : Second = 1000000000) by reflexivity.
  destruct (Z.ltb_spec eD (k * Second)) as [Hlt|Hge]; [|exists nodeStake; split; [reflexivity|lia]].
  rewrite Z.quot_mul by lia.
  unfold dur_div.
  assert (Hq : 0 <= Z.quot eD Second < k).
  { rewrite Z.quot_div_nonneg by lia. split.
    - apply Z.div_pos; lia.
    - apply Z.div_lt_upper_bound; lia. }
  assert (Hq' : Z.quot eD Second <= maxInt64).
  { rewrite Z.quot_div_nonneg by lia.
    apply Z.le_trans with eD; [|lia].
    apply Z.div_le_upper_bound; lia. }
  rewrite !(toInt64_small (Z.quot eD Second)) by (unfold minInt64, maxInt64 in *; lia).
  unfold big_Div.
  destruct (Z.eqb_spec k 0); [lia|].
  destruct (Z.ltb_spec 0 k); [|lia].
  eexists. split; [reflexivity|]. split.
  - apply Z.div_pos; nia.
  - apply Z.div_le_upper_bound; nia.
Qed.

Lemma sumZ_nonneg (l : list Z) : Forall (fun x => 0 <= x) l -> 0 <= sumZ l.
Proof. unfold sumZ. induction 1; cbn [fold_right]; lia. Qed.

Lemma big_Div_nonneg x y q : 0 <= x -> 0 < y -> big_Div x y = Some q -> 0 <= q.
Proof.
  unfold big_Div. intros Hx Hy.
  destruct (Z.eqb_spec y 0); [lia|].
  destruct (Z.ltb_spec 0 y); [|lia].
  intros Hq. injection Hq as <-. apply Z.div_pos; lia.
Qed.

Lemma clampStake_nonneg rplStake minCollateral maxCollateral :
  0 <= rplStake -> 0 <= maxCollateral ->
  0 <= clampStake rplStake minCollateral maxCollateral.
Proof.
  intros Hs Hm. unfold clampStake, big_Cmp.
  destruct (rplStake ?= minCollateral); cbn; try lia;
    destruct (rplStake ?= maxCollateral); cbn; lia.
Qed.

End Scaling.

Section Scaling_claims.
Import State.

Lemma bonded_nonneg (s : NetworkState) price minF maxF epoch ps details :
  Unsigned s price minF maxF ->
  Forall2 (fun p mpd => MinipoolDetails s !! p = Some mpd) ps details ->
  0 <= sumZ (List.map (fun mpd => snd (contribution s epoch mpd)) details).
Proof.
  intros Hu Hd. apply sumZ_nonneg.
  induction Hd as [|p mpd ps ds Hp _ IH]; cbn [List.map]; constructor; [|exact IH].
  unfold contribution. destruct (eligible s epoch mpd); cbn [snd]; [|lia].
  apply (unsigned_deposits _ _ _ _ Hu mpd).
  apply list_elem_of_In, list_elem_of_lookup. eauto.
Qed.

Lemma nodeGoroutine_bounds (s : NetworkState) scale nd price minF maxF k node :
  Usable s nd price minF maxF ->
  Unsigned s price minF maxF ->
  (scale = true ->
     getDuration nd IntervalDuration = k * Second /\ RegisteredBySlotTime s) ->
  In node (NodeDetails s) ->
  exists v minCollateral maxCollateral,
    collateralBounds s node = Some (minCollateral, maxCollateral) /\
    nodeGoroutine s scale (Duration_Seconds_int64 (getDuration nd IntervalDuration))
                  (slotTimeOf s) node = Some (v, None) /\
    0 <= v <= clampStake (RplStake node) minCollateral maxCollateral.
Proof.
  intros U Hu Hscale Hin.
  destruct (collateralBounds_spec s nd _ _ _ node U Hin)
    as (details & mn & mx & Hd & Hb & Hmin & Hmax).
  assert (Hmx : 0 <= mx).
  { eapply big_Div_nonneg; [|exact (unsigned_price _ _ _ _ Hu)|exact Hmax].
    apply Z.mul_nonneg_nonneg; [|exact (unsigned_max _ _ _ _ Hu)].
    eapply bonded_nonneg; eassumption. }
  pose proof (clampStake_nonneg (RplStake node) mn mx
                (unsigned_stake _ _ _ _ Hu node Hin) Hmx) as Hclamp.
  unfold nodeGoroutine. rewrite Hb. cbn [mbind option_bind].
  rewrite (usable_details _ _ _ _ _ U). cbn [mbind option_bind].
  destruct scale.
  - destruct (Hscale eq_refl) as [Hk Hreg].
    destruct (scaleStake_bounds nd (slotTimeOf s) node _ k Hclamp (Hreg node Hin) Hk)
      as (v & Hv & Hbound).
    rewrite Hv. cbn [mbind option_bind]. exists v, mn, mx. auto.
  - cbn [mbind option_bind]. eexists _, mn, mx. split; [reflexivity|].
    split; [reflexivity|]. lia.
Qed.

(** C10, as stated, fails: node 2 of the small network registered after
    the snapshot's slot time; with participation scaling its effective
    stake is -1000 RPL. *)
Lemma scaled_stake_negative :
  exists stakes total,
    CalculateEffectiveStakes SmallNetwork.state true =
      Some (Some stakes, Some total, None) /\
    slotTimeOf SmallNetwork.state <
      time_Unix (big_Int64 (RegistrationTime SmallNetwork.node2)) /\
    stakes !! NodeAddress SmallNetwork.node2 = Some (- (1000 * SmallNetwork.ether)) /\
    - (1000 * SmallNetwork.ether) < 0.
Proof.
  eexists _, _. split; [vm_compute; reflexivity|].
  split; [reflexivity|]. split; reflexivity.
Qed.

(** C10, amended. On a usable snapshot whose amounts are unsigned,
    [CalculateEffectiveStakes] returns a stake map, a total and a nil error;
    the map has an entry for every node, and every stake in it is
    non-negative and at most the unscaled clamped stake of a node with that
    address, provided that, when [scaleByParticipation] is true, the
    interval lasts a whole number of seconds and no node registered after
    the snapshot's slot time. *)
Theorem effective_stake_nonnegative (s : NetworkState) (scaleByParticipation : bool)
    nd rplPrice minFraction maxFraction k :
  Usable s nd rplPrice minFraction maxFraction ->
  Unsigned s rplPrice minFraction maxFraction ->
  (scaleByParticipation = true ->
     getDuration nd IntervalDuration = k * Second /\ RegisteredBySlotTime s) ->
  exists stakes total,
    CalculateEffectiveStakes s scaleByParticipation =
      Some (Some stakes, Some total, None) /\
    (forall node, In node (NodeDetails s) -> is_Some (stakes !! NodeAddress node)) /\
    forall a v, stakes !! a = Some v ->
      exists node minCollateral maxCollateral,
        In node (NodeDetails s) /\ NodeAddress node = a /\
        collateralBounds s node = Some (minCollateral, maxCollateral) /\
        0 <= v <= clampStake (RplStake node) minCollateral maxCollateral.
Proof.
  intros U Hu Hscale.
  pose proof (usable_details _ _ _ _ _ U) as Hnd.
  destruct (CalculateEffectiveStakes_returns s scaleByParticipation nd Hnd)
    as (stakes & total & Hces & Hcov & Hmap).
  { intros node Hin.
    destruct (nodeGoroutine_bounds s scaleByParticipation nd _ _ _ k node U Hu Hscale Hin)
      as (v & mn & mx & _ & Hg & _).
    rewrite Hg. eauto. }
  exists stakes, total. split; [exact Hces|]. split; [exact Hcov|].
  intros a v Hl. destruct (Hmap a v Hl) as (node & Hin & Ha & Hg).
  destruct (nodeGoroutine_bounds s scaleByParticipation nd _ _ _ k node U Hu Hscale Hin)
    as (v' & mn & mx & Hb & Hg' & Hbound).
  rewrite Hg in Hg'. injection Hg' as <-.
  exists node, mn, mx. auto.
Qed.

(** The settled small network, with participation scaling: node 2 has
    been registered for half the interval. *)
Lemma effective_stake_nonnegative_settled :
  exists stakes total,
    CalculateEffectiveStakes SmallNetwork.settled true =
      Some (Some stakes, Some total, None) /\
    (forall node, In node (NodeDetails SmallNetwork.settled) ->
       is_Some (stakes !! NodeAddress node)) /\
    forall a v, stakes !! a = Some v ->
      exists node minCollateral maxCollateral,
        In node (NodeDetails SmallNetwork.settled) /\ NodeAddress node = a /\
        collateralBounds SmallNetwork.settled node = Some (minCollateral, maxCollateral) /\
        0 <= v <= clampStake (RplStake node) minCollateral maxCollateral.
Proof.
  apply (effective_stake_nonnegative SmallNetwork.settled true
           SmallNetwork.networkDetails (10 ^ 16) (10 ^ 17) (15 * 10 ^ 17) 2419200
           SmallNetwork_settled_usable).
  - split.
    + reflexivity.
    + discriminate.
    + discriminate.
    + intros node [<-|[<-|[]]]; discriminate.
    + intros mpd [<-|[<-|[<-|[]]]]; split; discriminate.
  - intros _. split; [reflexivity|].
    intros node [<-|[<-|[]]]; discriminate.
Defined.

End Scaling_claims.

(** ** CreateNetworkState: failed reads *)

Lemma clean_ret {A} (a : A) : clean (ret a).
Proof. intros ? _. constructor. Qed.

Lemma clean_fail {A} (e : error) : clean (@fail A e).
Proof. intros ? H. discriminate H. Qed.

Lemma clean_call {A} name (r : result A) : clean (call name r).
Proof.
  intros a H. cbn in *. subst r. repeat constructor.
Qed.

Lemma clean_orWrap {A} format args (m : Run A) : clean m -> clean (orWrap format args m).
Proof.
  intros Hm a H. destruct m as [t [x|e]]; cbn in *; [|discriminate].
  exact (Hm a H).
Qed.

Lemma clean_bind {A B} (m : Run A) (k : A -> Run B) :
  clean m -> (forall a, clean (k a)) -> clean (bind m k).
Proof.
  intros Hm Hk b H. destruct m as [t [a|e]]; cbn in *; [|discriminate].
  specialize (Hk a). destruct (k a) as [t' r]. cbn in *.
  apply Forall_app. split; [exact (Hm a eq_refl)|exact (Hk b H)].
Qed.

Section CreateNetworkState_reads.
Import State.

Lemma assign_clean f name read mkErr : cleanTask (assign f name read mkErr).
Proof.
  intros nd. unfold assign. destruct (read nd); cbn; [|discriminate].
  intros _. repeat constructor.
Qed.

Lemma fetch_clean f name read mkErr : cleanTask (fetch f name read mkErr).
Proof.
  intros nd. unfold fetch. destruct (read nd); cbn; [|discriminate].
  intros _. repeat constructor.
Qed.

Lemma smoothingPoolTask_clean rp opts : cleanTask (smoothingPoolTask rp opts).
Proof.
  intros nd. unfold smoothingPoolTask.
  destruct (GetContract rp _ opts); cbn; [|discriminate].
  destruct (Client_BalanceAt rp _ opts); cbn; [|discriminate].
  intros _. repeat constructor.
Qed.

Lemma networkDetailsTasks_clean cfg rp opts isAtlasDeployed :
  Forall cleanTask (networkDetailsTasks cfg rp opts isAtlasDeployed).
Proof.
  unfold networkDetailsTasks. apply Forall_app. split.
  - repeat (constructor;
            [first [apply assign_clean | apply fetch_clean | apply smoothingPoolTask_clean]|]).
    constructor.
  - destruct isAtlasDeployed;
      repeat (constructor; [first [apply assign_clean | apply fetch_clean]|]);
      constructor.
Qed.

Lemma errgroup_Wait_clean tasks :
  Forall cleanTask tasks ->
  forall nd, snd (errgroup_Wait tasks nd) = None ->
    Forall (fun ev => ev_failed ev = false) (fst (fst (errgroup_Wait tasks nd))).
Proof.
  induction 1 as [|task rest Ht _ IH]; intros nd; cbn [errgroup_Wait].
  - intros _. constructor.
  - specialize (Ht nd). destruct (task nd) as [[t1 nd1] e1].
    specialize (IH nd1). destruct (errgroup_Wait rest nd1) as [[t2 nd2] e2].
    cbn in *. destruct e1; [discriminate|]. intros He2.
    apply Forall_app. split; [apply Ht; reflexivity|apply IH; exact He2].
Qed.

Lemma getNetworkDetails_clean (sched : Scheduler) cfg rp opts isAtlasDeployed :
  (forall tasks, Permutation (sched tasks) tasks) ->
  clean (getNetworkDetails sched cfg rp opts isAtlasDeployed).
Proof.
  intros Hperm nd. unfold getNetworkDetails.
  pose proof (errgroup_Wait_clean
                (sched (networkDetailsTasks cfg rp opts isAtlasDeployed))) as Hw.
  assert (Hall : Forall cleanTask (sched (networkDetailsTasks cfg rp opts isAtlasDeployed))).
  { apply Forall_forall. intros task Hin.
    pose proof (networkDetailsTasks_clean cfg rp opts isAtlasDeployed) as Hc.
    rewrite Forall_forall in Hc. apply Hc.
    apply list_elem_of_In. apply list_elem_of_In in Hin.
    eapply Permutation_in; [apply Hperm|exact Hin]. }
  specialize (Hw Hall zeroValue).
  destruct (errgroup_Wait _ zeroValue) as [[t nd'] e]. cbn in *.
  destruct e; cbn; [discriminate|]. intros _. apply Hw. reflexivity.
Qed.

Lemma CreateNetworkState_clean (sched : Scheduler) cfg rp bc slotNumber beaconConfig :
  (forall tasks, Permutation (sched tasks) tasks) ->
  clean (CreateNetworkState sched cfg rp bc slotNumber beaconConfig).
Proof.
  intros Hperm. unfold CreateNetworkState.
  apply clean_bind; [apply clean_orWrap, clean_call|]. intros [beaconBlock exists_].
  destruct (negb exists_); [apply clean_fail|].
  apply clean_bind; [apply clean_orWrap, clean_call|]. intros isAtlasDeployed.
  apply clean_bind; [apply clean_orWrap, clean_call|]. intros contracts.
  apply clean_bind; [apply clean_orWrap, getNetworkDetails_clean, Hperm|].
  intros networkDetails.
  apply clean_bind; [apply clean_orWrap, clean_call|]. intros nodeDetails.
  apply clean_bind; [apply clean_orWrap, clean_call|]. intros minipoolDetails.
  destruct (buildNodeLookup nodeDetails) as [var nodeDetailsByAddress].
  destruct (buildMinipoolLookups minipoolDetails) as [[byAddress pubkeys] byNode].
  apply clean_bind; [apply clean_call|]. intros statusMap.
  apply clean_bind; [apply clean_call|]. intros minipoolDetails'.
  apply clean_ret.
Qed.

(** C1. Whatever the order in which the goroutines of [getNetworkDetails]
    take effect, if any read issued while the snapshot is built fails, the
    caller of [CreateNetworkState] receives a nil snapshot and an error. *)
Theorem CreateNetworkState_no_partial_snapshot (sched : Scheduler) cfg rp bc
    slotNumber beaconConfig :
  (forall tasks, Permutation (sched tasks) tasks) ->
  existsb ev_failed
    (fst (CreateNetworkState sched cfg rp bc slotNumber beaconConfig)) = true ->
  exists err,
    returned (CreateNetworkState sched cfg rp bc slotNumber beaconConfig) =
      (None, Some err).
Proof.
  intros Hperm Hfailed.
  pose proof (CreateNetworkState_clean sched cfg rp bc slotNumber beaconConfig Hperm) as Hc.
  unfold returned.
  destruct (CreateNetworkState sched cfg rp bc slotNumber beaconConfig) as [t [st|e]];
    cbn in *; [|eauto].
  specialize (Hc st eq_refl). exfalso.
  apply existsb_exists in Hfailed. destruct Hfailed as (ev & Hin & Hev).
  rewrite Forall_forall in Hc. apply list_elem_of_In in Hin.
  specialize (Hc ev Hin). congruence.
Qed.

(** The small network with the read of the total RPL supply failing. *)
Lemma CreateNetworkState_supply_read_fails :
  exists err,
    returned (CreateNetworkState SmallNetwork.inOrder SmallNetwork.cfg
                (SmallNetwork.rocketPool ["tokens.GetRPLTotalSupply"%string])
                SmallNetwork.beaconClient SmallNetwork.slot SmallNetwork.beaconConfig) =
      (None, Some err).
Proof.
  apply CreateNetworkState_no_partial_snapshot.
  - intros tasks. apply Permutation_refl.
  - vm_compute. reflexivity.
Defined.

End CreateNetworkState_reads.

(** ** CreateNetworkState: the node lookup *)

Section NodeLookup.
Import State.

(** Every entry of the node lookup is the address of the range variable,
    which holds the last node of the slice once the loop is over. *)
Lemma buildNodeLookup_spec (nodeDetails : list NativeNodeDetails) :
  fst (buildNodeLookup nodeDetails) = last nodeDetails /\
  forall a p, snd (buildNodeLookup nodeDetails) !! a = Some p -> p = RangeVar_details.
Proof.
  unfold buildNodeLookup.
  induction nodeDetails as [|details rest IH] using rev_ind.
  - cbn. split; [reflexivity|]. intros a p H. rewrite lookup_empty in H. discriminate.
  - rewrite fold_left_app. cbn [fold_left].
    destruct (fold_left _ rest (None, ∅)) as [var lookup]. cbn [fst snd] in *.
    split; [now rewrite last_snoc|].
    intros a p H. destruct IH as [_ IH].
    destruct (decide (NodeAddress details = a)) as [Heq|Hne].
    + rewrite Heq, lookup_insert_eq in H. congruence.
    + rewrite lookup_insert_ne in H by exact Hne. eauto.
Qed.

(** C9, on the small network (nodes 1 and 2, every read succeeding):
    [CreateNetworkState] returns a snapshot whose [NodeDetails[0]] is node
    1, but [NodeDetailsByAddress] maps the address of node 1, like that of
    node 2, to a pointer whose target is the record of node 2. *)
Theorem node_lookup_resolves_to_last_node :
  match snd SmallNetwork.snapshot with
  | Ok st =>
      NodeDetails st !! 0%nat = Some SmallNetwork.node1 /\
      NodeDetailsByAddress st !! NodeAddress SmallNetwork.node1 = Some RangeVar_details /\
      NodeDetailsByAddress st !! NodeAddress SmallNetwork.node2 = Some RangeVar_details /\
      (NodeDetailsByAddress st !! NodeAddress SmallNetwork.node1 ≫= derefNode st) =
        Some SmallNetwork.node2 /\
      SmallNetwork.node1 <> SmallNetwork.node2
  | Err _ => False
  end.
Proof.
  vm_compute. repeat split; discriminate.
Qed.

End NodeLookup.

(** ** reduceBond: the forced submission *)

Section ReduceBond_claims.
Import ReduceBonds.

Lemma submitReduceBond_submitted t sv mpd opts fee gas :
  submitted (submitReduceBond t sv mpd opts fee gas) = true.
Proof.
  unfold submitReduceBond, submitted, bind, call.
  destruct (ReduceBondAmount sv _ _); [|reflexivity].
  destruct (PrintAndWaitForTransaction sv _); reflexivity.
Qed.

Lemma getMaxFee_not_submitted t sv :
  existsb (fun ev => String.eqb (ev_call ev) "mpv3.ReduceBondAmount")
          (fst (getMaxFee t sv)) = false.
Proof.
  unfold getMaxFee. destruct (maxFee t) as [fee|]; [destruct (big_Uint64 fee =? 0)|];
    reflexivity.
Qed.

(** C7. Let the calls that precede the gas check succeed and the gas check
    fail. Then the bond-reduction transaction is submitted exactly when the
    minipool is due, that is when the remaining time
    [(windowStart + windowLength) - (latestBlockTime - reduceBondTime)] is
    below [windowLength / 2]; when it is not due, [reduceBond] returns
    [false] and a nil error. The remaining time is computed in [int64]
    nanoseconds; while nothing overflows it is the exact difference. *)
Theorem reduceBond_forced_iff_due (t : reduceBonds) (sv : Services) mpd
    (windowStart windowLength : Duration) (latestBlockTime : Time) (callOpts : Z)
    opts binding gasInfo fee reduceBondTime :
  GetNodeAccountTransactor sv = Ok opts ->
  NewMinipoolFromVersion sv (State.MinipoolAddress mpd) (State.Version mpd) = Ok binding ->
  GetMinipoolAsV3 sv binding = true ->
  EstimateReduceBondAmountGas sv (fst binding) opts = Ok gasInfo ->
  snd (getMaxFee t sv) = Ok fee ->
  GetReduceBondTime sv (State.MinipoolAddress mpd) callOpts = Ok reduceBondTime ->
  PrintAndCheckGasInfo sv gasInfo true (gasThreshold t) fee (gasLimit t) = false ->
  let run := reduceBond t sv mpd windowStart windowLength latestBlockTime callOpts in
  submitted run = isDue windowStart windowLength latestBlockTime reduceBondTime /\
  (isDue windowStart windowLength latestBlockTime reduceBondTime = false ->
     returnedBool run = (false, None)) /\
  (minInt64 <= latestBlockTime - reduceBondTime <= maxInt64 ->
   minInt64 <= windowStart + windowLength <= maxInt64 ->
   minInt64 <= windowStart + windowLength - (latestBlockTime - reduceBondTime) <= maxInt64 ->
   minInt64 <= windowLength <= maxInt64 ->
   (isDue windowStart windowLength latestBlockTime reduceBondTime = true <->
    windowStart + windowLength - (latestBlockTime - reduceBondTime)
      < Z.quot windowLength 2)).
Proof.
  intros Hopts Hbind Hv3 Hgas Hfee Htime Hcheck run.
  assert (Hrun : run =
    (let (tf, _) := getMaxFee t sv in
     let (tr, r) :=
       if negb (isDue windowStart windowLength latestBlockTime reduceBondTime)
       then ret false
       else submitReduceBond t sv mpd opts fee
              (if negb (gasLimit t =? 0) then gasLimit t else SafeGasLimit gasInfo) in
     ([mkEvent "t.w.GetNodeAccountTransactor" false;
       mkEvent "minipool.NewMinipoolFromVersion" false;
       mkEvent "mpv3.EstimateReduceBondAmountGas" false]
      ++ tf ++ [mkEvent "minipool.GetReduceBondTime" false] ++ tr, r))).
  { subst run. unfold reduceBond, bind, call, orWrap.
    rewrite Hopts, Hbind, Hv3. cbn [negb is_Err]. rewrite Hgas. cbn [is_Err].
    destruct (getMaxFee t sv) as [tf rf]. cbn [snd] in Hfee. subst rf.
    rewrite Htime. cbn [is_Err]. rewrite Hcheck. cbn [negb].
    destruct (if negb (isDue _ _ _ _) then _ else _) as [tr r].
    cbn [app]. reflexivity. }
  split; [|split].
  - rewrite Hrun. unfold submitted.
    pose proof (getMaxFee_not_submitted t sv) as Hnf.
    destruct (getMaxFee t sv) as [tf rf]. cbn [fst] in Hnf.
    destruct (isDue windowStart windowLength latestBlockTime reduceBondTime) eqn:Hdue;
      cbn [negb].
    + pose proof (submitReduceBond_submitted t sv mpd opts fee
                    (if negb (gasLimit t =? 0) then gasLimit t else SafeGasLimit gasInfo)) as Hs.
      unfold submitted in Hs. destruct (submitReduceBond _ _ _ _ _ _) as [tr r].
      cbn [fst] in *. rewrite !existsb_app, Hs, Hnf. cbn. rewrite ?orb_true_r. reflexivity.
    + cbn [ret fst]. rewrite !existsb_app, Hnf. reflexivity.
  - intros Hdue. rewrite Hrun, Hdue. cbn [negb ret].
    destruct (getMaxFee t sv) as [tf rf]. reflexivity.
  - intros H1 H2 H3 H4. unfold isDue, remainingTime, dur_sub, dur_add, dur_div,
      reduceBondTimeoutSafetyFactor, Time_Sub. cbv zeta.
    destruct (Z.ltb_spec (latestBlockTime - reduceBondTime) minInt64); [lia|].
    destruct (Z.ltb_spec maxInt64 (latestBlockTime - reduceBondTime)); [lia|].
    rewrite (toInt64_small (windowStart + windowLength)) by lia.
    rewrite (toInt64_small (windowStart + windowLength - _)) by lia.
    rewrite (toInt64_small (Z.quot windowLength 2)).
    + apply Z.ltb_lt.
    + unfold minInt64, maxInt64 in *.
      destruct (Z.le_gt_cases 0 windowLength).
      * split; [apply Z.le_trans with 0; [lia|apply Z.quot_pos; lia]|].
        apply Z.le_trans with windowLength; [|lia].
        rewrite Z.quot_div_nonneg by lia. apply Z.div_le_upper_bound; lia.
      * rewrite <- (Z.opp_involutive windowLength), Z.quot_opp_l by lia.
        rewrite Z.quot_div_nonneg by lia.
        assert (0 <= - windowLength / 2 <= - windowLength).
        { split; [apply Z.div_pos; lia|apply Z.div_le_upper_bound; lia]. }
        lia.
Qed.

(** 13 hours after the request the bond reduction is deferred. *)
Lemma reduceBond_early_deferred :
  submitted ReduceBondsExample.early = false /\
  returnedBool ReduceBondsExample.early = (false, None).
Proof.
  destruct (reduceBond_forced_iff_due ReduceBondsExample.task ReduceBondsExample.services
              SmallNetwork.minipool1 ReduceBondsExample.windowStart
              ReduceBondsExample.windowLength
              (Time_Add ReduceBondsExample.requested (13 * ReduceBondsExample.hour))
              17000000 (mkTransactOpts None None 0) (101%N, 3)
              (mkGasInfo 200000 300000) 150000000000 ReduceBondsExample.requested
              eq_refl eq_refl eq_refl eq_refl eq_refl eq_refl eq_refl) as (Hs & Hr & _).
  split.
  - exact Hs.
  - apply Hr. reflexivity.
Defined.

(** 37 hours after the request it is forced at the current gas price. *)
Example reduceBond_late_forced :
  submitted ReduceBondsExample.late = true /\
  returnedBool ReduceBondsExample.late = (true, None).
Proof. split; reflexivity. Qed.

End ReduceBond_claims.

(** ** GetIntervalInfo *)

Section IntervalInfo_claims.
Import RewardsFiles.

(** C6, as stated, fails: the published file and a copy with a changed
    leaf are both reported valid, with their reward amounts, so no way of
    computing a root from the leaves that tells the two files apart makes
    the claim true. *)
Lemma root_check_ignores_leaves :
  ~ exists recomputed : RewardsFile -> Hash,
      recomputed RewardsExample.tampered <> recomputed RewardsExample.original /\
      RootRecomputedFromLeaves recomputed.
Proof.
  intros (recomputed & Hdiff & Hclaim).
  assert (Hsome : recomputed RewardsExample.tampered <> 170%N \/
                  recomputed RewardsExample.original <> 170%N).
  { destruct (N.eq_dec (recomputed RewardsExample.tampered) 170%N) as [Ht|Ht];
      [right; congruence|left; exact Ht]. }
  destruct Hsome as [H|H].
  - destruct (Hclaim (RewardsExample.world (Some RewardsExample.tampered) [])
                RewardsExample.nodeA 7 17000000 RewardsExample.event [x7b; x7d]
                RewardsExample.tampered eq_refl eq_refl eq_refl eq_refl H) as [Hv _].
    vm_compute in Hv. discriminate.
  - destruct (Hclaim (RewardsExample.world (Some RewardsExample.original) [])
                RewardsExample.nodeA 7 17000000 RewardsExample.event [x7b; x7d]
                RewardsExample.original eq_refl eq_refl eq_refl eq_refl H) as [Hv _].
    vm_compute in Hv. discriminate.
Qed.

(** C6, amended. With the interval's event resolved, [GetIntervalInfo]
    tells three outcomes apart. If the tree file does not exist it returns
    [TreeFileExists = false] and a nil error. If the file is read and
    parsed but the root written in its [merkleRoot] field differs from the
    root of the on-chain event, it returns [MerkleRootValid = false], a nil
    error, and no reward amounts or proof. Only when the two roots are equal
    does it report whether the node has an entry and, if so, its amounts and
    (when the proof deserialises) its Merkle proof. *)
Theorem GetIntervalInfo_outcomes (w : World) nodeAddress interval opts event :
  intervalEvent w interval opts = (event, None) ->
  let path := GetRewardsTreePath w interval true in
  let info := fst (GetIntervalInfo w nodeAddress interval opts) in
  let err := snd (GetIntervalInfo w nodeAddress interval opts) in
  (os_Stat w path = StatNotExist -> TreeFileExists info = false /\ err = None) /\
  (forall fileBytes file,
     os_Stat w path <> StatNotExist ->
     os_ReadFile w path = Ok fileBytes ->
     json_Unmarshal w fileBytes = Ok file ->
     TreeFileExists info = true /\
     (HexToHash w (rf_MerkleRoot file) <> MerkleRoot event ->
        MerkleRootValid info = false /\ err = None /\ NodeExists info = false /\
        CollateralRplAmount info = None /\ ODaoRplAmount info = None /\
        SmoothingPoolEthAmount info = None /\ MerkleProof info = []) /\
     (HexToHash w (rf_MerkleRoot file) = MerkleRoot event ->
        MerkleRootValid info = true /\
        match NodeRewards file !! nodeAddress with
        | None =>
            NodeExists info = false /\ err = None /\
            CollateralRplAmount info = None /\ ODaoRplAmount info = None /\
            SmoothingPoolEthAmount info = None /\ MerkleProof info = []
        | Some rewards =>
            NodeExists info = true /\
            CollateralRplAmount info = Some (CollateralRpl rewards) /\
            ODaoRplAmount info = Some (OracleDaoRpl rewards) /\
            SmoothingPoolEthAmount info = Some (SmoothingPoolEth rewards) /\
            (forall proof, GetMerkleProof w rewards = Ok proof ->
               MerkleProof info = proof /\ err = None)
        end)).
Proof.
  intros Hev path info err. subst info err. unfold GetIntervalInfo.
  rewrite Hev. fold path. split.
  - intros Hstat. rewrite Hstat. split; reflexivity.
  - intros fileBytes file Hstat Hread Hjson.
    assert (Hgo : forall (A : Type) (a b : A),
               match os_Stat w path with StatNotExist => a | _ => b end = b).
    { intros A a b. destruct (os_Stat w path); congruence. }
    split; [|split].
    + destruct (os_Stat w path); [|congruence|]; rewrite Hread, Hjson;
        destruct (negb _); [reflexivity| |reflexivity|];
        destruct (NodeRewards file !! nodeAddress); [|reflexivity| |reflexivity];
        destruct (GetMerkleProof w _); reflexivity.
    + intros Hne.
      assert (Hb : negb (N.eqb (MerkleRoot event) (HexToHash w (rf_MerkleRoot file))) = true).
      { apply negb_true_iff, N.eqb_neq. congruence. }
      destruct (os_Stat w path); [|congruence|]; rewrite Hread, Hjson, Hb;
        repeat split; reflexivity.
    + intros Heq.
      assert (Hb : negb (N.eqb (MerkleRoot event) (HexToHash w (rf_MerkleRoot file))) = false).
      { apply negb_false_iff, N.eqb_eq. congruence. }
      destruct (os_Stat w path); [|congruence|]; rewrite Hread, Hjson, Hb;
        (destruct (NodeRewards file !! nodeAddress) as [rewards|];
         [|repeat split; reflexivity]);
        (destruct (GetMerkleProof w rewards) as [proof|perr];
         repeat split; cbn [fst snd MerkleProof]; try reflexivity; congruence).
Qed.

(** The stored file of interval 7 carries the root of the event: the
    rewards of the node are returned. *)
Lemma GetIntervalInfo_matching_file :
  let info := fst (GetIntervalInfo (RewardsExample.world (Some RewardsExample.original) [])
                     RewardsExample.nodeA 7 17000000) in
  TreeFileExists info = true /\ MerkleRootValid info = true /\
  CollateralRplAmount info = Some 10.
Proof.
  destruct (GetIntervalInfo_outcomes (RewardsExample.world (Some RewardsExample.original) [])
              RewardsExample.nodeA 7 17000000 RewardsExample.event eq_refl) as [_ H].
  destruct (H [x7b; x7d] RewardsExample.original) as (He & _ & Hm);
    [discriminate|reflexivity|reflexivity|].
  destruct (Hm eq_refl) as (Hv & Hn).
  change (NodeRewards RewardsExample.original !! RewardsExample.nodeA)
    with (Some (mkNodeRewardsInfo 10 20 30 ["0x01"%string])) in Hn.
  destruct Hn as (_ & Hc & _).
  cbv zeta. repeat split; assumption.
Defined.

End IntervalInfo_claims.

(** ** DownloadRewardsFile *)

Section Download_claims.
Import RewardsFiles.






End Download_claims.

(** ** GetELBlockHeaderForTime *)

Section BlockLocator_claims.
Import BlockLocator.

Variable rp : RocketPool.
Variable latestBlock targetTimeUnix : Z.
Hypothesis chain : Served rp latestBlock targetTimeUnix.

Lemma walkBack_terminates (n : nat) :
  forall candidateBlockNumber candidateTime bestBlock,
    candidateBlockNumber < latestBlock ->
    Number bestBlock < latestBlock ->
    candidateBlockNumber + 1 <= Z.of_nat n ->
    exists fuel r,
      walkBack rp fuel targetTimeUnix candidateBlockNumber candidateTime bestBlock = Some r /\
      belowHead latestBlock r.
Proof.
  induction n as [|n IH]; intros cnum ctime best Hc Hb Hn.
  - exists 1%nat. cbn [walkBack].
    destruct (targetTimeUnix <? ctime); [|eexists; split; [reflexivity|exact Hb]].
    destruct (served_only _ _ _ chain (cnum - 1)) as [err ->]; [lia|].
    eexists; split; [reflexivity|exact I].
  - destruct (Z.ltb_spec targetTimeUnix ctime) as [Hlt|Hge].
    + destruct (Z.lt_ge_cases (cnum - 1) 0) as [Hneg|Hpos].
      * exists 1%nat. cbn [walkBack].
        apply Z.ltb_lt in Hlt. rewrite Hlt.
        destruct (served_only _ _ _ chain (cnum - 1)) as [err ->]; [lia|].
        eexists; split; [reflexivity|exact I].
      * destruct (served_blocks _ _ _ chain (cnum - 1)) as (time & Hh & _); [lia|].
        destruct (IH (cnum - 1) time (mkHeader (cnum - 1) time)) as (fuel & r & Hw & Hr);
          [lia|cbn; lia|lia|].
        exists (S fuel), r. cbn [walkBack].
        apply Z.ltb_lt in Hlt. rewrite Hlt, Hh. cbn [Time_]. split; assumption.
    + exists 1%nat. cbn [walkBack].
      apply Z.ltb_ge in Hge. rewrite Hge.
      eexists; split; [reflexivity|exact Hb].
Qed.

Lemma ceilHalf_bounds pivotSize :
  1 <= pivotSize < 2 ^ 53 ->
  1 <= ceilHalf pivotSize <= pivotSize /\
  (2 <= pivotSize -> ceilHalf pivotSize < pivotSize) /\
  toInt64 (ceilHalf pivotSize) = ceilHalf pivotSize.
Proof.
  intros Hp. unfold ceilHalf.
  assert (Hh : 1 <= (pivotSize + 1) / 2 <= pivotSize).
  { split; [apply Z.div_le_lower_bound; lia|apply Z.div_le_upper_bound; lia]. }
  assert (Hlt : 2 <= pivotSize -> (pivotSize + 1) / 2 < pivotSize).
  { intros. apply Z.div_lt_upper_bound; lia. }
  rewrite wrap64_small by (unfold two64; lia).
  split; [exact Hh|]. split; [exact Hlt|].
  apply toInt64_small. unfold minInt64, maxInt64. lia.
Qed.

(** The candidate after a move and the clamp is below the head. *)
Lemma nextCandidate_below_head delta candidateBlockNumber pivotSize :
  2 <= latestBlock ->
  0 <= candidateBlockNumber < latestBlock ->
  1 <= pivotSize < 2 ^ 53 ->
  nextCandidate latestBlock delta candidateBlockNumber pivotSize < latestBlock.
Proof.
  intros HL Hcand Hpivot.
  pose proof (served_range _ _ _ chain) as Hr.
  unfold nextCandidate.
  rewrite (toInt64_small pivotSize) by (unfold minInt64, maxInt64; lia).
  set (moved := if delta <? 0 then candidateBlockNumber - pivotSize
                else candidateBlockNumber + pivotSize).
  assert (Hc : - 2 ^ 54 < moved < 2 ^ 54) by (subst moved; destruct (delta <? 0); lia).
  generalize dependent moved. intros candidateBlockNumber' Hc.
  assert (Hu : big_Uint64 latestBlock = latestBlock).
  { unfold big_Uint64. rewrite Z.abs_eq by lia. apply Z.mod_small. unfold two64. lia. }
  rewrite Hu, wrap64_small by (unfold two64; lia).
  destruct (Z.ltb_spec (latestBlock - 1) (big_Uint64 candidateBlockNumber')) as [H|H]; [lia|].
  unfold big_Uint64 in H. rewrite Z.mod_small in H by (unfold two64; lia). lia.
Qed.

Lemma search_terminates (n : nat) :
  forall candidateBlockNumber candidateBlock bestBlock pivotSize m,
    0 <= candidateBlockNumber < latestBlock ->
    Number candidateBlock < latestBlock ->
    Number bestBlock < latestBlock ->
    1 <= pivotSize < 2 ^ 53 ->
    0 <= m ->
    pivotSize + m <= Z.of_nat n ->
    exists fuel r,
      search rp fuel latestBlock targetTimeUnix candidateBlockNumber candidateBlock
             bestBlock pivotSize (Some m) = Some r /\
      belowHead latestBlock r.
Proof.
  pose proof (served_range _ _ _ chain) as Hr.
  pose proof (served_deploy _ _ _ chain) as Hd.
  induction n as [|n IH]; intros cnum cb best p m Hc Hcb Hb Hp Hm Hn; [lia|].
  destruct (ceilHalf_bounds p Hp) as (Hp1 & Hp2 & Hp3).
  set (delta := targetTimeUnix - Time_ cb).
  pose proof (nextCandidate_below_head delta cnum (ceilHalf p) ltac:(lia) Hc ltac:(lia))
    as Hnext.
  set (cnext := nextCandidate latestBlock delta cnum (ceilHalf p)) in *.
  assert (Hcont : forall best' m',
    Number best' < latestBlock -> 0 <= m' -> ceilHalf p + m' <= Z.of_nat n ->
    exists fuel r,
      match HeaderByNumber rp (Some cnext) with
      | Err err => Some (None, Some (Errorw "error getting EL block %d: %w" [] err))
      | Ok candidateBlock =>
          search rp fuel latestBlock targetTimeUnix cnext candidateBlock best'
                 (ceilHalf p) (Some m')
      end = Some r /\ belowHead latestBlock r).
  { intros best' m' Hb' Hm' Hmeas.
    destruct (Z.lt_ge_cases cnext 0) as [Hneg|Hpos].
    - destruct (served_only _ _ _ chain cnext) as [err ->]; [lia|].
      exists 0%nat. eexists; split; [reflexivity|exact I].
    - destruct (served_blocks _ _ _ chain cnext) as (time & -> & _); [lia|].
      apply IH; cbn [Number]; lia. }
  destruct (Z.ltb_spec (Z.abs delta) m) as [Hbetter|Hworse].
  - destruct (Hcont cb (Z.abs delta)) as (fuel & r & Hs & Hgood); [lia|lia|lia|].
    exists (S fuel), r. split; [|exact Hgood].
    cbn [search]. fold delta. apply Z.ltb_lt in Hbetter. rewrite Hbetter.
    cbn [negb andb]. exact Hs.
  - apply Z.ltb_ge in Hworse.
    destruct (Z.eqb_spec p 1) as [Hone|Hmore].
    + destruct (walkBack_terminates (Z.to_nat (cnum + 1)) cnum (Time_ cb) best)
        as (fuel & r & Hw & Hgood); [lia|exact Hb|lia|].
      exists (S fuel), r. split; [|exact Hgood].
      cbn [search]. fold delta. rewrite Hworse.
      apply Z.eqb_eq in Hone. rewrite Hone. cbn [negb andb]. exact Hw.
    + destruct (Hcont best m) as (fuel & r & Hs & Hgood); [lia|lia|lia|].
      exists (S fuel), r. split; [|exact Hgood].
      cbn [search]. fold delta. rewrite Hworse.
      apply Z.eqb_neq in Hmore. rewrite Hmore. cbn [negb andb]. exact Hs.
Qed.

End BlockLocator_claims.

Section BlockLocator_fuel.
Import BlockLocator.

Variable rp : RocketPool.

(** A run that ends is not changed by more fuel. *)
Lemma walkBack_more_fuel (fuel : nat) :
  forall fuel' targetTimeUnix candidateBlockNumber candidateTime bestBlock r,
    walkBack rp fuel targetTimeUnix candidateBlockNumber candidateTime bestBlock = Some r ->
    (fuel <= fuel')%nat ->
    walkBack rp fuel' targetTimeUnix candidateBlockNumber candidateTime bestBlock = Some r.
Proof.
  induction fuel as [|fuel IH]; intros fuel' target cnum ctime best r Hw Hle;
    [discriminate|].
  destruct fuel' as [|fuel']; [lia|]. cbn [walkBack] in *.
  destruct (target <? ctime); [|exact Hw].
  destruct (HeaderByNumber rp (Some (cnum - 1))); [|exact Hw].
  apply IH; [exact Hw|lia].
Qed.

Lemma search_more_fuel (fuel : nat) :
  forall fuel' latestBlock targetTimeUnix candidateBlockNumber candidateBlock bestBlock
         pivotSize minimumDistance r,
    search rp fuel latestBlock targetTimeUnix candidateBlockNumber candidateBlock
           bestBlock pivotSize minimumDistance = Some r ->
    (fuel <= fuel')%nat ->
    search rp fuel' latestBlock targetTimeUnix candidateBlockNumber candidateBlock
           bestBlock pivotSize minimumDistance = Some r.
Proof.
  induction fuel as [|fuel IH]; intros fuel' latest target cnum cb best p md r Hs Hle;
    [discriminate|].
  destruct fuel' as [|fuel']; [lia|]. cbn [search] in *.
  destruct (negb _ && _).
  - apply (walkBack_more_fuel fuel); [exact Hs|lia].
  - destruct (HeaderByNumber rp _); [|exact Hs].
    apply IH; [exact Hs|lia].
Qed.

Lemma GetELBlockHeaderForTime_more_fuel fuel fuel' targetTime r :
  GetELBlockHeaderForTime fuel rp targetTime = Some r ->
  (fuel <= fuel')%nat ->
  GetELBlockHeaderForTime fuel' rp targetTime = Some r.
Proof.
  unfold GetELBlockHeaderForTime. intros H Hle.
  destruct (HeaderByNumber rp None); [|exact H].
  destruct (HeaderByNumber rp (Some _)); [|exact H].
  apply (search_more_fuel fuel); assumption.
Qed.

End BlockLocator_fuel.

Section BlockLocator_main.
Import BlockLocator.

(** C8, as stated, fails: on a chain whose head (block 10) is the
    deployment block, the search for a time after the head returns the head
    itself. *)
Lemma locator_returns_head :
  HeaderByNumber (regularChain 1000 10 10) None = Ok (mkHeader 10 1120) /\
  GetELBlockHeaderForTime 100 (regularChain 1000 10 10) (time_Unix 5000) =
    Some (Some (mkHeader 10 1120), None) /\
  ~ Number (mkHeader 10 1120) < 10.
Proof.
  split; [reflexivity|]. split; [vm_compute; reflexivity|]. cbn. lia.
Qed.

(** C8, amended. On a chain whose client serves exactly the blocks up to
    its head, with the deployment block at least two blocks below the head,
    [GetELBlockHeaderForTime] terminates for every target time, and it
    returns either an error or a block whose number is strictly below the
    head's. *)
Theorem GetELBlockHeaderForTime_below_head (rp : RocketPool) (latestBlock : Z)
    (targetTime : Time) :
  Served rp latestBlock (Time_Unix targetTime) ->
  exists fuel r,
    (forall fuel', (fuel <= fuel')%nat ->
       GetELBlockHeaderForTime fuel' rp targetTime = Some r) /\
    belowHead latestBlock r.
Proof.
  intros chain.
  cut (exists fuel r,
         GetELBlockHeaderForTime fuel rp targetTime = Some r /\ belowHead latestBlock r).
  { intros (fuel & r & Hrun & Hgood). exists fuel, r. split; [|exact Hgood].
    intros fuel' Hle. exact (GetELBlockHeaderForTime_more_fuel rp fuel fuel' _ r Hrun Hle). }
  pose proof (served_range _ _ _ chain) as Hr.
  pose proof (served_deploy _ _ _ chain) as Hd.
  destruct (served_head _ _ _ chain) as [headTime Hhead].
  unfold GetELBlockHeaderForTime. rewrite Hhead. cbn [Number].
  set (c0 := latestBlock - (latestBlock - DeployBlock rp) / 2).
  assert (Hc0 : 1 <= c0 < latestBlock).
  { subst c0.
    assert (1 <= (latestBlock - DeployBlock rp) / 2) by (apply Z.div_le_lower_bound; lia).
    assert ((latestBlock - DeployBlock rp) / 2 <= latestBlock - 1)
      by (apply Z.div_le_upper_bound; lia).
    assert ((latestBlock - DeployBlock rp) / 2 <= latestBlock / 2)
      by (apply Z.div_le_mono; lia).
    assert (latestBlock / 2 < latestBlock) by (apply Z.div_lt_upper_bound; lia).
    assert (latestBlock / 2 <= latestBlock - 1) by lia.
    lia. }
  destruct (served_blocks _ _ _ chain c0) as (time0 & Hh0 & _); [lia|].
  rewrite Hh0. cbn [Number].
  assert (Hp0 : big_Uint64 c0 = c0).
  { unfold big_Uint64. rewrite Z.abs_eq by lia. apply Z.mod_small. unfold two64. lia. }
  rewrite Hp0.
  set (target := Time_Unix targetTime) in *.
  set (delta := target - time0).
  destruct (ceilHalf_bounds c0 ltac:(lia)) as (Hp1 & _ & _).
  pose proof (nextCandidate_below_head rp latestBlock target chain delta c0 (ceilHalf c0)
                ltac:(lia) ltac:(lia) ltac:(lia)) as Hnext.
  set (cnext := nextCandidate latestBlock delta c0 (ceilHalf c0)) in *.
  destruct (Z.lt_ge_cases cnext 0) as [Hneg|Hpos].
  - destruct (served_only _ _ _ chain cnext) as [err Herr]; [lia|].
    exists 1%nat. eexists. split.
    + cbn [search Time_ negb andb]. fold delta. fold cnext. rewrite Herr. reflexivity.
    + exact I.
  - destruct (served_blocks _ _ _ chain cnext) as (time1 & Hh1 & _); [lia|].
    destruct (search_terminates rp latestBlock target chain
                (Z.to_nat (ceilHalf c0 + Z.abs delta)) cnext (mkHeader cnext time1)
                (mkHeader c0 time0) (ceilHalf c0) (Z.abs delta))
      as (fuel & r & Hs & Hgood); cbn [Number]; try lia.
    exists (S fuel), r. split; [|exact Hgood].
    cbn [search Time_ negb andb]. fold delta. fold cnext. rewrite Hh1. exact Hs.
Qed.

(** Eleven blocks, the protocol deployed at genesis: the block found for
    a time between blocks 4 and 5 is below the head. *)
Lemma GetELBlockHeaderForTime_small_chain :
  exists fuel r,
    (forall fuel', (fuel <= fuel')%nat ->
       GetELBlockHeaderForTime fuel' (regularChain 1000 10 0) (time_Unix 1050) = Some r) /\
    belowHead 10 r.
Proof.
  apply GetELBlockHeaderForTime_below_head. split.
  - eexists. reflexivity.
  - intros n Hn. eexists. split.
    + cbn. destruct (Z.leb_spec 0 n); [|lia]. destruct (Z.leb_spec n 10); [|lia].
      reflexivity.
    + lia.
  - intros n Hn. eexists. cbn.
    destruct (Z.leb_spec 0 n); destruct (Z.leb_spec n 10); cbn; try reflexivity; lia.
  - cbn. lia.
  - lia.
  - vm_compute. split; reflexivity.
Defined.

End BlockLocator_main.

(** ** The minipool lookups of CreateNetworkState *)

Section MinipoolLookups.
Import State Lookups.

Lemma indicesWhere_snoc P (l : list NativeMinipoolDetails) details :
  indicesWhere P (l ++ [details]) =
    indicesWhere P l ++ (if P details then [length l] else []).
Proof.
  unfold indicesWhere. rewrite length_app. cbn [length].
  rewrite Nat.add_1_r, seq_S, List.filter_app. cbn [List.filter Nat.add].
  f_equal.
  - apply List.filter_ext_in. intros i Hi. apply in_seq in Hi.
    rewrite lookup_app_l by lia. reflexivity.
  - rewrite list_lookup_middle by reflexivity. destruct (P details); reflexivity.
Qed.

(** What the loop has built after the minipools [l]. *)
Lemma buildMinipoolLookups_inv (l : list NativeMinipoolDetails) :
  (forall a, (buildMinipoolLookups l).1.1 !! a = last (indicesAt a l)) /\
  (buildMinipoolLookups l).1.2 = nonEmptyPubkeys l /\
  (forall a, (buildMinipoolLookups l).2 !! a =
             match indicesOfNode a l with [] => None | indices => Some indices end).
Proof.
  unfold buildMinipoolLookups.
  induction l as [|details l IH] using rev_ind.
  - cbn. repeat split; intros; apply lookup_empty.
  - rewrite imap_app, fold_left_app. cbn [imap fold_left].
    destruct (fold_left _ (imap _ l) _) as [[byAddress pubkeys] byNode].
    cbn [fst snd] in *. destruct IH as (IHa & IHp & IHn).
    rewrite Nat.add_0_r. split; [|split].
    + intros a. unfold indicesAt in *. rewrite indicesWhere_snoc.
      destruct (N.eqb_spec (MinipoolAddress details) a) as [Heq|Hne].
      * rewrite Heq, lookup_insert_eq, last_snoc. reflexivity.
      * rewrite lookup_insert_ne by exact Hne. rewrite app_nil_r. apply IHa.
    + unfold nonEmptyPubkeys in *. rewrite List.map_app, List.filter_app, IHp.
      cbn [List.map List.filter].
      destruct (negb _); [reflexivity|now rewrite app_nil_r].
    + intros a. unfold indicesOfNode in *. rewrite indicesWhere_snoc.
      destruct (N.eqb_spec (mp_NodeAddress details) a) as [Heq|Hne].
      * rewrite Heq, lookup_insert_eq. rewrite <- Heq, IHn.
        destruct (indicesWhere _ l) as [|i rest]; reflexivity.
      * rewrite lookup_insert_ne by exact Hne. rewrite app_nil_r. apply IHn.
Qed.

Lemma indicesWhere_elem P (l : list NativeMinipoolDetails) i :
  In i (indicesWhere P l) <-> exists details, l !! i = Some details /\ P details = true.
Proof.
  unfold indicesWhere. rewrite List.filter_In, in_seq. split.
  - intros [_ H]. destruct (l !! i) as [details|]; [eauto|discriminate].
  - intros (details & Hl & HP). rewrite Hl. split; [|exact HP].
    apply lookup_lt_Some in Hl. lia.
Qed.

Lemma last_filter_seq (P : nat -> bool) n i :
  last (List.filter P (seq 0 n)) = Some i <->
  (i < n)%nat /\ P i = true /\ forall j, (i < j < n)%nat -> P j = false.
Proof.
  induction n as [|n IH].
  - cbn. split; [discriminate|]. intros [H _]. lia.
  - rewrite seq_S, List.filter_app. cbn [List.filter Nat.add].
    destruct (P n) eqn:HPn.
    + rewrite last_snoc. split.
      * intros H. injection H as <-. repeat split; [lia|exact HPn|]. intros j Hj. lia.
      * intros (Hi & HPi & Hj). f_equal.
        destruct (Nat.eq_dec i n) as [->|Hne]; [reflexivity|].
        specialize (Hj n ltac:(lia)). congruence.
    + rewrite app_nil_r, IH. split.
      * intros (Hi & HPi & Hj). repeat split; [lia|exact HPi|].
        intros j Hlt. destruct (Nat.eq_dec j n) as [->|Hne]; [exact HPn|].
        apply Hj. lia.
      * intros (Hi & HPi & Hj).
        assert (i <> n) by congruence.
        repeat split; [lia|exact HPi|]. intros j Hlt. apply Hj. lia.
Qed.

(** X1. The minipools-by-node lookup built by [CreateNetworkState] lists,
    for every node address, the indices of exactly the minipools whose
    [NodeAddress] is that address, in increasing order; an address that owns
    no minipool has no entry (never an empty list). *)
Theorem minipools_grouped_by_node (minipoolDetails : list NativeMinipoolDetails)
    (node : Address) :
  let byNode := (buildMinipoolLookups minipoolDetails).2 in
  default [] (byNode !! node) = indicesOfNode node minipoolDetails /\
  (forall i, In i (default [] (byNode !! node)) <->
     exists details, minipoolDetails !! i = Some details /\ mp_NodeAddress details = node) /\
  byNode !! node <> Some [].
Proof.
  cbv zeta. destruct (buildMinipoolLookups_inv minipoolDetails) as (_ & _ & Hn).
  rewrite (Hn node).
  assert (Heq : default [] (match indicesOfNode node minipoolDetails with
                           | [] => None | indices => Some indices end) =
                indicesOfNode node minipoolDetails).
  { destruct (indicesOfNode node minipoolDetails); reflexivity. }
  rewrite Heq. split; [reflexivity|]. split.
  - intros i. unfold indicesOfNode. rewrite indicesWhere_elem.
    split; intros (details & Hl & Ha); exists details; split; auto.
    + now apply N.eqb_eq.
    + now apply N.eqb_eq.
  - destruct (indicesOfNode node minipoolDetails); discriminate.
Qed.

(** X2. The minipool-by-address lookup resolves an address to index [i]
    exactly when [i] is the last index of a minipool with that address: the
    target always carries the address asked for, and every minipool's
    address resolves. *)
Theorem minipool_found_by_address (minipoolDetails : list NativeMinipoolDetails)
    (address : Address) (i : nat) :
  (buildMinipoolLookups minipoolDetails).1.1 !! address = Some i <->
  (exists details, minipoolDetails !! i = Some details /\
                   MinipoolAddress details = address) /\
  (forall j details, minipoolDetails !! j = Some details ->
                     MinipoolAddress details = address -> (j <= i)%nat).
Proof.
  destruct (buildMinipoolLookups_inv minipoolDetails) as (Ha & _ & _).
  rewrite (Ha address). unfold indicesAt, indicesWhere. rewrite last_filter_seq.
  split.
  - intros (Hi & HP & Hlast).
    destruct (minipoolDetails !! i) as [details|] eqn:Hl; [|discriminate].
    split; [exists details; split; [reflexivity|now apply N.eqb_eq]|].
    intros j dj Hj Haj. destruct (Nat.le_gt_cases j i) as [|Hgt]; [assumption|].
    specialize (Hlast j (conj Hgt (lookup_lt_Some _ _ _ Hj))).
    rewrite Hj in Hlast. apply N.eqb_neq in Hlast. contradiction.
  - intros ((details & Hl & Hd) & Hlast). rewrite Hl.
    split; [exact (lookup_lt_Some _ _ _ Hl)|]. split; [now apply N.eqb_eq|].
    intros j Hj. destruct (minipoolDetails !! j) as [dj|] eqn:Hlj; [|reflexivity].
    apply N.eqb_neq. intros Heq. specialize (Hlast j dj Hlj Heq). lia.
Qed.

(** X3. The public keys [CreateNetworkState] asks the Beacon node for are
    the public keys of the fetched minipools in their order, with the empty
    key left out. *)
Theorem pubkeys_requested (minipoolDetails : list NativeMinipoolDetails) :
  (buildMinipoolLookups minipoolDetails).1.2 = nonEmptyPubkeys minipoolDetails /\
  (forall pubkey, In pubkey (buildMinipoolLookups minipoolDetails).1.2 <->
     pubkey <> emptyPubkey /\
     exists details, In details minipoolDetails /\ Pubkey details = pubkey).
Proof.
  destruct (buildMinipoolLookups_inv minipoolDetails) as (_ & Hp & _).
  rewrite Hp. split; [reflexivity|].
  intros pubkey. unfold nonEmptyPubkeys. rewrite List.filter_In, in_map_iff, negb_true_iff.
  rewrite N.eqb_neq. split.
  - intros ((details & Hk & Hin) & Hne). split; [exact Hne|]. eauto.
  - intros (Hne & details & Hin & Hk). split; [eauto|exact Hne].
Qed.

End MinipoolLookups.

(** ** getNetworkDetails: the Atlas gate, and goroutines that all run *)

(** Solve a goal on the list of goroutines, one goroutine at a time. *)
Ltac each_task tac :=
  repeat (constructor; [solve [tac]|]); try constructor.

Section Goroutine_facts.
Import State Goroutines.

Lemma setField_other f g v (nd : NetworkDetails) : g <> f -> setField f v nd g = nd g.
Proof. intros H. unfold setField. destruct (decide (g = f)); [contradiction|reflexivity]. Qed.

Lemma assign_keeps g f name read mkErr : g <> f -> keeps g (assign f name read mkErr).
Proof.
  intros H nd. unfold assign. destruct (read nd); cbn; apply setField_other; exact H.
Qed.

Lemma fetch_keeps g f name read mkErr : g <> f -> keeps g (fetch f name read mkErr).
Proof.
  intros H nd. unfold fetch. destruct (read nd); cbn; [apply setField_other; exact H|reflexivity].
Qed.

Lemma smoothingPoolTask_keeps g rp opts :
  g <> SmoothingPoolAddress -> g <> SmoothingPoolBalance ->
  keeps g (smoothingPoolTask rp opts).
Proof.
  intros H1 H2 nd. unfold smoothingPoolTask.
  destruct (GetContract rp _ opts); cbn; [|reflexivity].
  destruct (Client_BalanceAt rp _ opts); cbn; rewrite !setField_other by assumption;
    reflexivity.
Qed.

Lemma assign_silentOn n f name read mkErr :
  String.eqb name n = false -> silentOn n (assign f name read mkErr).
Proof.
  intros H nd. apply String.eqb_neq in H. unfold assign.
  destruct (read nd); cbn; repeat constructor; exact H.
Qed.

Lemma fetch_silentOn n f name read mkErr :
  String.eqb name n = false -> silentOn n (fetch f name read mkErr).
Proof.
  intros H nd. apply String.eqb_neq in H. unfold fetch.
  destruct (read nd); cbn; repeat constructor; exact H.
Qed.

Lemma smoothingPoolTask_silentOn n rp opts :
  String.eqb "rp.GetContract" n = false ->
  String.eqb "rp.Client.BalanceAt" n = false ->
  silentOn n (smoothingPoolTask rp opts).
Proof.
  intros H1 H2 nd. apply String.eqb_neq in H1, H2. unfold smoothingPoolTask.
  destruct (GetContract rp _ opts); cbn; [|repeat constructor; exact H1].
  destruct (Client_BalanceAt rp _ opts); cbn; repeat constructor; assumption.
Qed.

Lemma assign_reads f name read mkErr : reads (assign f name read mkErr).
Proof. intros nd. unfold assign. destruct (read nd); cbn; lia. Qed.

Lemma fetch_reads f name read mkErr : reads (fetch f name read mkErr).
Proof. intros nd. unfold fetch. destruct (read nd); cbn; lia. Qed.

Lemma smoothingPoolTask_reads rp opts : reads (smoothingPoolTask rp opts).
Proof.
  intros nd. unfold smoothingPoolTask.
  destruct (GetContract rp _ opts); cbn; [|lia].
  destruct (Client_BalanceAt rp _ opts); cbn; lia.
Qed.

Lemma errgroup_Wait_keeps g tasks :
  Forall (keeps g) tasks -> forall nd, (errgroup_Wait tasks nd).1.2 g = nd g.
Proof.
  induction 1 as [|task rest Ht _ IH]; intros nd; cbn [errgroup_Wait]; [reflexivity|].
  specialize (Ht nd). destruct (task nd) as [[t1 nd1] e1].
  specialize (IH nd1). destruct (errgroup_Wait rest nd1) as [[t2 nd2] e2].
  cbn in *. congruence.
Qed.

Lemma errgroup_Wait_silentOn n tasks :
  Forall (silentOn n) tasks ->
  forall nd, Forall (fun ev => ev_call ev <> n) (errgroup_Wait tasks nd).1.1.
Proof.
  induction 1 as [|task rest Ht _ IH]; intros nd; cbn [errgroup_Wait]; [constructor|].
  specialize (Ht nd). destruct (task nd) as [[t1 nd1] e1].
  specialize (IH nd1). destruct (errgroup_Wait rest nd1) as [[t2 nd2] e2].
  cbn in *. apply Forall_app. split; assumption.
Qed.

Lemma errgroup_Wait_reads tasks :
  Forall reads tasks ->
  forall nd, (length tasks <= length (errgroup_Wait tasks nd).1.1)%nat.
Proof.
  induction 1 as [|task rest Ht _ IH]; intros nd; cbn [errgroup_Wait length]; [lia|].
  specialize (Ht nd). destruct (task nd) as [[t1 nd1] e1].
  specialize (IH nd1). destruct (errgroup_Wait rest nd1) as [[t2 nd2] e2].
  cbn in *. rewrite length_app. lia.
Qed.

Lemma Forall_scheduled (P : Task -> Prop) (sched : Scheduler) tasks :
  (forall l, Permutation (sched l) l) -> Forall P tasks -> Forall P (sched tasks).
Proof.
  intros Hperm Hall. rewrite Forall_forall in *. intros task Hin.
  apply Hall. apply list_elem_of_In. apply list_elem_of_In in Hin.
  eapply Permutation_in; [apply Hperm|exact Hin].
Qed.

Lemma preAtlas_tasks_keep cfg rp opts g :
  In g atlasFields -> Forall (keeps g) (networkDetailsTasks cfg rp opts false).
Proof.
  intros Hg. unfold networkDetailsTasks. rewrite app_nil_r.
  destruct Hg as [<-|[<-|[<-|[<-|[]]]]];
    each_task ltac:(first [ apply assign_keeps; discriminate
                          | apply fetch_keeps; discriminate
                          | apply smoothingPoolTask_keeps; discriminate ]).
Qed.

Lemma preAtlas_tasks_silent cfg rp opts n :
  In n atlasReads -> Forall (silentOn n) (networkDetailsTasks cfg rp opts false).
Proof.
  intros Hn. unfold networkDetailsTasks. rewrite app_nil_r.
  destruct Hn as [<-|[<-|[<-|[<-|[]]]]];
    each_task ltac:(first [ apply assign_silentOn; reflexivity
                          | apply fetch_silentOn; reflexivity
                          | apply smoothingPoolTask_silentOn; reflexivity ]).
Qed.

Lemma tasks_read cfg rp opts isAtlasDeployed :
  Forall reads (networkDetailsTasks cfg rp opts isAtlasDeployed).
Proof.
  unfold networkDetailsTasks. apply Forall_app. split.
  - each_task ltac:(first [ apply assign_reads | apply fetch_reads
                          | apply smoothingPoolTask_reads ]).
  - destruct isAtlasDeployed;
      each_task ltac:(first [ apply assign_reads | apply fetch_reads ]).
Qed.

(** X5. Before Atlas, whatever the order in which the goroutines take
    effect and whichever reads fail, [getNetworkDetails] issues none of the
    Atlas reads (promotion scrub period, bond reduction window start and
    length, deposit pool user balance), and the network details it returns
    hold the zero value in each of the four Atlas fields. *)
Theorem preAtlas_fields_untouched (sched : Scheduler) cfg rp opts :
  (forall tasks, Permutation (sched tasks) tasks) ->
  (forall name, In name atlasReads ->
     Forall (fun ev => ev_call ev <> name) (getNetworkDetails sched cfg rp opts false).1) /\
  (forall nd, (getNetworkDetails sched cfg rp opts false).2 = Ok nd ->
     forall g, In g atlasFields -> nd g = zeroValue g).
Proof.
  intros Hperm. unfold getNetworkDetails. split.
  - intros name Hname.
    pose proof (errgroup_Wait_silentOn name _
                  (Forall_scheduled _ sched _ Hperm (preAtlas_tasks_silent cfg rp opts name Hname))
                  zeroValue) as H.
    destruct (errgroup_Wait _ zeroValue) as [[t nd] e]. cbn in H.
    destruct e; exact H.
  - intros nd Hnd g Hg.
    pose proof (errgroup_Wait_keeps g _
                  (Forall_scheduled _ sched _ Hperm (preAtlas_tasks_keep cfg rp opts g Hg))
                  zeroValue) as H.
    destruct (errgroup_Wait _ zeroValue) as [[t nd'] e]. cbn in H.
    destruct e; cbn in Hnd; [discriminate|]. injection Hnd as <-. exact H.
Qed.

Lemma preAtlas_fields_untouched_small_network :
  exists nd,
    (getNetworkDetails SmallNetwork.inOrder SmallNetwork.cfg (SmallNetwork.rocketPool [])
       17000000 false).2 = Ok nd /\
    nd BondReductionWindowLength = VDuration 0 /\
    nd DepositPoolUserBalance = VNil.
Proof.
  destruct (getNetworkDetails SmallNetwork.inOrder SmallNetwork.cfg
              (SmallNetwork.rocketPool []) 17000000 false).2 as [nd|] eqn:Hnd.
  - exists nd. split; [reflexivity|].
    destruct (preAtlas_fields_untouched SmallNetwork.inOrder SmallNetwork.cfg
                (SmallNetwork.rocketPool []) 17000000 (fun tasks => Permutation_refl tasks))
      as [_ H].
    split; apply (H nd Hnd); cbn; tauto.
  - exfalso. vm_compute in Hnd. discriminate.
Defined.

(** X6. A failed read stops no other goroutine of [getNetworkDetails]:
    whatever the order in which they take effect and whichever reads fail,
    the run issues at least 32 reads (36 with Atlas), one for each goroutine
    it starts. *)
Theorem all_goroutines_run (sched : Scheduler) cfg rp opts (isAtlasDeployed : bool) :
  (forall tasks, Permutation (sched tasks) tasks) ->
  ((if isAtlasDeployed then 36%nat else 32%nat) <=
     length (getNetworkDetails sched cfg rp opts isAtlasDeployed).1)%nat.
Proof.
  intros Hperm. unfold getNetworkDetails.
  pose proof (errgroup_Wait_reads _
                (Forall_scheduled _ sched _ Hperm (tasks_read cfg rp opts isAtlasDeployed))
                zeroValue) as H.
  rewrite (Permutation_length (Hperm _)) in H.
  assert (Hlen : length (networkDetailsTasks cfg rp opts isAtlasDeployed) =
                 if isAtlasDeployed then 36%nat else 32%nat)
    by (destruct isAtlasDeployed; reflexivity).
  rewrite Hlen in H.
  destruct (errgroup_Wait _ zeroValue) as [[t nd] e]. cbn [fst snd] in H.
  destruct e; exact H.
Qed.

(** The first read of the small network fails; the goroutines still all
    run. *)
Lemma all_goroutines_run_in_order :
  (36 <= length (getNetworkDetails SmallNetwork.inOrder SmallNetwork.cfg
                   (SmallNetwork.rocketPool ["network.GetRPLPrice"%string])
                   17000000 true).1)%nat.
Proof.
  exact (all_goroutines_run SmallNetwork.inOrder SmallNetwork.cfg
           (SmallNetwork.rocketPool ["network.GetRPLPrice"%string]) 17000000 true
           (fun tasks => Permutation_refl tasks)).
Defined.

End Goroutine_facts.

(** ** CalculateEffectiveStakes: the total, idle nodes, old registrations *)

Section EffectiveStakes_more.
Import State.

Lemma tally_distinct (nodes : list NativeNodeDetails) :
  forall vals (stakes0 : gmap Address Z) total0 stakes total,
  length nodes = length vals ->
  List.NoDup (List.map NodeAddress nodes) ->
  fold_left
    (fun '(stakes, total) '(node, nodeStake) =>
       (<[NodeAddress node := nodeStake]> stakes, total + nodeStake))
    (zip nodes vals) (stakes0, total0) = (stakes, total) ->
  total = total0 + sumZ vals /\
  Forall2 (fun node v => stakes !! NodeAddress node = Some v) nodes vals /\
  (forall a, ~ In a (List.map NodeAddress nodes) -> stakes !! a = stakes0 !! a).
Proof.
  induction nodes as [|node nodes IH]; intros [|v vals] stakes0 total0 stakes total Hlen Hnd Hfold;
    try discriminate.
  - cbn in Hfold. injection Hfold as <- <-. cbn. repeat split; [lia|constructor].
  - cbn [zip zip_with fold_left] in Hfold. cbn [List.map] in Hnd.
    apply List.NoDup_cons_iff in Hnd as [Hfresh Hnd].
    injection Hlen as Hlen.
    destruct (IH vals _ _ _ _ Hlen Hnd Hfold) as (Htotal & Hall & Hother).
    split; [cbn [sumZ fold_right] in *; unfold sumZ in Htotal; lia|]. split.
    + constructor; [|exact Hall].
      rewrite (Hother _ Hfresh). apply lookup_insert_eq.
    + intros a Ha. cbn [List.map In] in Ha.
      rewrite Hother by tauto. apply lookup_insert_ne. tauto.
Qed.

(** X7. When no two nodes of the snapshot share an address, the total
    that [CalculateEffectiveStakes] returns is the sum, over the nodes, of
    their entries in the stake map it returns. *)
Theorem total_is_sum_of_entries (s : NetworkState) (scaleByParticipation : bool)
    (stakes : gmap Address Z) (total : Z) :
  CalculateEffectiveStakes s scaleByParticipation = Some (Some stakes, Some total, None) ->
  List.NoDup (List.map NodeAddress (NodeDetails s)) ->
  total =
    sumZ (List.map (fun node => default 0 (stakes !! NodeAddress node)) (NodeDetails s)).
Proof.
  intros Hces Hdistinct. unfold CalculateEffectiveStakes in Hces.
  destruct (NetworkDetails_ s) as [nd|]; [|discriminate]. cbn [mbind option_bind] in Hces.
  destruct (mapM _ (NodeDetails s)) as [results|] eqn:Hm; [|discriminate].
  cbn [mbind option_bind] in Hces.
  destruct (firstError results); [discriminate|].
  destruct (fold_left _ _ _) as [stakes' total'] eqn:Hfold.
  injection Hces as <- <-.
  apply length_mapM in Hm. rewrite <- (length_map fst results) in Hm.
  destruct (tally_distinct _ _ _ _ _ _ Hm Hdistinct Hfold) as (Htotal & Hall & _).
  rewrite Htotal, Z.add_0_l. clear -Hall.
  induction Hall as [|node v nodes vals Hv _ IH]; [reflexivity|].
  cbn [List.map sumZ fold_right]. rewrite Hv. cbn [default]. unfold sumZ in IH. now rewrite IH.
Qed.

Lemma total_is_sum_of_entries_small_network :
  exists stakes total,
    CalculateEffectiveStakes SmallNetwork.state false = Some (Some stakes, Some total, None) /\
    total = default 0 (stakes !! 1%N) + (default 0 (stakes !! 2%N) + 0).
Proof.
  destruct (CalculateEffectiveStakes_returns SmallNetwork.state false
              SmallNetwork.networkDetails eq_refl)
    as (stakes & total & Hces & _).
  { intros node [<-|[<-|[]]]; vm_compute; eauto. }
  exists stakes, total. split; [exact Hces|].
  apply (total_is_sum_of_entries SmallNetwork.state false stakes total Hces).
  repeat constructor; cbn; intuition discriminate.
Defined.

Lemma mapM_agree {A B} (f g : A -> option B) (l : list A) :
  (forall x, In x l -> f x = g x) -> mapM f l = mapM g l.
Proof.
  induction l as [|x l IH]; intros H; [reflexivity|].
  cbn [mapM]. rewrite (H x) by (left; reflexivity).
  rewrite IH by (intros y Hy; apply H; right; exact Hy). reflexivity.
Qed.

(** X8. When every node of the snapshot registered at least one rewards
    interval before the snapshot's slot time, [CalculateEffectiveStakes]
    gives the same result with participation scaling as without. *)
Theorem scaling_idle_after_full_interval (s : NetworkState) (nd : NetworkDetails) :
  NetworkDetails_ s = Some nd ->
  (forall node, In node (NodeDetails s) ->
     getDuration nd IntervalDuration <=
       Time_Sub (slotTimeOf s) (time_Unix (big_Int64 (RegistrationTime node)))) ->
  CalculateEffectiveStakes s true = CalculateEffectiveStakes s false.
Proof.
  intros Hnd Hold. unfold CalculateEffectiveStakes. rewrite Hnd. cbn [mbind option_bind].
  rewrite (mapM_agree _ (nodeGoroutine s false
                           (Duration_Seconds_int64 (getDuration nd IntervalDuration))
                           (slotTimeOf s))); [reflexivity|].
  intros node Hin. unfold nodeGoroutine.
  destruct (collateralBounds s node) as [[minCollateral maxCollateral]|]; [|reflexivity].
  cbn [mbind option_bind]. rewrite Hnd. cbn [mbind option_bind].
  unfold scaleStake. cbv zeta.
  specialize (Hold node Hin). apply Z.ltb_ge in Hold. rewrite Hold. reflexivity.
Qed.

Lemma scaling_idle_for_veterans :
  CalculateEffectiveStakes SmallNetworkVariants.veterans true =
  CalculateEffectiveStakes SmallNetworkVariants.veterans false.
Proof.
  apply (scaling_idle_after_full_interval SmallNetworkVariants.veterans
           SmallNetwork.networkDetails eq_refl).
  intros node [<-|[<-|[]]]; vm_compute; discriminate.
Defined.







End EffectiveStakes_more.

(** ** reduceBond: when the transaction is sent *)

Section ReduceBond_safety.
Import ReduceBonds.

(** X10. [reduceBond] reports success only when it sent the
    bond-reduction transaction, and it sends it only after the transactor,
    the minipool binding (of a delegate that is a v3), the gas estimate, the
    max fee and the reduce-bond time were all obtained, and either the gas
    check passed or the minipool is due. *)
Theorem reduceBond_submits_only_when_allowed (t : reduceBonds) (sv : Services) mpd
    (windowStart windowLength : Duration) (latestBlockTime : Time) (callOpts : Z) :
  let run := reduceBond t sv mpd windowStart windowLength latestBlockTime callOpts in
  (fst (returnedBool run) = true -> submitted run = true) /\
  (submitted run = true ->
   exists opts binding gasInfo fee reduceBondTime,
     GetNodeAccountTransactor sv = Ok opts /\
     NewMinipoolFromVersion sv (State.MinipoolAddress mpd) (State.Version mpd) = Ok binding /\
     GetMinipoolAsV3 sv binding = true /\
     EstimateReduceBondAmountGas sv (fst binding) opts = Ok gasInfo /\
     snd (getMaxFee t sv) = Ok fee /\
     GetReduceBondTime sv (State.MinipoolAddress mpd) callOpts = Ok reduceBondTime /\
     (PrintAndCheckGasInfo sv gasInfo true (gasThreshold t) fee (gasLimit t) = true \/
      isDue windowStart windowLength latestBlockTime reduceBondTime = true)).
Proof.
  intros run. subst run. unfold reduceBond, bind, call, orWrap, fail.
  pose proof (getMaxFee_not_submitted t sv) as Hnf.
  destruct (GetNodeAccountTransactor sv) as [opts|e1]; cbn [is_Err];
    [|split; [discriminate|discriminate]].
  destruct (NewMinipoolFromVersion sv _ _) as [binding|e2]; cbn [is_Err];
    [|split; [discriminate|discriminate]].
  destruct (GetMinipoolAsV3 sv binding) eqn:Hv3; cbn [negb];
    [|split; [discriminate|discriminate]].
  destruct (EstimateReduceBondAmountGas sv _ _) as [gasInfo|e3] eqn:Hgas; cbn [is_Err];
    [|split; [discriminate|discriminate]].
  destruct (getMaxFee t sv) as [tf [fee|e4]]; cbn [fst] in Hnf.
  2:{ split; [discriminate|]. unfold submitted. cbn [fst].
      rewrite !existsb_app, Hnf. discriminate. }
  destruct (GetReduceBondTime sv _ _) as [reduceBondTime|e5]; cbn [is_Err].
  2:{ split; [discriminate|]. unfold submitted. cbn [fst].
      rewrite !existsb_app, Hnf. discriminate. }
  pose proof (submitReduceBond_submitted t sv mpd opts fee
                (if negb (gasLimit t =? 0) then gasLimit t else SafeGasLimit gasInfo)) as Hs.
  destruct (PrintAndCheckGasInfo sv gasInfo true _ fee _) eqn:Hcheck; cbn [negb].
  - unfold submitted in *. destruct (submitReduceBond _ _ _ _ _ _) as [tr r].
    cbn [fst] in *. split.
    + intros _. rewrite !existsb_app, Hs, !orb_true_r. reflexivity.
    + intros _. exists opts, binding, gasInfo, fee, reduceBondTime.
        repeat split; try reflexivity; auto.
  - destruct (isDue _ _ _ _) eqn:Hdue; cbn [negb].
    + unfold submitted in *. destruct (submitReduceBond _ _ _ _ _ _) as [tr r].
      cbn [fst] in *. split.
      * intros _. rewrite !existsb_app, Hs, !orb_true_r. reflexivity.
      * intros _. exists opts, binding, gasInfo, fee, reduceBondTime.
        repeat split; try reflexivity; auto.
    + split; [discriminate|]. unfold submitted, ret. cbn [fst].
      rewrite !existsb_app, Hnf. discriminate.
Qed.

Lemma reduceBond_late_allowed :
  submitted ReduceBondsExample.late = true /\
  isDue ReduceBondsExample.windowStart ReduceBondsExample.windowLength
        (Time_Add ReduceBondsExample.requested (37 * ReduceBondsExample.hour))
        ReduceBondsExample.requested = true.
Proof.
  assert (Hs : submitted ReduceBondsExample.late = true) by reflexivity.
  split; [exact Hs|].
  destruct (reduceBond_submits_only_when_allowed ReduceBondsExample.task
              ReduceBondsExample.services SmallNetwork.minipool1
              ReduceBondsExample.windowStart ReduceBondsExample.windowLength
              (Time_Add ReduceBondsExample.requested (37 * ReduceBondsExample.hour))
              17000000) as [_ H].
  destruct (H Hs) as (opts & binding & gasInfo & fee & reduceBondTime &
                      _ & _ & _ & _ & _ & Htime & [Hcheck|Hdue]).
  - discriminate Hcheck.
  - cbn in Htime. injection Htime as <-. exact Hdue.
Defined.

(** X11. When the calls that precede the gas check succeed and the gas
    check passes or the minipool is due, [reduceBond] sends the
    transaction with the max fee as fee cap, the task's priority fee as tip
    and, as gas limit, the task's gas limit when that is not 0 and the
    estimate's safe gas limit otherwise; it returns [true] exactly when the
    transaction was accepted and then included, and otherwise [false] with
    the error of the step that failed. *)
Theorem reduceBond_transaction (t : reduceBonds) (sv : Services) mpd
    (windowStart windowLength : Duration) (latestBlockTime : Time) (callOpts : Z)
    opts binding gasInfo fee reduceBondTime :
  GetNodeAccountTransactor sv = Ok opts ->
  NewMinipoolFromVersion sv (State.MinipoolAddress mpd) (State.Version mpd) = Ok binding ->
  GetMinipoolAsV3 sv binding = true ->
  EstimateReduceBondAmountGas sv (fst binding) opts = Ok gasInfo ->
  snd (getMaxFee t sv) = Ok fee ->
  GetReduceBondTime sv (State.MinipoolAddress mpd) callOpts = Ok reduceBondTime ->
  PrintAndCheckGasInfo sv gasInfo true (gasThreshold t) fee (gasLimit t) = true \/
    isDue windowStart windowLength latestBlockTime reduceBondTime = true ->
  0 <= gasLimit t < two64 ->
  0 <= SafeGasLimit gasInfo < two64 ->
  let run := reduceBond t sv mpd windowStart windowLength latestBlockTime callOpts in
  let txOpts :=
    mkTransactOpts (Some fee) (Some (maxPriorityFee t))
      (if gasLimit t =? 0 then SafeGasLimit gasInfo else gasLimit t) in
  returnedBool run =
    match ReduceBondAmount sv (State.MinipoolAddress mpd) txOpts with
    | Err err => (false, Some err)
    | Ok hash =>
        match PrintAndWaitForTransaction sv hash with
        | Some err => (false, Some err)
        | None => (true, None)
        end
    end.
Proof.
  intros Hopts Hbind Hv3 Hgas Hfee Htime Hgo Hlimit Hsafe run txOpts.
  assert (Htail : forall gas, 0 <= gas < two64 ->
            returnedBool (submitReduceBond t sv mpd opts fee gas) =
              match ReduceBondAmount sv (State.MinipoolAddress mpd)
                      (mkTransactOpts (Some fee) (Some (maxPriorityFee t)) gas) with
              | Err err => (false, Some err)
              | Ok hash =>
                  match PrintAndWaitForTransaction sv hash with
                  | Some err => (false, Some err)
                  | None => (true, None)
                  end
              end).
  { intros gas Hg. unfold submitReduceBond, bind, call, returnedBool.
    assert (Hu : big_Uint64 gas = gas).
    { unfold big_Uint64. rewrite Z.abs_eq by lia. apply Z.mod_small. lia. }
    rewrite Hu.
    destruct (ReduceBondAmount sv _ _) as [hash|err]; [|reflexivity].
    destruct (PrintAndWaitForTransaction sv hash); reflexivity. }
  assert (Hrun : returnedBool run =
            returnedBool (submitReduceBond t sv mpd opts fee
                            (if negb (gasLimit t =? 0) then gasLimit t
                             else SafeGasLimit gasInfo))).
  { subst run. unfold reduceBond, bind, call, orWrap.
    rewrite Hopts, Hbind, Hv3. cbn [negb is_Err]. rewrite Hgas. cbn [is_Err].
    destruct (getMaxFee t sv) as [tf rf]. cbn [snd] in Hfee. subst rf.
    rewrite Htime. cbn [is_Err].
    assert (Hif : (if negb (PrintAndCheckGasInfo sv gasInfo true (gasThreshold t) fee
                              (gasLimit t))
                   then if negb (isDue windowStart windowLength latestBlockTime
                                   reduceBondTime)
                        then ret false
                        else submitReduceBond t sv mpd opts fee
                               (if negb (gasLimit t =? 0) then gasLimit t
                                else SafeGasLimit gasInfo)
                   else submitReduceBond t sv mpd opts fee
                          (if negb (gasLimit t =? 0) then gasLimit t
                           else SafeGasLimit gasInfo)) =
                  submitReduceBond t sv mpd opts fee
                    (if negb (gasLimit t =? 0) then gasLimit t else SafeGasLimit gasInfo)).
    { destruct Hgo as [-> | ->]; [reflexivity|].
      destruct (PrintAndCheckGasInfo _ _ _ _ _ _); reflexivity. }
    rewrite Hif. destruct (submitReduceBond _ _ _ _ _ _) as [tr r]. reflexivity. }
  rewrite Hrun, Htail.
  - subst txOpts. destruct (gasLimit t =? 0); reflexivity.
  - destruct (gasLimit t =? 0); cbn [negb]; assumption.
Qed.

Lemma reduceBond_late_transaction :
  returnedBool ReduceBondsExample.late = (true, None).
Proof.
  apply (reduceBond_transaction ReduceBondsExample.task ReduceBondsExample.services
           SmallNetwork.minipool1 ReduceBondsExample.windowStart
           ReduceBondsExample.windowLength
           (Time_Add ReduceBondsExample.requested (37 * ReduceBondsExample.hour))
           17000000 (mkTransactOpts None None 0) (101%N, 3)
           (mkGasInfo 200000 300000) 150000000000 ReduceBondsExample.requested
           eq_refl eq_refl eq_refl eq_refl eq_refl eq_refl (or_intror eq_refl)).
  - unfold two64. cbn. lia.
  - unfold two64. cbn. lia.
Defined.

End ReduceBond_safety.

(** ** The reduce-bonds task: which minipools are selected *)

Section ReduceBondsTask_facts.
Import State ReduceBonds ReduceBondsTask.

Lemma andThen_Some {A B} (m : Run A) (k : A -> option (Run B)) trace r :
  andThen m k = Some (trace, r) ->
  (exists e, m = (trace, Err e) /\ r = Err e) \/
  (exists t a t', m = (t, Ok a) /\ k a = Some (t', r) /\ trace = t ++ t').
Proof.
  destruct m as [t [a|e]]; cbn.
  - destruct (k a) as [[t' r']|] eqn:Hk; cbn; [|discriminate].
    intros [= <- <-]. right. eauto 6.
  - intros [= <- <-]. left. eauto.
Qed.

Lemma MinipoolStatus_eqb_eq a b : MinipoolStatus_eqb a b = true <-> a = b.
Proof. destruct a, b; cbn; split; congruence. Qed.

Variable d : Daemon.
Variable sv : Services.
Variable s : NetworkState.
Variable windowStart windowLength : Duration.
Variable latestBlockTime : Time.
Variable opts : Z.

Lemma selectable_spec p :
  selectable d sv s windowStart windowLength latestBlockTime opts p = true <->
  exists mpd reduceBondTime,
    MinipoolDetails s !! p = Some mpd /\
    GetReduceBondTime sv (MinipoolAddress mpd) opts = Ok reduceBondTime /\
    GetReduceBondCancelled d (MinipoolAddress mpd) opts = Ok false /\
    WeiToEth_is d (NodeDepositBalance mpd) 16 = true /\
    Status mpd = Staking /\
    windowStart < Time_Sub latestBlockTime reduceBondTime
      < dur_add windowStart windowLength.
Proof.
  unfold selectable. split.
  - destruct (MinipoolDetails s !! p) as [mpd|]; [|discriminate].
    destruct (GetReduceBondTime sv _ opts) as [reduceBondTime|] eqn:Htime; [|discriminate].
    destruct (GetReduceBondCancelled d _ opts) as [[|]|] eqn:Hcancelled; try discriminate.
    + rewrite andb_false_r. discriminate.
    + rewrite !andb_true_iff, !Z.ltb_lt, MinipoolStatus_eqb_eq.
      intros ((((H16 & Hst) & _) & H1) & H2). exists mpd, reduceBondTime. repeat split; auto.
  - intros (mpd & reduceBondTime & -> & -> & -> & H16 & Hst & H1 & H2).
    rewrite !andb_true_iff, !Z.ltb_lt, MinipoolStatus_eqb_eq. auto.
Qed.

Lemma getReduceableLoop_selected pointers :
  forall acc trace selected,
    getReduceableLoop d sv s windowStart windowLength latestBlockTime opts pointers acc =
      Some (trace, Ok selected) ->
    selected =
      acc ++ List.filter (selectable d sv s windowStart windowLength latestBlockTime opts)
               pointers.
Proof.
  induction pointers as [|p rest IH]; intros acc trace selected H.
  - cbn in H. injection H as _ <-. now rewrite app_nil_r.
  - cbn [getReduceableLoop] in H. cbn [List.filter]. unfold selectable at 1.
    destruct (MinipoolDetails s !! p) as [mpd|]; cbn [mbind option_bind] in H;
      [|discriminate].
    apply andThen_Some in H as [(e & _ & [=])|(t1 & reduceBondTime & t1' & Hm1 & H & _)].
    unfold orWrap, call in Hm1.
    destruct (GetReduceBondTime sv _ opts) as [x|e]; [|discriminate].
    injection Hm1 as _ <-.
    apply andThen_Some in H as [(e & _ & [=])|(t2 & cancelled & t2' & Hm2 & H & _)].
    unfold orWrap, call in Hm2.
    destruct (GetReduceBondCancelled d _ opts) as [c|e]; [|discriminate].
    injection Hm2 as _ <-.
    destruct (WeiToEth_is d _ 16), (Time_Sub latestBlockTime x <? _), c,
      (MinipoolStatus_eqb _ Staking), (windowStart <? Time_Sub latestBlockTime x);
      cbn [andb negb] in *; apply IH in H; rewrite H; try reflexivity;
      rewrite <- app_assoc; reflexivity.
Qed.

Lemma getReduceableLoop_orderly pointers :
  forall acc trace r,
    getReduceableLoop d sv s windowStart windowLength latestBlockTime opts pointers acc =
      Some (trace, r) ->
    match r with
    | Ok _ => Forall (fun ev => ev_failed ev = false) trace
    | Err _ =>
        exists reads failed,
          trace = reads ++ [failed] /\ ev_failed failed = true /\
          Forall (fun ev => ev_failed ev = false) reads
    end.
Proof.
  induction pointers as [|p rest IH]; intros acc trace r H.
  - cbn in H. injection H as <- <-. constructor.
  - cbn [getReduceableLoop] in H.
    destruct (MinipoolDetails s !! p) as [mpd|]; cbn [mbind option_bind] in H;
      [|discriminate].
    apply andThen_Some in H as [(e & Hm1 & ->)|(t1 & reduceBondTime & t1' & Hm1 & H & ->)];
      unfold orWrap, call in Hm1;
      destruct (GetReduceBondTime sv _ opts) as [x|e1]; try discriminate.
    { injection Hm1 as <- _. exists [], (mkEvent "minipool.GetReduceBondTime" true).
      repeat split. constructor. }
    injection Hm1 as <- <-.
    apply andThen_Some in H as [(e & Hm2 & ->)|(t2 & cancelled & t2' & Hm2 & H & ->)];
      unfold orWrap, call in Hm2;
      destruct (GetReduceBondCancelled d _ opts) as [c|e2]; try discriminate.
    { injection Hm2 as <- _.
      exists [mkEvent "minipool.GetReduceBondTime" false],
             (mkEvent "minipool.GetReduceBondCancelled" true).
      repeat split. repeat constructor. }
    injection Hm2 as <- <-.
    assert (Hrest : exists acc',
              getReduceableLoop d sv s windowStart windowLength latestBlockTime opts
                rest acc' = Some (t2', r)).
    { destruct (_ && _ && _ && _); [destruct (windowStart <? _)|]; eauto. }
    destruct Hrest as [acc' Hrest]. apply IH in Hrest.
    destruct r as [selected|e].
    + repeat constructor. exact Hrest.
    + destruct Hrest as (reads & failed & -> & Hf & Hreads).
      exists ([mkEvent "minipool.GetReduceBondTime" false;
               mkEvent "minipool.GetReduceBondCancelled" false] ++ reads), failed.
      split; [reflexivity|]. split; [exact Hf|]. repeat constructor. exact Hreads.
Qed.

End ReduceBondsTask_facts.

Section ReduceBondsTask_claims.
Import State ReduceBonds ReduceBondsTask.

(** X12. Whenever [getReduceableMinipools] returns a list, it is the list
    of the node's minipools, in the order of the node's lookup entry, that
    hold a 16 ETH deposit, are staking, have a bond reduction that was not
    cancelled, and for which the time since the reduction was requested is
    strictly between [windowStart] and [windowStart + windowLength]. *)
Theorem getReduceableMinipools_selects (d : Daemon) (sv : Services) (s : NetworkState)
    (nodeAddress : Address) (windowStart windowLength : Duration)
    (latestBlockTime : Time) (opts : Z) trace selected :
  getReduceableMinipools d sv s nodeAddress windowStart windowLength latestBlockTime opts =
    Some (trace, Ok selected) ->
  let pointers := default [] (MinipoolDetailsByNode s !! nodeAddress) in
  selected =
    List.filter (selectable d sv s windowStart windowLength latestBlockTime opts) pointers /\
  forall p, In p selected <->
    In p pointers /\
    exists mpd reduceBondTime,
      MinipoolDetails s !! p = Some mpd /\
      GetReduceBondTime sv (MinipoolAddress mpd) opts = Ok reduceBondTime /\
      GetReduceBondCancelled d (MinipoolAddress mpd) opts = Ok false /\
      WeiToEth_is d (NodeDepositBalance mpd) 16 = true /\
      Status mpd = Staking /\
      windowStart < Time_Sub latestBlockTime reduceBondTime
        < dur_add windowStart windowLength.
Proof.
  intros H pointers. unfold getReduceableMinipools in H. fold pointers in H.
  apply getReduceableLoop_selected in H. cbn [app] in H. split; [exact H|].
  intros p. rewrite H, List.filter_In, selectable_spec. reflexivity.
Qed.

(** 13 hours after the request, of the two minipools of node 2 only the
    staking one is selected. *)
Lemma getReduceableMinipools_small_network :
  exists trace,
    getReduceableMinipools (ReduceBondsTaskExample.daemon 13 true)
      ReduceBondsExample.services ReduceBondsTaskExample.latestState 2%N
      ReduceBondsExample.windowStart ReduceBondsExample.windowLength
      (time_Unix (1700000000 + 13 * 3600)) 17000000 = Some (trace, Ok [1%nat]) /\
    In 1%nat (default [] (MinipoolDetailsByNode ReduceBondsTaskExample.latestState !! 2%N)).
Proof.
  eexists. split; [vm_compute; reflexivity|].
  match goal with
  | |- In _ ?l =>
      assert (H : exists trace,
                getReduceableMinipools (ReduceBondsTaskExample.daemon 13 true)
                  ReduceBondsExample.services ReduceBondsTaskExample.latestState 2%N
                  ReduceBondsExample.windowStart ReduceBondsExample.windowLength
                  (time_Unix (1700000000 + 13 * 3600)) 17000000 =
                Some (trace, Ok [1%nat]))
        by (eexists; vm_compute; reflexivity)
  end.
  destruct H as [trace H].
  destruct (getReduceableMinipools_selects _ _ _ _ _ _ _ _ _ _ H) as [_ Hiff].
  apply (Hiff 1%nat). left. reflexivity.
Defined.

(** X13. [getReduceableMinipools] stops at the first read that fails:
    when it returns an error, the failed read is the last call it made and
    every earlier read succeeded; when it returns a list, every read
    succeeded. *)
Theorem getReduceableMinipools_stops_at_failure (d : Daemon) (sv : Services)
    (s : NetworkState) (nodeAddress : Address) (windowStart windowLength : Duration)
    (latestBlockTime : Time) (opts : Z) trace r :
  getReduceableMinipools d sv s nodeAddress windowStart windowLength latestBlockTime opts =
    Some (trace, r) ->
  match r with
  | Ok _ => Forall (fun ev => ev_failed ev = false) trace
  | Err _ =>
      exists reads failed,
        trace = reads ++ [failed] /\ ev_failed failed = true /\
        Forall (fun ev => ev_failed ev = false) reads
  end.
Proof. apply getReduceableLoop_orderly. Qed.

(** The reads of the cancelled flag fail: the selection stops after the
    first minipool's reduce-bond time. *)
Lemma getReduceableMinipools_failed_read :
  exists reads failed,
    [mkEvent "minipool.GetReduceBondTime" false;
     mkEvent "minipool.GetReduceBondCancelled" true] = reads ++ [failed] /\
    ev_failed failed = true /\
    Forall (fun ev => ev_failed ev = false) reads.
Proof.
  exact (getReduceableMinipools_stops_at_failure
           (ReduceBondsTaskExample.daemon 13 false)
           ReduceBondsExample.services ReduceBondsTaskExample.latestState 2%N
           ReduceBondsExample.windowStart ReduceBondsExample.windowLength
           (time_Unix (1700000000 + 13 * 3600)) 17000000 _
           (Err (Errorw "error getting reduce bond cancelled for minipool %s: %w" []
                   (Errorf "execution reverted" [])))
           eq_refl).
Defined.

Lemma transactions_app t1 t2 :
  transactions (t1 ++ t2) = (transactions t1 + transactions t2)%nat.
Proof. unfold transactions. now rewrite List.filter_app, length_app. Qed.

Lemma getMaxFee_no_transaction t sv : transactions (fst (getMaxFee t sv)) = 0%nat.
Proof.
  unfold getMaxFee. destruct (maxFee t) as [fee|]; [destruct (big_Uint64 fee =? 0)|];
    reflexivity.
Qed.

Lemma submitReduceBond_one_transaction t sv mpd opts fee gas :
  transactions (fst (submitReduceBond t sv mpd opts fee gas)) = 1%nat.
Proof.
  unfold submitReduceBond, bind, call.
  destruct (ReduceBondAmount sv _ _); [|reflexivity].
  destruct (PrintAndWaitForTransaction sv _); reflexivity.
Qed.

Lemma reduceBond_one_transaction t sv mpd windowStart windowLength latestBlockTime opts :
  (transactions (fst (reduceBond t sv mpd windowStart windowLength latestBlockTime opts))
     <= 1)%nat.
Proof.
  unfold reduceBond, bind, call, orWrap, fail.
  pose proof (getMaxFee_no_transaction t sv) as Hnf.
  destruct (GetNodeAccountTransactor sv) as [txOpts|e1]; cbn [is_Err fst]; [|cbn; lia].
  destruct (NewMinipoolFromVersion sv _ _) as [binding|e2]; cbn [is_Err fst]; [|cbn; lia].
  destruct (GetMinipoolAsV3 sv binding); cbn [negb fst]; [|cbn; lia].
  destruct (EstimateReduceBondAmountGas sv _ _) as [gasInfo|e3]; cbn [is_Err fst];
    [|cbn; lia].
  destruct (getMaxFee t sv) as [tf [fee|e4]]; cbn [fst] in Hnf |- *.
  2:{ rewrite !transactions_app, Hnf. cbn. lia. }
  destruct (GetReduceBondTime sv _ _) as [reduceBondTime|e5]; cbn [is_Err fst].
  2:{ rewrite !transactions_app, Hnf. cbn. lia. }
  match goal with
  | |- context [submitReduceBond t sv mpd txOpts fee ?gas] =>
      pose proof (submitReduceBond_one_transaction t sv mpd txOpts fee gas) as Hs
  end.
  destruct (PrintAndCheckGasInfo sv gasInfo true _ fee _); cbn [negb];
    [|destruct (isDue _ _ _ _); cbn [negb]];
    try (destruct (submitReduceBond _ _ _ _ _ _) as [tr r]; cbn [fst] in *;
         rewrite !transactions_app, Hs, Hnf; cbn; lia).
  unfold ret. cbn [fst]. rewrite !transactions_app, Hnf. cbn. lia.
Qed.

Lemma reduceLoop_transactions t sv s windowStart windowLength latestBlockTime opts minipools :
  forall successCount trace r,
    reduceLoop t sv s windowStart windowLength latestBlockTime opts minipools successCount =
      Some (trace, r) ->
    (transactions trace <= length minipools)%nat.
Proof.
  induction minipools as [|p rest IH]; intros successCount trace r H.
  - cbn in H. injection H as <- _. cbn. lia.
  - cbn [reduceLoop] in H.
    destruct (MinipoolDetails s !! p) as [mp|]; cbn [mbind option_bind] in H;
      [|discriminate].
    pose proof (reduceBond_one_transaction t sv mp windowStart windowLength
                  latestBlockTime opts) as Hone.
    apply andThen_Some in H as [(e & Hm & _)|(t1 & success & t1' & Hm & H & ->)].
    + rewrite Hm in Hone. cbn [fst length] in *. lia.
    + rewrite Hm in Hone. apply IH in H. rewrite transactions_app.
      cbn [fst length] in *. lia.
Qed.

Lemma getReduceableLoop_no_transaction d sv s windowStart windowLength latestBlockTime opts
    pointers :
  forall acc trace r,
    getReduceableLoop d sv s windowStart windowLength latestBlockTime opts pointers acc =
      Some (trace, r) ->
    transactions trace = 0%nat.
Proof.
  induction pointers as [|p rest IH]; intros acc trace r H.
  - cbn in H. injection H as <- _. reflexivity.
  - cbn [getReduceableLoop] in H.
    destruct (MinipoolDetails s !! p) as [mpd|]; cbn [mbind option_bind] in H;
      [|discriminate].
    apply andThen_Some in H as [(e & Hm1 & _)|(t1 & reduceBondTime & t1' & Hm1 & H & ->)];
      unfold orWrap, call in Hm1;
      destruct (GetReduceBondTime sv _ opts) as [x|e1]; try discriminate.
    { injection Hm1 as <- _. reflexivity. }
    injection Hm1 as <- <-.
    apply andThen_Some in H as [(e & Hm2 & _)|(t2 & cancelled & t2' & Hm2 & H & ->)];
      unfold orWrap, call in Hm2;
      destruct (GetReduceBondCancelled d _ opts) as [c|e2]; try discriminate.
    { injection Hm2 as <- _. reflexivity. }
    injection Hm2 as <- <-.
    assert (Hrest : exists acc',
              getReduceableLoop d sv s windowStart windowLength latestBlockTime opts
                rest acc' = Some (t2', r)).
    { destruct (_ && _ && _ && _); [destruct (windowStart <? _)|]; eauto. }
    destruct Hrest as [acc' Hrest]. apply IH in Hrest.
    rewrite !transactions_app, Hrest. reflexivity.
Qed.

(** X14. [run] sends bond-reduction transactions only when Atlas is
    deployed, the wallet was reloaded, the execution client is synced, the
    node account and the header of the snapshot's block were obtained; and
    then it sends at most one for each minipool that the selection keeps at
    that block's time. *)
Theorem run_transactions (t : reduceBonds) (d : Daemon) (sv : Services)
    (isAtlasDeployed : bool) trace r :
  run t d sv isAtlasDeployed = Some (trace, r) ->
  transactions trace = 0%nat \/
  (isAtlasDeployed = true /\ Reload d = None /\ WaitEthClientSynced d = None /\
   exists nodeAddress nd headerTime,
     let s := GetLatestState d in
     let windowStart := getDuration nd BondReductionWindowStart in
     let windowLength := getDuration nd BondReductionWindowLength in
     GetNodeAccount d = Ok nodeAddress /\
     NetworkDetails_ s = Some nd /\
     HeaderByNumber d (ElBlockNumber s) = Ok headerTime /\
     (transactions trace <=
        length (List.filter
                  (selectable d sv s windowStart windowLength
                     (time_Unix (toInt64 headerTime)) (ElBlockNumber s))
                  (default [] (MinipoolDetailsByNode s !! nodeAddress))))%nat).
Proof.
  intros H. unfold run in H.
  apply andThen_Some in H as [(e & Hm & _)|(t1 & [] & t1' & Hm1 & H & ->)].
  { left. unfold callErr in Hm. destruct (Reload d); injection Hm as <-; reflexivity. }
  unfold callErr in Hm1. destruct (Reload d) as [|] eqn:Hreload; [discriminate|].
  injection Hm1 as <-.
  apply andThen_Some in H as [(e & Hm & _)|(t2 & [] & t2' & Hm2 & H & ->)].
  { left. unfold callErr in Hm. destruct (WaitEthClientSynced d); injection Hm as <-;
      reflexivity. }
  unfold callErr in Hm2. destruct (WaitEthClientSynced d) as [|] eqn:Hsync; [discriminate|].
  injection Hm2 as <-.
  destruct isAtlasDeployed; cbn [negb] in H.
  2:{ left. injection H as <- _. reflexivity. }
  apply andThen_Some in H as [(e & Hm & _)|(t3 & nodeAddress & t3' & Hm3 & H & ->)].
  { left. unfold call in Hm. injection Hm as <- _. reflexivity. }
  unfold call in Hm3. injection Hm3 as <- Hnode.
  destruct (NetworkDetails_ (GetLatestState d)) as [nd|] eqn:Hnd;
    cbn [mbind option_bind] in H; [|discriminate].
  apply andThen_Some in H as [(e & Hm & _)|(t4 & headerTime & t4' & Hm4 & H & ->)].
  { left. unfold orWrap, call in Hm.
    destruct (HeaderByNumber d _); injection Hm as <- _; reflexivity. }
  unfold orWrap, call in Hm4.
  destruct (HeaderByNumber d _) as [time|e4] eqn:Hheader; [|discriminate].
  injection Hm4 as <- <-.
  destruct (getReduceableMinipools d sv _ _ _ _ _ _) as [[ts rs]|] eqn:Hsel;
    cbn [mbind option_bind] in H; [|discriminate].
  pose proof Hsel as Hnone. unfold getReduceableMinipools in Hnone.
  apply getReduceableLoop_no_transaction in Hnone.
  apply andThen_Some in H as [(e & Hm & _)|(t5 & minipools & t5' & Hm5 & H & ->)].
  { left. injection Hm as <- _. rewrite !transactions_app, Hnone. reflexivity. }
  injection Hm5 as <- ->.
  destruct (length minipools =? 0)%nat.
  { left. injection H as <- _. rewrite !transactions_app, Hnone. reflexivity. }
  destruct (reduceLoop t sv _ _ _ _ _ minipools 0) as [[tl rl]|] eqn:Hloop;
    cbn [mbind option_bind] in H; [|discriminate].
  apply reduceLoop_transactions in Hloop.
  pose proof Hsel as Hsub. unfold getReduceableMinipools in Hsub.
  apply getReduceableLoop_selected in Hsub. cbn [app] in Hsub.
  right. split; [reflexivity|]. split; [reflexivity|]. split; [reflexivity|].
  exists nodeAddress, nd, time. cbv zeta.
  split; [exact Hnode|]. split; [exact Hnd|]. split; [exact Hheader|].
  rewrite <- Hsub.
  apply andThen_Some in H as [(e & Hm & _)|(t6 & n & t6' & Hm6 & H & ->)].
  - injection Hm as <- _. rewrite !transactions_app, Hnone. cbn. lia.
  - injection Hm6 as <- _. injection H as <- _.
    rewrite !transactions_app, Hnone. cbn. lia.
Qed.

(** 37 hours after the request the staking minipool of node 2 is due:
    [run] sends one transaction. *)
Lemma run_late_one_transaction :
  exists trace r,
    run ReduceBondsExample.task (ReduceBondsTaskExample.daemon 37 true)
        ReduceBondsExample.services true = Some (trace, r) /\
    (transactions trace <= 1)%nat.
Proof.
  destruct (run ReduceBondsExample.task (ReduceBondsTaskExample.daemon 37 true)
              ReduceBondsExample.services true) as [[trace r]|] eqn:Hrun;
    [|vm_compute in Hrun; discriminate].
  exists trace, r. split; [reflexivity|].
  destruct (run_transactions _ _ _ _ _ _ Hrun)
    as [->|(_ & _ & _ & nodeAddress & nd & headerTime & Hnode & Hnd & Hheader & Hle)].
  - lia.
  - cbv zeta in Hle. cbn in Hnode, Hnd, Hheader.
    injection Hnode as <-. injection Hnd as <-. injection Hheader as <-.
    exact Hle.
Defined.

End ReduceBondsTask_claims.

(** ** GetStartSlotForInterval *)

Section IntervalStart_facts.
Import State RewardsFiles IntervalStart.

Lemma epoch_le_iff k spe h : 0 < spe -> (k / spe <= h <-> k < (h + 1) * spe).
Proof.
  intros Hspe. split; intros H.
  - pose proof (Z.mod_pos_bound k spe Hspe). pose proof (Z.div_mod k spe ltac:(lia)). nia.
  - assert (k / spe < h + 1) by (apply Z.div_lt_upper_bound; lia). lia.
Qed.

Variable bc : Client.
Variable slotsPerEpoch headEpoch : Z.
Hypothesis Hspe : 0 < slotsPerEpoch.
Hypothesis Hhead : (headEpoch + 1) * slotsPerEpoch < two64.

Lemma scan_first_block fuel :
  forall k slot,
    0 <= k ->
    scan fuel bc slotsPerEpoch headEpoch k (k / slotsPerEpoch) = Returns (slot, None) ->
    k <= slot /\ slot / slotsPerEpoch <= headEpoch /\
    (exists b, GetBeaconBlock bc slot = Ok (b, true)) /\
    forall j, k <= j < slot -> exists b, GetBeaconBlock bc j = Ok (b, false).
Proof.
  induction fuel as [|fuel IH]; intros k slot Hk H; [discriminate|].
  cbn [scan] in H.
  destruct (Z.leb_spec (k / slotsPerEpoch) headEpoch) as [Hle|]; [|discriminate].
  destruct (GetBeaconBlock bc k) as [[b [|]]|err] eqn:Hb; cbn [negb] in H; [| |discriminate].
  - injection H as <-. repeat split; [lia|exact Hle|eauto|intros j Hj; lia].
  - destruct (Z.eqb_spec slotsPerEpoch 0); [lia|].
    apply epoch_le_iff in Hle; [|exact Hspe].
    assert (Hw : wrap64 (k + 1) = k + 1) by (unfold wrap64; apply Z.mod_small; lia).
    rewrite Hw in H. apply IH in H; [|lia].
    destruct H as (H1 & H2 & H3 & H4). repeat split; [lia|exact H2|exact H3|].
    intros j Hj. destruct (Z.eq_dec j k) as [->|]; [eauto|apply H4; lia].
Qed.

Lemma scan_returns (n : nat) :
  forall fuel k,
    0 <= k ->
    (headEpoch + 1) * slotsPerEpoch - k <= Z.of_nat n ->
    (n < fuel)%nat ->
    exists r,
      scan fuel bc slotsPerEpoch headEpoch k (k / slotsPerEpoch) = Returns r /\
      (snd r <> None -> fst r = 0) /\
      ((forall j, k <= j < (headEpoch + 1) * slotsPerEpoch ->
          exists b, GetBeaconBlock bc j = Ok (b, false)) ->
       r = (0, Some (Errorf "scanned up to the chain head (Beacon block %d) but none of the blocks were found."
                       [Z.max k ((headEpoch + 1) * slotsPerEpoch)]))).
Proof.
  induction n as [|n IH]; intros [|fuel] k Hk Hn Hfuel; try lia; cbn [scan].
  - destruct (Z.leb_spec (k / slotsPerEpoch) headEpoch) as [Hle|Hgt].
    { apply epoch_le_iff in Hle; [lia|exact Hspe]. }
    eexists. split; [reflexivity|]. split; [reflexivity|]. intros _.
    rewrite Z.max_l by lia. reflexivity.
  - destruct (Z.leb_spec (k / slotsPerEpoch) headEpoch) as [Hle|Hgt].
    + apply epoch_le_iff in Hle; [|exact Hspe].
      destruct (GetBeaconBlock bc k) as [[b [|]]|err] eqn:Hb; cbn [negb].
      * eexists. split; [reflexivity|]. split; [intros H; now contradiction H|].
        intros Hmissing. destruct (Hmissing k) as [b' Hb']; [lia|]. congruence.
      * destruct (Z.eqb_spec slotsPerEpoch 0); [lia|].
        assert (Hw : wrap64 (k + 1) = k + 1) by (unfold wrap64; apply Z.mod_small; lia).
        rewrite Hw.
        destruct (IH fuel (k + 1)) as (r & Hr & Hzero & Hnone); [lia|lia|lia|].
        exists r. split; [exact Hr|]. split; [exact Hzero|].
        intros Hmissing. rewrite Hnone by (intros j Hj; apply Hmissing; lia).
        rewrite !Z.max_r by lia. reflexivity.
      * eexists. split; [reflexivity|]. split; [reflexivity|].
        intros Hmissing. destruct (Hmissing k) as [b' Hb']; [lia|]. congruence.
    + assert (~ k < (headEpoch + 1) * slotsPerEpoch).
      { intros Hlt. apply epoch_le_iff in Hlt; [lia|exact Hspe]. }
      eexists. split; [reflexivity|]. split; [reflexivity|]. intros _.
      rewrite Z.max_l by lia. reflexivity.
Qed.

End IntervalStart_facts.

Section IntervalStart_claims.
Import State RewardsFiles IntervalStart.

Lemma start_in_range ev cfg head :
  InRange ev cfg head ->
  let spe := SlotsPerEpoch cfg in
  let previousEpoch := big_Uint64 (ConsensusBlock ev) / spe in
  wrap64 (wrap64 (previousEpoch + 1) * spe) = nextEpochStart ev cfg /\
  0 <= nextEpochStart ev cfg <= (Epoch head + 1) * spe.
Proof.
  intros [Hspe Hprev Hhead] spe previousEpoch. fold spe in Hspe, Hprev, Hhead.
  fold previousEpoch in Hprev. unfold nextEpochStart. fold spe. fold previousEpoch.
  assert (H0 : 0 <= previousEpoch).
  { apply Z.div_pos; [|exact Hspe]. unfold big_Uint64.
    apply Z.mod_pos_bound. unfold two64. lia. }
  assert (H1 : (previousEpoch + 1) * spe <= (Epoch head + 1) * spe) by nia.
  assert (H2 : previousEpoch + 1 <= (previousEpoch + 1) * spe) by nia.
  unfold wrap64. rewrite (Z.mod_small (previousEpoch + 1)) by lia.
  rewrite Z.mod_small by nia. nia.
Qed.

(** X15. When [GetStartSlotForInterval] returns a slot and a nil error,
    the block of the previous interval exists, and the slot is the first
    slot with a block at or after the start of the epoch that follows the
    previous interval's last block: it lies in an epoch not after the
    head's, a block exists there, and none exists at the slots in
    between. *)
Theorem GetStartSlotForInterval_first_block (fuel : nat) (previousIntervalEvent : RewardsEvent)
    (bc : Client) (beaconConfig : Eth2Config) head slot :
  GetBeaconHead bc = Ok head ->
  InRange previousIntervalEvent beaconConfig head ->
  GetStartSlotForInterval fuel previousIntervalEvent bc beaconConfig = Returns (slot, None) ->
  (exists b, GetBeaconBlock bc (ConsensusBlock previousIntervalEvent) = Ok (b, true)) /\
  nextEpochStart previousIntervalEvent beaconConfig <= slot /\
  slot / SlotsPerEpoch beaconConfig <= Epoch head /\
  (exists b, GetBeaconBlock bc slot = Ok (b, true)) /\
  forall j, nextEpochStart previousIntervalEvent beaconConfig <= j < slot ->
    exists b, GetBeaconBlock bc j = Ok (b, false).
Proof.
  intros Hhead Hrange H. unfold GetStartSlotForInterval in H. rewrite Hhead in H.
  destruct (GetBeaconBlock bc (ConsensusBlock previousIntervalEvent)) as [[b [|]]|err];
    cbn [negb] in H; try discriminate.
  destruct (start_in_range _ _ _ Hrange) as [Hstart Hbounds]. cbv zeta in Hstart.
  pose proof (range_epoch_length _ _ _ Hrange) as Hspe.
  destruct (Z.eqb_spec (SlotsPerEpoch beaconConfig) 0); [lia|].
  cbv zeta in H. rewrite Hstart in H.
  split; [eauto|].
  apply (scan_first_block bc _ _ Hspe (range_head _ _ _ Hrange) fuel); [lia|exact H].
Qed.

(** Slots 3200 and 3201 have no block: the interval starts at slot
    3202. *)
Lemma GetStartSlotForInterval_skips_missing :
  nextEpochStart IntervalStartExample.previous SmallNetwork.beaconConfig <= 3202 /\
  3202 / 32 <= 101 /\
  exists b, GetBeaconBlock (IntervalStartExample.client [3200; 3201]) 3202 = Ok (b, true).
Proof.
  destruct (GetStartSlotForInterval_first_block 100 IntervalStartExample.previous
              (IntervalStartExample.client [3200; 3201]) SmallNetwork.beaconConfig
              (mkBeaconHead 101) 3202 eq_refl) as (_ & H1 & H2 & H3 & _).
  - split; [reflexivity|vm_compute; discriminate|reflexivity].
  - reflexivity.
  - auto.
Defined.

(** X16. With the head read, the previous interval's block found and the
    configuration in range, [GetStartSlotForInterval] returns once its fuel
    exceeds the number of slots from the next epoch's start to the end of
    the head's epoch; an error comes with slot 0; and when no slot of that
    range has a block, the error reports that the scan reached the first
    slot after the head's epoch. *)
Theorem GetStartSlotForInterval_returns (fuel : nat) (previousIntervalEvent : RewardsEvent)
    (bc : Client) (beaconConfig : Eth2Config) head b :
  GetBeaconHead bc = Ok head ->
  GetBeaconBlock bc (ConsensusBlock previousIntervalEvent) = Ok (b, true) ->
  InRange previousIntervalEvent beaconConfig head ->
  let limit := (Epoch head + 1) * SlotsPerEpoch beaconConfig in
  limit - nextEpochStart previousIntervalEvent beaconConfig < Z.of_nat fuel ->
  exists r,
    GetStartSlotForInterval fuel previousIntervalEvent bc beaconConfig = Returns r /\
    (snd r <> None -> fst r = 0) /\
    ((forall j, nextEpochStart previousIntervalEvent beaconConfig <= j < limit ->
        exists b', GetBeaconBlock bc j = Ok (b', false)) ->
     r = (0, Some (Errorf "scanned up to the chain head (Beacon block %d) but none of the blocks were found."
                     [limit]))).
Proof.
  intros Hhead Hprev Hrange limit Hfuel. unfold GetStartSlotForInterval.
  rewrite Hhead, Hprev. cbn [negb].
  destruct (start_in_range _ _ _ Hrange) as [Hstart Hbounds]. cbv zeta in Hstart.
  pose proof (range_epoch_length _ _ _ Hrange) as Hspe.
  destruct (Z.eqb_spec (SlotsPerEpoch beaconConfig) 0); [lia|].
  cbv zeta. rewrite Hstart.
  destruct (scan_returns bc _ _ Hspe (range_head _ _ _ Hrange)
              (Z.to_nat (limit - nextEpochStart previousIntervalEvent beaconConfig))
              fuel (nextEpochStart previousIntervalEvent beaconConfig))
    as (r & Hr & Hzero & Hnone); [lia|subst limit; lia|lia|].
  exists r. split; [exact Hr|]. split; [exact Hzero|].
  intros Hmissing. rewrite (Hnone Hmissing). subst limit. rewrite Z.max_r by lia.
  reflexivity.
Qed.

(** No slot of epochs 100 and 101 has a block: the scan ends at slot
    3264. *)
Lemma GetStartSlotForInterval_none_found :
  exists r,
    GetStartSlotForInterval 100 IntervalStartExample.previous
      (IntervalStartExample.client (seqZ 3200 64)) SmallNetwork.beaconConfig = Returns r /\
    (snd r <> None -> fst r = 0).
Proof.
  destruct (GetStartSlotForInterval_returns 100 IntervalStartExample.previous
              (IntervalStartExample.client (seqZ 3200 64)) SmallNetwork.beaconConfig
              (mkBeaconHead 101) (mkBeaconBlock (17000000 + 3199)) eq_refl eq_refl)
    as (r & Hr & Hzero & _).
  - split; [reflexivity|vm_compute; discriminate|reflexivity].
  - reflexivity.
  - exists r. split; assumption.
Defined.

End IntervalStart_claims.

(** ** getMinipoolBondAndNodeFee *)

Section BondHistory_claims.
Import BondHistory.

Lemma Time_Sub_pos t u : 0 < Time_Sub t u <-> u < t.
Proof.
  unfold Time_Sub, minInt64, maxInt64. cbv zeta.
  destruct (Z.ltb_spec (t - u) (- 2 ^ 63)); [lia|].
  destruct (Z.ltb_spec (2 ^ 63 - 1) (t - u)); lia.
Qed.

(** X17. [getMinipoolBondAndNodeFee] leaves the package variable [zero]
    set to 0. For a block time strictly before the time of the last bond
    reduction (taken in whole seconds), when there was one, it returns the
    bond before the reduction, with the fee before the reduction or, when
    that is recorded as 0, the current fee; for a block at or after the
    reduction, or without a reduction, it returns the current bond and
    fee. *)
Theorem bond_and_fee_at (zero : option Z) (details : NativeMinipoolDetails)
    (blockTime : Time) :
  zero = None \/ zero = Some 0 ->
  let reductionTime := time_Unix (big_Int64 (LastBondReductionTime details)) in
  let result := getMinipoolBondAndNodeFee zero details blockTime in
  fst result = Some 0 /\
  (LastBondReductionTime details <> 0 /\ blockTime < reductionTime ->
     snd result =
       (LastBondReductionPrevValue details,
        if LastBondReductionPrevNodeFee details =? 0 then NodeFee details
        else LastBondReductionPrevNodeFee details)) /\
  (LastBondReductionTime details = 0 \/ reductionTime <= blockTime ->
     snd result = (NodeDepositBalance details, NodeFee details)).
Proof.
  intros Hzero reductionTime result. subst result. unfold getMinipoolBondAndNodeFee.
  assert (Hz : match zero with None => 0 | Some z => z end = 0)
    by (destruct Hzero as [-> | ->]; reflexivity).
  rewrite Hz. fold reductionTime.
  assert (Hcmp : forall x, (big_Cmp x 0 =? 0) = (x =? 0)).
  { intros x. unfold big_Cmp. destruct (Z.compare_spec x 0), (Z.eqb_spec x 0);
      try reflexivity; lia. }
  rewrite !Hcmp.
  destruct (Z.eqb_spec (LastBondReductionTime details) 0) as [Hnever|Hreduced].
  { split; [reflexivity|]. split; [intros [H _]; contradiction|reflexivity]. }
  destruct (Z.ltb_spec 0 (Time_Sub reductionTime blockTime)) as [Hbefore|Hafter].
  - apply (proj1 (Time_Sub_pos _ _)) in Hbefore.
    destruct (LastBondReductionPrevNodeFee details =? 0);
      (split; [reflexivity|]; split; [reflexivity|intros [H|H]; [contradiction|lia]]).
  - assert (~ blockTime < reductionTime) by (rewrite <- Time_Sub_pos; lia).
    split; [reflexivity|]. split; [intros [_ H']; contradiction|reflexivity].
Qed.

(** One second before the reduction the minipool still counts with its
    16 ETH bond at 15%; at the reduction's second, with 8 ETH at 14%. *)
Lemma bond_and_fee_around_reduction :
  snd (getMinipoolBondAndNodeFee None BondHistoryExample.reduced (time_Unix 1699999999)) =
    (16 * SmallNetwork.ether, 15 * 10 ^ 16) /\
  snd (getMinipoolBondAndNodeFee (Some 0) BondHistoryExample.reduced (time_Unix 1700000000)) =
    (8 * SmallNetwork.ether, 14 * 10 ^ 16).
Proof.
  split.
  - destruct (bond_and_fee_at None BondHistoryExample.reduced (time_Unix 1699999999)
                (or_introl eq_refl)) as (_ & H & _).
    apply H. split; [discriminate|reflexivity].
  - destruct (bond_and_fee_at (Some 0) BondHistoryExample.reduced (time_Unix 1700000000)
                (or_intror eq_refl)) as (_ & _ & H).
    apply H. right. discriminate.
Defined.

End BondHistory_claims.

(** ** recoverRplFromLot *)

Section AuctionRecover_claims.
Import AuctionRecover.

(** X18. [recoverRplFromLot] never returns a response: on every run,
    whatever the services answer and whichever goroutine returns first, it
    returns nil and a non-nil error, and it never asks for the node
    account transactor or for the transaction info. When everything before
    the wait succeeds, the error is the one of the current-block goroutine,
    which returns an error also when the header was read. *)
Theorem recoverRplFromLot_never_responds (sv : Services) (stateFirst : bool) (lotIndex : Z) :
  let run := recoverRplFromLot sv stateFirst lotIndex in
  (exists err, returned run = (None, Some err)) /\
  Forall (fun ev => ev_call ev <> "w.GetNodeAccountTransactor"%string /\
                    ev_call ev <> "lot.RecoverUnclaimedRpl"%string) (fst run) /\
  (forall details number,
     RequireNodeWallet sv = None -> RequireRocketStorage sv = None ->
     GetWallet sv = None -> GetRocketPool sv = None ->
     NewAuctionLot sv lotIndex = None -> NewProtocolDaoSettings sv = None ->
     Query sv = Ok details -> HeaderByNumber sv = Ok number ->
     snd run = Err (Errorf "error getting current EL block header: %w" [])).
Proof.
  intros run. subst run. unfold recoverRplFromLot, bind, orWrap, require, returned.
  assert (Hne : forall a b : string, String.eqb a b = false -> a <> b)
    by (intros a b; apply String.eqb_neq).
  destruct (RequireNodeWallet sv);
    [split; [eauto|split; [repeat constructor; apply Hne; reflexivity|discriminate]]|].
  destruct (RequireRocketStorage sv);
    [split; [eauto|split; [repeat constructor; apply Hne; reflexivity|discriminate]]|].
  destruct (GetWallet sv);
    [split; [eauto|split; [repeat constructor; apply Hne; reflexivity|discriminate]]|].
  destruct (GetRocketPool sv);
    [split; [eauto|split; [repeat constructor; apply Hne; reflexivity|discriminate]]|].
  destruct (NewAuctionLot sv lotIndex);
    [split; [eauto|split; [repeat constructor; apply Hne; reflexivity|discriminate]]|].
  destruct (NewProtocolDaoSettings sv);
    [split; [eauto|split; [repeat constructor; apply Hne; reflexivity|discriminate]]|].
  unfold stateGoroutine, blockGoroutine.
  destruct (Query sv) as [details|qerr], (HeaderByNumber sv) as [number|herr],
    stateFirst; cbn;
    (split; [eauto|split; [repeat constructor; apply Hne; reflexivity|]]);
    intros; congruence || reflexivity.
Qed.

End AuctionRecover_claims.

(** ** proposeSetting *)

Section ProposeSetting_claims.
Import ProposeSetting.

(** X19. [proposeSetting] submits the proposal exactly when the client is
    ready, the check answers that the node can propose, the max fee was
    assigned, and the user consented, by the [yes] flag or at the prompt;
    the prompt is never shown when the flag is set; and whenever the client
    was obtained, closing it is the last thing the function does. *)
Theorem proposeSetting_submits_iff (rp : Client) (yes : bool) (setting value : string) :
  let run := proposeSetting rp yes setting value in
  (calls "rp.PDAOProposeSetting" run = true <->
   WithReady rp = None /\
   exists canPropose,
     PDAOCanProposeSetting rp setting value = Ok canPropose /\
     CanPropose canPropose = true /\
     AssignMaxFeeAndLimit rp (GasInfo canPropose) yes = None /\
     (yes = true \/ Confirm rp "Are you sure you want to submit this proposal?" = true)) /\
  (yes = true -> calls "cliutils.Confirm" run = false) /\
  (WithReady rp = None -> last (fst run) = Some (mkEvent "rp.Close" false)).
Proof.
  intros run. subst run.
  unfold proposeSetting, proposeWith, consent, calls, bind, call, step, ret.
  destruct (WithReady rp) as [e0|].
  { cbn. split; [split; [discriminate|intros [[=] _]]|]. split; [reflexivity|discriminate]. }
  destruct (PDAOCanProposeSetting rp setting value) as [canPropose|e1] eqn:Hcan.
  2:{ cbn. split; [split; [discriminate|intros (_ & cp & [=] & _)]|].
      split; reflexivity. }
  destruct (CanPropose canPropose) eqn:Hcp; cbn [negb].
  2:{ cbn. split; [split; [discriminate|]|split; reflexivity].
      intros (_ & cp & [= <-] & Hcp' & _). congruence. }
  destruct (AssignMaxFeeAndLimit rp (GasInfo canPropose) yes) as [e2|] eqn:Hfee.
  { cbn. split; [split; [discriminate|]|split; reflexivity].
    intros (_ & cp & [= <-] & _ & Hfee' & _). congruence. }
  destruct yes; cbn [negb].
  - destruct (PDAOProposeSetting rp _ _ _ _) as [response|e3].
    + destruct (WaitForTransaction rp _); cbn;
        (split; [split; [intros _; split; [reflexivity|]; exists canPropose; auto|reflexivity]|]);
        split; reflexivity.
    + cbn. split; [split; [intros _; split; [reflexivity|]; exists canPropose; auto|reflexivity]|].
      split; reflexivity.
  - destruct (Confirm rp _) eqn:Hconfirm; cbn [negb].
    + destruct (PDAOProposeSetting rp _ _ _ _) as [response|e3].
      * destruct (WaitForTransaction rp _); cbn;
          (split; [split; [intros _; split; [reflexivity|]; exists canPropose; auto|reflexivity]|]);
          split; [discriminate|reflexivity|discriminate|reflexivity].
      * cbn. split; [split; [intros _; split; [reflexivity|]; exists canPropose; auto|reflexivity]|].
        split; [discriminate|reflexivity].
    + cbn. split; [split; [discriminate|]|split; [discriminate|reflexivity]].
      intros (_ & cp & [= <-] & _ & _ & [[=]|Hc]). congruence.
Qed.

End ProposeSetting_claims.

(** ** callAPI: gas settings last for one call *)

Section ApiClient_claims.
Import ApiClient.

Lemma apiCommand_unreachable h c args otherArgs :
  is_Err (apiCommand h c args otherArgs) = unreachable h c.
Proof.
  unfold apiCommand, unreachable.
  destruct (String.eqb (daemonPath c) EmptyString); [|reflexivity].
  destruct (getAPIContainerName h); reflexivity.
Qed.

Lemma callAPI_unreachable h c args otherArgs :
  unreachable h c = true -> fst (callAPI h c args otherArgs) = c.
Proof.
  intros Hu. rewrite <- (apiCommand_unreachable h c args otherArgs) in Hu.
  unfold callAPI. destruct (apiCommand h c args otherArgs); [discriminate|reflexivity].
Qed.

Lemma callAPI_reachable h c args otherArgs :
  unreachable h c = false ->
  fst (callAPI h c args otherArgs) =
    AssignGasSettings c (originalMaxFee c) (originalMaxPrioFee c) (originalGasLimit c).
Proof.
  intros Hu. rewrite <- (apiCommand_unreachable h c args otherArgs) in Hu.
  unfold callAPI. destruct (apiCommand h c args otherArgs) as [cmd|]; [|discriminate].
  destruct (readOutput h cmd). reflexivity.
Qed.

Lemma callAll_fixed h c calls :
  (forall call, fst (callAPI h c (fst call) (snd call)) = c) ->
  callAll h c calls =
    (c, List.map (fun call => snd (callAPI h c (fst call) (snd call))) calls).
Proof.
  intros Hfix. induction calls as [|[args otherArgs] rest IH]; [reflexivity|].
  cbn [callAll List.map fst snd]. specialize (Hfix (args, otherArgs)). cbn [fst snd] in Hfix.
  destruct (callAPI h c args otherArgs) as [c' r]. cbn [fst] in Hfix. subst c'.
  rewrite IH. reflexivity.
Qed.

(** X20. Gas settings assigned to the client last for one API call. In
    a sequence of calls made after the assignment, the first call runs with
    the assigned settings and every later call is the call of a client
    holding its original settings, which is the client the sequence ends
    with. The exception: when the client has no daemon path and the name of
    the API container cannot be resolved, no command runs, and the
    assigned settings stay in place through the whole sequence. *)
Theorem gas_settings_last_one_call (h : Host) (c : Client) (fee prioFee limit : Z)
    (call : string * list string) (rest : list (string * list string)) :
  let assigned := AssignGasSettings c fee prioFee limit in
  let restored :=
    AssignGasSettings c (originalMaxFee c) (originalMaxPrioFee c) (originalGasLimit c) in
  callAll h assigned (call :: rest) =
    (if unreachable h c
     then (assigned,
           List.map (fun call => snd (callAPI h assigned (fst call) (snd call)))
                    (call :: rest))
     else (restored,
           snd (callAPI h assigned (fst call) (snd call))
           :: List.map (fun call => snd (callAPI h restored (fst call) (snd call))) rest)) /\
  GetGasSettings restored = (originalMaxFee c, originalMaxPrioFee c, originalGasLimit c) /\
  (unreachable h c = true ->
   forall args otherArgs, exists err,
     snd (callAPI h assigned args otherArgs) = ([], Some err)).
Proof.
  intros assigned restored.
  assert (Hass : unreachable h assigned = unreachable h c) by reflexivity.
  assert (Hres : unreachable h restored = unreachable h c) by reflexivity.
  split; [|split; [reflexivity|]].
  - destruct (unreachable h c) eqn:Hu.
    + apply callAll_fixed. intros [args otherArgs].
      apply callAPI_unreachable. exact Hass.
    + destruct call as [args otherArgs]. cbn [callAll fst snd].
      pose proof (callAPI_reachable h assigned args otherArgs Hass) as H1.
      destruct (callAPI h assigned args otherArgs) as [c1 r1]. cbn [fst snd] in *.
      subst c1. change (AssignGasSettings assigned _ _ _) with restored.
      rewrite callAll_fixed; [reflexivity|].
      intros [args' otherArgs']. cbn [fst snd].
      rewrite (callAPI_reachable h restored args' otherArgs' Hres). reflexivity.
  - intros Hu args otherArgs.
    pose proof (apiCommand_unreachable h assigned args otherArgs) as He.
    rewrite Hass, Hu in He.
    unfold callAPI. destruct (apiCommand h assigned args otherArgs) as [|err];
      [discriminate|]. exists err. reflexivity.
Qed.

End ApiClient_claims.

(** ** The reduce-bonds task: a selected minipool is inside its window *)

Section Selected_window.
Import State ReduceBonds ReduceBondsTask.

(** X21. While [windowStart + windowLength] does not overflow, a minipool
    that [getReduceableMinipools] keeps has, at the same block, a remaining
    time strictly between 0 and [windowLength] in [reduceBond]: its window
    is open and has not run out, and the reduction is due exactly when less
    than half of [windowLength] (rounded down) remains. *)
Theorem selected_minipool_in_window (d : Daemon) (sv : Services) (s : NetworkState)
    (windowStart windowLength : Duration) (latestBlockTime : Time) (opts : Z) (p : nat) :
  selectable d sv s windowStart windowLength latestBlockTime opts p = true ->
  minInt64 <= windowStart <= maxInt64 ->
  minInt64 <= windowLength <= maxInt64 ->
  minInt64 <= windowStart + windowLength <= maxInt64 ->
  exists mpd reduceBondTime,
    MinipoolDetails s !! p = Some mpd /\
    GetReduceBondTime sv (MinipoolAddress mpd) opts = Ok reduceBondTime /\
    0 < remainingTime windowStart windowLength latestBlockTime reduceBondTime
      < windowLength /\
    (isDue windowStart windowLength latestBlockTime reduceBondTime = true <->
     remainingTime windowStart windowLength latestBlockTime reduceBondTime
       < windowLength / 2).
Proof.
  intros Hsel Hws Hwl Hsum.
  apply selectable_spec in Hsel
    as (mpd & reduceBondTime & Hp & Htime & _ & _ & _ & Hlo & Hhi).
  exists mpd, reduceBondTime. split; [exact Hp|]. split; [exact Htime|].
  unfold isDue, remainingTime, dur_sub, dur_div, reduceBondTimeoutSafetyFactor in *.
  cbv zeta.
  unfold dur_add in *. rewrite (toInt64_small (windowStart + windowLength)) in * by lia.
  set (elapsed := Time_Sub latestBlockTime reduceBondTime) in *.
  assert (Hrem : toInt64 (windowStart + windowLength - elapsed) =
                 windowStart + windowLength - elapsed)
    by (apply toInt64_small; unfold minInt64, maxInt64 in *; lia).
  rewrite Hrem.
  assert (Hpos : 0 < windowLength) by lia.
  assert (Hhalf : toInt64 (Z.quot windowLength 2) = windowLength / 2).
  { rewrite Z.quot_div_nonneg by lia. apply toInt64_small.
    assert (0 <= windowLength / 2) by (apply Z.div_pos; lia).
    assert (windowLength / 2 <= windowLength) by (apply Z.div_le_upper_bound; lia).
    unfold minInt64, maxInt64 in *. lia. }
  rewrite Hhalf. split; [lia|].
  apply Z.ltb_lt.
Qed.

(** 13 hours after the request, the staking minipool of node 2 has 47 of
    the window's 48 hours left. *)
Lemma selected_minipool_in_window_small_network :
  exists mpd reduceBondTime,
    MinipoolDetails ReduceBondsTaskExample.latestState !! 1%nat = Some mpd /\
    GetReduceBondTime ReduceBondsExample.services (MinipoolAddress mpd) 17000000 =
      Ok reduceBondTime /\
    0 < remainingTime ReduceBondsExample.windowStart ReduceBondsExample.windowLength
          (time_Unix (1700000000 + 13 * 3600)) reduceBondTime
      < ReduceBondsExample.windowLength.
Proof.
  destruct (selected_minipool_in_window (ReduceBondsTaskExample.daemon 13 true)
              ReduceBondsExample.services ReduceBondsTaskExample.latestState
              ReduceBondsExample.windowStart ReduceBondsExample.windowLength
              (time_Unix (1700000000 + 13 * 3600)) 17000000 1%nat)
    as (mpd & reduceBondTime & Hp & Htime & Hrem & _).
  - reflexivity.
  - split; discriminate.
  - split; discriminate.
  - split; discriminate.
  - exists mpd, reduceBondTime. auto.
Defined.

End Selected_window.

(** ** The Nimbus client: uinteger round trip *)

Section Nimbus_claims.
Import Nimbus.

Lemma ParseUint_Itoa (i : Z) : 0 <= i < two64 -> strconv_ParseUint (strconv_Itoa i) = Ok i.
Proof.
  intros Hi. unfold strconv_Itoa. destruct i as [|p|p]; [reflexivity| |lia].
  cbn [Z.to_int DecimalString.NilEmpty.string_of_int]. unfold strconv_ParseUint.
  rewrite DecimalString.NilEmpty.usu.
  assert (Hv : Z.of_uint (Pos.to_uint p) = Z.pos p).
  { unfold Z.of_uint. rewrite DecimalPos.Unsigned.of_to. reflexivity. }
  rewrite Hv.
  destruct (Z.ltb_spec (Z.pos p) two64); [|lia].
  destruct (DecimalString.NilEmpty.string_of_uint (Pos.to_uint p)) eqn:Hs; [|reflexivity].
  exfalso. apply (DecimalPos.Unsigned.to_uint_nonnil p).
  pose proof (DecimalString.NilEmpty.usu (Pos.to_uint p)) as Hu.
  rewrite Hs in Hu. cbn in Hu. congruence.
Qed.

Lemma ParseUint_negative (i : Z) : i < 0 -> is_Err (strconv_ParseUint (strconv_Itoa i)) = true.
Proof.
  intros Hi. unfold strconv_Itoa. destruct i as [|p|p]; try lia.
  cbn [Z.to_int DecimalString.NilEmpty.string_of_int]. unfold strconv_ParseUint.
  cbn [DecimalString.NilEmpty.uint_of_string].
  destruct (DecimalString.NilEmpty.uint_of_string _); reflexivity.
Qed.

(** X22. With a JSON library that decodes a string to what was encoded,
    a [uinteger] below 2^63 survives [MarshalJSON] followed by
    [UnmarshalJSON]; a [uinteger] from 2^63 up (such as the far-future
    epoch 2^64 - 1) is marshalled, as a negative numeral, and then rejected
    by [UnmarshalJSON]. *)
Theorem uinteger_round_trip (js : Json) (i : Z) :
  Faithful js ->
  0 <= i < two64 ->
  exists data,
    MarshalJSON js i = Ok data /\
    (i < 2 ^ 63 -> UnmarshalJSON js data = Ok i) /\
    (2 ^ 63 <= i -> is_Err (UnmarshalJSON js data) = true).
Proof.
  intros Hjs Hi. unfold MarshalJSON, UnmarshalJSON.
  destruct (Hjs (strconv_Itoa (toInt64 i))) as (data & Hm & Hu).
  exists data. split; [exact Hm|]. rewrite Hu. split.
  - intros Hsmall. rewrite toInt64_small by (unfold minInt64, maxInt64; lia).
    rewrite ParseUint_Itoa by exact Hi. reflexivity.
  - intros Hlarge.
    assert (Hneg : toInt64 i < 0).
    { unfold toInt64, two64 in *.
      replace ((i + 2 ^ 63) mod 2 ^ 64) with (i + 2 ^ 63 - 2 ^ 64); [lia|].
      apply Z.mod_unique with 1; lia. }
    pose proof (ParseUint_negative _ Hneg) as He.
    destruct (strconv_ParseUint _); [discriminate|reflexivity].
Qed.

Lemma NimbusExample_faithful : Faithful NimbusExample.json.
Proof.
  intros s. eexists. split; [reflexivity|]. cbn [json_Unmarshal NimbusExample.json].
  rewrite last_snoc, removelast_last, String.string_of_list_byte_of_string. reflexivity.
Defined.

(** Validator index 12345 survives the round trip; the far-future epoch
    does not. *)
Lemma uinteger_round_trip_examples :
  (exists data,
     MarshalJSON NimbusExample.json 12345 = Ok data /\
     UnmarshalJSON NimbusExample.json data = Ok 12345) /\
  (exists data,
     MarshalJSON NimbusExample.json 18446744073709551615 = Ok data /\
     is_Err (UnmarshalJSON NimbusExample.json data) = true).
Proof.
  split.
  - destruct (uinteger_round_trip NimbusExample.json 12345 NimbusExample_faithful)
      as (data & Hm & Hsmall & _); [unfold two64; lia|].
    exists data. split; [exact Hm|apply Hsmall; lia].
  - destruct (uinteger_round_trip NimbusExample.json 18446744073709551615
                NimbusExample_faithful) as (data & Hm & _ & Hlarge); [unfold two64; lia|].
    exists data. split; [exact Hm|apply Hlarge; lia].
Defined.

End Nimbus_claims.

(** ** CalculateEffectiveStakes: the scaled stake *)

Section Scaling_formula.
Import State.

Lemma scaleStake_exact nd slotTime node nodeStake k :
  0 < k -> k * Second <= maxInt64 ->
  time_Unix (big_Int64 (RegistrationTime node)) <= slotTime ->
  getDuration nd IntervalDuration = k * Second ->
  let elapsed := slotTime - time_Unix (big_Int64 (RegistrationTime node)) in
  scaleStake nd (Duration_Seconds_int64 (getDuration nd IntervalDuration))
             slotTime node nodeStake =
    Some (if elapsed <? k * Second then nodeStake * (elapsed / Second) / k else nodeStake).
Proof.
  intros Hk Hmax Hreg Hdur elapsed. unfold scaleStake. cbv zeta.
  assert (Hsec : Second = 1000000000) by reflexivity.
  assert (H0 : 0 <= elapsed) by (unfold elapsed; lia).
  assert (Hsub : Time_Sub slotTime (time_Unix (big_Int64 (RegistrationTime node))) =
                 Z.min elapsed maxInt64).
  { unfold Time_Sub. cbv zeta. fold elapsed.
    destruct (Z.ltb_spec elapsed minInt64); [unfold minInt64 in *; lia|].
    destruct (Z.ltb_spec maxInt64 elapsed); lia. }
  rewrite Hsub, Hdur.
  destruct (Z.ltb_spec elapsed (k * Second)) as [Hlt|Hge].
  - rewrite Z.min_l by lia.
    destruct (Z.ltb_spec elapsed (k * Second)); [|lia].
    unfold Duration_Seconds_int64, dur_div. rewrite Z.quot_mul by lia.
    rewrite Z.quot_div_nonneg by lia.
    assert (Hq : 0 <= elapsed / Second <= maxInt64).
    { split; [apply Z.div_pos; lia|].
      apply Z.le_trans with elapsed; [apply Z.div_le_upper_bound; lia|lia]. }
    rewrite !(toInt64_small (elapsed / Second)) by (unfold minInt64, maxInt64 in *; lia).
    unfold big_Div. destruct (Z.eqb_spec k 0); [lia|].
    destruct (Z.ltb_spec 0 k); [reflexivity|lia].
  - destruct (Z.ltb_spec (Z.min elapsed maxInt64) (k * Second)); [lia|reflexivity].
Qed.

(** X23. With participation scaling, on a usable snapshot whose interval
    lasts [k] whole seconds and none of whose nodes registered after the
    slot time, every stake in the map is the clamped stake of a node with
    that address, kept as it is when the node registered at least one
    interval before the slot time, and otherwise multiplied by the whole
    seconds since its registration and divided by [k], rounding down. *)
Theorem scaled_stake_formula (s : NetworkState) nd rplPrice minFraction maxFraction k :
  Usable s nd rplPrice minFraction maxFraction ->
  0 < k -> k * Second <= maxInt64 ->
  getDuration nd IntervalDuration = k * Second ->
  RegisteredBySlotTime s ->
  exists stakes total,
    CalculateEffectiveStakes s true = Some (Some stakes, Some total, None) /\
    forall a v, stakes !! a = Some v ->
      exists node minCollateral maxCollateral,
        In node (NodeDetails s) /\ NodeAddress node = a /\
        collateralBounds s node = Some (minCollateral, maxCollateral) /\
        let clamped := clampStake (RplStake node) minCollateral maxCollateral in
        let elapsed := slotTimeOf s - time_Unix (big_Int64 (RegistrationTime node)) in
        v = if elapsed <? k * Second then clamped * (elapsed / Second) / k else clamped.
Proof.
  intros U Hk Hmax Hdur Hreg.
  pose proof (usable_details _ _ _ _ _ U) as Hnd.
  assert (Hgo : forall node, In node (NodeDetails s) ->
            exists minCollateral maxCollateral,
              collateralBounds s node = Some (minCollateral, maxCollateral) /\
              nodeGoroutine s true (Duration_Seconds_int64 (getDuration nd IntervalDuration))
                            (slotTimeOf s) node =
                Some (let clamped := clampStake (RplStake node) minCollateral maxCollateral in
                      let elapsed :=
                        slotTimeOf s - time_Unix (big_Int64 (RegistrationTime node)) in
                      if elapsed <? k * Second then clamped * (elapsed / Second) / k
                      else clamped, None)).
  { intros node Hin.
    destruct (collateralBounds_total s nd _ _ _ node U Hin) as (mn & mx & Hb).
    exists mn, mx. split; [exact Hb|].
    unfold nodeGoroutine. rewrite Hb. cbn [mbind option_bind].
    rewrite Hnd. cbn [mbind option_bind].
    rewrite (scaleStake_exact nd (slotTimeOf s) node _ k Hk Hmax (Hreg node Hin) Hdur).
    reflexivity. }
  destruct (CalculateEffectiveStakes_returns s true nd Hnd) as (stakes & total & Hces & _ & Hmap).
  { intros node Hin. destruct (Hgo node Hin) as (mn & mx & _ & Hg). rewrite Hg. eauto. }
  exists stakes, total. split; [exact Hces|].
  intros a v Hl. destruct (Hmap a v Hl) as (node & Hin & Ha & Hg).
  destruct (Hgo node Hin) as (mn & mx & Hb & Hg').
  rewrite Hg in Hg'. injection Hg' as Hv.
  exists node, mn, mx. auto.
Qed.

(** The settled small network: node 2 stakes 1000 RPL, inside its bounds,
    and registered half an interval before the slot time; every entry of
    the map obeys the formula. *)
Lemma scaled_stake_formula_settled :
  exists stakes total,
    CalculateEffectiveStakes SmallNetwork.settled true =
      Some (Some stakes, Some total, None) /\
    forall a v, stakes !! a = Some v ->
      exists node minCollateral maxCollateral,
        In node (NodeDetails SmallNetwork.settled) /\ NodeAddress node = a /\
        collateralBounds SmallNetwork.settled node = Some (minCollateral, maxCollateral) /\
        let clamped := clampStake (RplStake node) minCollateral maxCollateral in
        let elapsed :=
          slotTimeOf SmallNetwork.settled - time_Unix (big_Int64 (RegistrationTime node)) in
        v = if elapsed <? 2419200 * Second then clamped * (elapsed / Second) / 2419200
            else clamped.
Proof.
  apply (scaled_stake_formula SmallNetwork.settled SmallNetwork.networkDetails
           (10 ^ 16) (10 ^ 17) (15 * 10 ^ 17) 2419200 SmallNetwork_settled_usable).
  - lia.
  - discriminate.
  - reflexivity.
  - intros node [<-|[<-|[]]]; discriminate.
Defined.

End Scaling_formula.

(** ** getNetworkDetails: the reward index is read while it is written *)

Section RewardIndex_race.
Import State Goroutines Schedules.

Lemma errgroup_Wait_cons_nil task rest nd t nd' :
  errgroup_Wait (task :: rest) nd = (t, nd', None) ->
  exists t1 nd1 t2, task nd = (t1, nd1, None) /\ errgroup_Wait rest nd1 = (t2, nd', None).
Proof.
  cbn [errgroup_Wait]. destruct (task nd) as [[t1 nd1] e1] eqn:Htask.
  destruct (errgroup_Wait rest nd1) as [[t2 nd2] e2] eqn:Hrest.
  destruct e1; [discriminate|]. intros [= <- <- ->].
  exists t1, nd1, t2. split; [reflexivity|exact Hrest].
Qed.

Lemma assign_nil f name read mkErr nd t nd1 :
  assign f name read mkErr nd = (t, nd1, None) ->
  exists v, read nd = Ok v /\ nd1 = setField f v nd.
Proof.
  unfold assign. destruct (read nd) as [v|e]; [|discriminate].
  intros [= _ <-]. eauto.
Qed.

Lemma fetch_nil f name read mkErr nd t nd1 :
  fetch f name read mkErr nd = (t, nd1, None) ->
  exists v, read nd = Ok v /\ nd1 = setField f v nd.
Proof.
  unfold fetch. destruct (read nd) as [v|e]; [|discriminate].
  intros [= _ <-]. eauto.
Qed.

Lemma getNetworkDetails_Ok sched cfg rp opts isAtlasDeployed nd :
  snd (getNetworkDetails sched cfg rp opts isAtlasDeployed) = Ok nd ->
  exists t,
    errgroup_Wait (sched (networkDetailsTasks cfg rp opts isAtlasDeployed)) zeroValue =
      (t, nd, None).
Proof.
  unfold getNetworkDetails. destruct (errgroup_Wait _ zeroValue) as [[t nd'] [e|]];
    [discriminate|]. intros [= <-]. eauto.
Qed.

Lemma setField_same f v (nd : NetworkDetails) : setField f v nd f = v.
Proof. unfold setField. destruct (decide (f = f)); [reflexivity|contradiction]. Qed.

Lemma later_tasks_keep_duration cfg rp opts isAtlasDeployed :
  Forall (keeps IntervalDuration) (skipn 5 (networkDetailsTasks cfg rp opts isAtlasDeployed)).
Proof.
  unfold networkDetailsTasks. destruct isAtlasDeployed; cbn [skipn app];
    each_task ltac:(first [ apply assign_keeps; discriminate
                          | apply fetch_keeps; discriminate
                          | apply smoothingPoolTask_keeps; discriminate ]).
Qed.

(** X24. Five goroutines of [getNetworkDetails] read the reward index
    from the struct while another goroutine writes it, so the interval
    duration of the snapshot depends on the order in which the goroutines
    take effect: in start order it is the claim interval time of the
    fetched reward index; when the goroutine of the interval duration
    (started fifth) takes effect before the one of the reward index
    (started fourth), it is the claim interval time of reward index 0. *)
Theorem interval_duration_follows_schedule cfg rp opts (isAtlasDeployed : bool) index :
  readBig rp "rewards.GetRewardIndex" opts = Ok index ->
  (forall nd,
     snd (getNetworkDetails startOrder cfg rp opts isAtlasDeployed) = Ok nd ->
     GetClaimIntervalTime rp (big_Uint64 index) opts = Ok (getDuration nd IntervalDuration) /\
     getUint64 nd RewardIndex = big_Uint64 index) /\
  (forall nd,
     snd (getNetworkDetails fifthBeforeFourth cfg rp opts isAtlasDeployed) = Ok nd ->
     GetClaimIntervalTime rp 0 opts = Ok (getDuration nd IntervalDuration) /\
     getUint64 nd RewardIndex = big_Uint64 index) /\
  (forall tasks, Permutation (fifthBeforeFourth tasks) tasks).
Proof.
  intros Hindex.
  pose proof (later_tasks_keep_duration cfg rp opts isAtlasDeployed) as Hlater.
  assert (Hlater' : Forall (keeps RewardIndex)
                      (skipn 5 (networkDetailsTasks cfg rp opts isAtlasDeployed))).
  { unfold networkDetailsTasks. destruct isAtlasDeployed; cbn [skipn app];
      each_task ltac:(first [ apply assign_keeps; discriminate
                            | apply fetch_keeps; discriminate
                            | apply smoothingPoolTask_keeps; discriminate ]). }
  split; [|split].
  - intros nd Hnd. apply getNetworkDetails_Ok in Hnd as [t H].
    unfold startOrder in H.
    remember (skipn 5 (networkDetailsTasks cfg rp opts isAtlasDeployed)) as later.
    change (networkDetailsTasks cfg rp opts isAtlasDeployed)
      with (firstn 5 (networkDetailsTasks cfg rp opts isAtlasDeployed) ++
            skipn 5 (networkDetailsTasks cfg rp opts isAtlasDeployed)) in H.
    rewrite <- Heqlater in H. cbn [firstn networkDetailsTasks app] in H.
    apply errgroup_Wait_cons_nil in H as (t1 & nd1 & t1' & H1 & H).
    apply errgroup_Wait_cons_nil in H as (t2 & nd2 & t2' & H2 & H).
    apply errgroup_Wait_cons_nil in H as (t3 & nd3 & t3' & H3 & H).
    apply errgroup_Wait_cons_nil in H as (t4 & nd4 & t4' & H4 & H).
    apply errgroup_Wait_cons_nil in H as (t5 & nd5 & t5' & H5 & H).
    apply assign_nil in H1 as (v1 & _ & ->). apply assign_nil in H2 as (v2 & _ & ->).
    apply assign_nil in H3 as (v3 & _ & ->). apply fetch_nil in H4 as (v4 & Hv4 & ->).
    apply assign_nil in H5 as (v5 & Hv5 & ->).
    rewrite Hindex in Hv4. cbn [rmap] in Hv4. injection Hv4 as <-.
    pose proof (errgroup_Wait_keeps IntervalDuration later Hlater) as Hk.
    pose proof (errgroup_Wait_keeps RewardIndex later Hlater') as Hk'.
    match type of H with errgroup_Wait later ?nd5 = _ =>
      specialize (Hk nd5); specialize (Hk' nd5) end.
    rewrite H in Hk, Hk'. cbn [fst snd] in Hk, Hk'.
    unfold getDuration, getUint64 in *. rewrite Hk, Hk'.
    rewrite setField_same, (setField_other IntervalDuration RewardIndex) by discriminate.
    rewrite setField_same in *.
    destruct (GetClaimIntervalTime rp _ opts) as [duration|]; [|discriminate].
    cbn [rmap] in Hv5. injection Hv5 as <-. split; reflexivity.
  - intros nd Hnd. apply getNetworkDetails_Ok in Hnd as [t H].
    remember (skipn 5 (networkDetailsTasks cfg rp opts isAtlasDeployed)) as later.
    change (networkDetailsTasks cfg rp opts isAtlasDeployed)
      with (firstn 5 (networkDetailsTasks cfg rp opts isAtlasDeployed) ++
            skipn 5 (networkDetailsTasks cfg rp opts isAtlasDeployed)) in H.
    rewrite <- Heqlater in H. cbn [firstn networkDetailsTasks app fifthBeforeFourth] in H.
    apply errgroup_Wait_cons_nil in H as (t1 & nd1 & t1' & H1 & H).
    apply errgroup_Wait_cons_nil in H as (t2 & nd2 & t2' & H2 & H).
    apply errgroup_Wait_cons_nil in H as (t3 & nd3 & t3' & H3 & H).
    apply errgroup_Wait_cons_nil in H as (t5 & nd5 & t5' & H5 & H).
    apply errgroup_Wait_cons_nil in H as (t4 & nd4 & t4' & H4 & H).
    apply assign_nil in H1 as (v1 & _ & ->). apply assign_nil in H2 as (v2 & _ & ->).
    apply assign_nil in H3 as (v3 & _ & ->). apply assign_nil in H5 as (v5 & Hv5 & ->).
    apply fetch_nil in H4 as (v4 & Hv4 & ->).
    rewrite Hindex in Hv4. cbn [rmap] in Hv4. injection Hv4 as <-.
    pose proof (errgroup_Wait_keeps IntervalDuration later Hlater) as Hk.
    pose proof (errgroup_Wait_keeps RewardIndex later Hlater') as Hk'.
    match type of H with errgroup_Wait later ?nd5 = _ =>
      specialize (Hk nd5); specialize (Hk' nd5) end.
    rewrite H in Hk, Hk'. cbn [fst snd] in Hk, Hk'.
    unfold getDuration, getUint64 in *. rewrite Hk, Hk'.
    rewrite setField_same, (setField_other RewardIndex IntervalDuration) by discriminate.
    rewrite setField_same.
    rewrite !(setField_other _ RewardIndex) in Hv5 by discriminate.
    cbn [zeroValue] in Hv5.
    destruct (GetClaimIntervalTime rp 0 opts) as [duration|]; [|discriminate].
    cbn [rmap] in Hv5. injection Hv5 as <-. split; reflexivity.
  - intros tasks. unfold fifthBeforeFourth.
    destruct tasks as [|t1 [|t2 [|t3 [|t4 [|t5 rest]]]]]; try apply Permutation_refl.
    do 3 apply perm_skip. apply perm_swap.
Qed.

(** At reward index 7, with claim intervals of [index + 1] days: eight
    days in start order, one day when the interval duration is read
    first. *)
Lemma interval_duration_of_indexed_network :
  (exists nd,
     snd (getNetworkDetails startOrder SmallNetwork.cfg IndexedNetwork.rocketPool
            17000000 true) = Ok nd /\
     getDuration nd IntervalDuration = 8 * IndexedNetwork.day) /\
  (exists nd,
     snd (getNetworkDetails fifthBeforeFourth SmallNetwork.cfg IndexedNetwork.rocketPool
            17000000 true) = Ok nd /\
     getDuration nd IntervalDuration = 1 * IndexedNetwork.day).
Proof.
  destruct (interval_duration_follows_schedule SmallNetwork.cfg IndexedNetwork.rocketPool
              17000000 true 7 eq_refl) as (Hstart & Hswapped & _).
  split.
  - destruct (snd (getNetworkDetails startOrder SmallNetwork.cfg IndexedNetwork.rocketPool
                     17000000 true)) as [nd|] eqn:Hnd; [|vm_compute in Hnd; discriminate].
    exists nd. split; [reflexivity|].
    destruct (Hstart nd eq_refl) as [Hd _]. cbn in Hd. injection Hd as <-. reflexivity.
  - destruct (snd (getNetworkDetails fifthBeforeFourth SmallNetwork.cfg
                     IndexedNetwork.rocketPool 17000000 true)) as [nd|] eqn:Hnd;
      [|vm_compute in Hnd; discriminate].
    exists nd. split; [reflexivity|].
    destruct (Hswapped nd eq_refl) as [Hd _]. cbn in Hd. injection Hd as <-. reflexivity.
Defined.

End RewardIndex_race.

(** ** CreateNetworkState: one block for the whole snapshot *)

Section Answers_of_the_block.
Import State Goroutines BlockAnswers.

Variable cfg : RocketPoolConfig.
Variable rp : RocketPool.
Variable opts : Z.

Lemma assign_answers isAtlasDeployed f name read mkErr :
  (forall nd v,
     indexSeen rp opts (getUint64 nd RewardIndex) -> read nd = Ok v ->
     answerAt cfg rp opts isAtlasDeployed f v) ->
  answers cfg rp opts isAtlasDeployed f (assign f name read mkErr).
Proof.
  intros Hread nd Hidx. unfold assign.
  destruct (read nd) as [v|e] eqn:Hr; cbn; [|discriminate].
  intros _. rewrite setField_same. exact (Hread nd v Hidx Hr).
Qed.

Lemma fetch_answers isAtlasDeployed f name read mkErr :
  (forall nd v,
     indexSeen rp opts (getUint64 nd RewardIndex) -> read nd = Ok v ->
     answerAt cfg rp opts isAtlasDeployed f v) ->
  answers cfg rp opts isAtlasDeployed f (fetch f name read mkErr).
Proof.
  intros Hread nd Hidx. unfold fetch.
  destruct (read nd) as [v|e] eqn:Hr; cbn; [|discriminate].
  intros _. rewrite setField_same. exact (Hread nd v Hidx Hr).
Qed.

Lemma smoothingPoolTask_answers_address isAtlasDeployed :
  answers cfg rp opts isAtlasDeployed SmoothingPoolAddress (smoothingPoolTask rp opts).
Proof.
  intros nd _. unfold smoothingPoolTask.
  destruct (GetContract rp _ opts) as [address|e] eqn:Ha; cbn; [|discriminate].
  destruct (Client_BalanceAt rp address opts) as [b|e] eqn:Hb; cbn; [|discriminate].
  intros _. rewrite setField_other by discriminate. rewrite setField_same.
  rewrite Ha. reflexivity.
Qed.

Lemma smoothingPoolTask_answers_balance isAtlasDeployed :
  answers cfg rp opts isAtlasDeployed SmoothingPoolBalance (smoothingPoolTask rp opts).
Proof.
  intros nd _. unfold smoothingPoolTask.
  destruct (GetContract rp _ opts) as [address|e] eqn:Ha; cbn; [|discriminate].
  destruct (Client_BalanceAt rp address opts) as [b|e] eqn:Hb; cbn; [|discriminate].
  intros _. rewrite setField_same. exists address.
  split; [exact Ha|rewrite Hb; reflexivity].
Qed.

(** Running the goroutines in any order: when none returns an error, a
    field that some goroutine answers, or that held the answer at the
    start and that no goroutine touches otherwise, holds the answer at the
    end. *)
Lemma errgroup_Wait_answers isAtlasDeployed f tasks :
  Forall (fun task => keeps RewardIndex task \/
                      answers cfg rp opts isAtlasDeployed RewardIndex task) tasks ->
  Forall (fun task => keeps f task \/ answers cfg rp opts isAtlasDeployed f task) tasks ->
  forall nd t nd',
    indexSeen rp opts (getUint64 nd RewardIndex) ->
    errgroup_Wait tasks nd = (t, nd', None) ->
    answerAt cfg rp opts isAtlasDeployed f (nd f) \/
      List.Exists (answers cfg rp opts isAtlasDeployed f) tasks ->
    answerAt cfg rp opts isAtlasDeployed f (nd' f).
Proof.
  intros Hidx Hf. revert Hidx.
  induction Hf as [|task rest Htask _ IH]; intros Hidx nd t nd' Hseen Hrun Hstart.
  - cbn in Hrun. injection Hrun as _ <-.
    destruct Hstart as [H|H]; [exact H|inversion H].
  - inversion Hidx as [|? ? Hi Hidx']; subst.
    cbn [errgroup_Wait] in Hrun.
    destruct (task nd) as [[t1 nd1] e1] eqn:Ht.
    destruct (errgroup_Wait rest nd1) as [[t2 nd2] e2] eqn:Hrest.
    injection Hrun as _ <- He.
    destruct e1 as [e|]; [discriminate|]. subst e2.
    assert (Hseen1 : indexSeen rp opts (getUint64 nd1 RewardIndex)).
    { destruct Hi as [Hk|Ha].
      - specialize (Hk nd). rewrite Ht in Hk. cbn in Hk.
        unfold getUint64. rewrite Hk. exact Hseen.
      - specialize (Ha nd Hseen). rewrite Ht in Ha. cbn in Ha. specialize (Ha eq_refl).
        unfold answerAt in Ha. unfold getUint64.
        destruct (readBig rp "rewards.GetRewardIndex" opts) as [x|] eqn:Hx;
          cbn in Ha; [|discriminate].
        injection Ha as <-. right. exists x. split; [exact Hx|reflexivity]. }
    apply (IH Hidx' nd1 t2 nd2 Hseen1 Hrest).
    destruct Htask as [Hk|Ha].
    + specialize (Hk nd). rewrite Ht in Hk. cbn in Hk. rewrite Hk.
      destruct Hstart as [H|H]; [left; exact H|].
      inversion H as [? ? Hhere|? ? Hlater]; subst; [|right; exact Hlater].
      left. specialize (Hhere nd Hseen). rewrite Ht in Hhere. cbn in Hhere.
      rewrite <- Hk. exact (Hhere eq_refl).
    + left. specialize (Ha nd Hseen). rewrite Ht in Ha. exact (Ha eq_refl).
Qed.


(** The goroutine stores the answer of its read. *)
Ltac read_answers :=
  let nd := fresh "nd" in
  let v := fresh "v" in
  let Hseen := fresh "Hseen" in
  let Hread := fresh "Hread" in
  intros nd v Hseen Hread;
  cbv beta iota zeta delta [BlockAnswers.answerAt];
  cbv beta zeta in Hread;
  first [ exact Hread | eexists; split; [exact Hseen|exact Hread] ].

Ltac task_answers :=
  first [ apply assign_answers; read_answers
        | apply fetch_answers; read_answers
        | apply smoothingPoolTask_answers_address
        | apply smoothingPoolTask_answers_balance ].

Ltac task_answers_or_keeps :=
  first [ left;
          first [ apply assign_keeps | apply fetch_keeps | apply smoothingPoolTask_keeps ];
          discriminate
        | right; task_answers ].

Lemma tasks_answer isAtlasDeployed f :
  Forall (fun task => keeps f task \/ answers cfg rp opts isAtlasDeployed f task)
         (networkDetailsTasks cfg rp opts isAtlasDeployed) /\
  (answerAt cfg rp opts isAtlasDeployed f (zeroValue f) \/
   List.Exists (answers cfg rp opts isAtlasDeployed f)
               (networkDetailsTasks cfg rp opts isAtlasDeployed)).
Proof.
  unfold networkDetailsTasks.
  destruct isAtlasDeployed; cbn [app]; destruct f;
    (split;
     [ each_task ltac:(task_answers_or_keeps)
     | first [ left; reflexivity
             | right;
               repeat first [ apply Exists_cons_hd; solve [task_answers]
                            | apply Exists_cons_tl ] ] ]).
Qed.

End Answers_of_the_block.

Section Snapshot_pinned.
Import State Goroutines BlockAnswers.

Lemma Exists_scheduled (P : Task -> Prop) (sched : Scheduler) tasks :
  (forall l, Permutation (sched l) l) -> List.Exists P tasks -> List.Exists P (sched tasks).
Proof.
  intros Hperm Hex. rewrite List.Exists_exists in *.
  destruct Hex as (task & Hin & HP). exists task. split; [|exact HP].
  eapply Permutation_in; [apply Permutation_sym, Hperm|exact Hin].
Qed.

Lemma getNetworkDetails_answers (sched : Scheduler) cfg rp opts isAtlasDeployed nd :
  (forall tasks, Permutation (sched tasks) tasks) ->
  snd (getNetworkDetails sched cfg rp opts isAtlasDeployed) = Ok nd ->
  forall f, answerAt cfg rp opts isAtlasDeployed f (nd f).
Proof.
  intros Hperm Hnd f. unfold getNetworkDetails in Hnd.
  destruct (errgroup_Wait _ zeroValue) as [[t nd'] e] eqn:Hrun.
  destruct e; cbn in Hnd; [discriminate|]. injection Hnd as <-.
  destruct (tasks_answer cfg rp opts isAtlasDeployed RewardIndex) as [Hidx _].
  destruct (tasks_answer cfg rp opts isAtlasDeployed f) as [Hf Hstart].
  apply (errgroup_Wait_answers cfg rp opts isAtlasDeployed f _
           (Forall_scheduled _ sched _ Hperm Hidx)
           (Forall_scheduled _ sched _ Hperm Hf) zeroValue t nd').
  - left. reflexivity.
  - exact Hrun.
  - destruct Hstart as [H|H]; [left; exact H|right].
    apply Exists_scheduled; assumption.
Qed.

(** X4. Every part of a snapshot returned by [CreateNetworkState] was read
    at one execution block, the block of the Beacon block at the requested
    slot, whatever the order in which the goroutines of [getNetworkDetails]
    take effect: the Atlas flag is the answer for that block; every field of
    the network details holds the answer, at that block, of the contract
    read issued for it (the values asked for a reward index are answers for
    reward index 0 or for the reward index of that block; the four Atlas
    fields are read only with Atlas and hold the zero value otherwise); the
    node and minipool lists and the minipool shares are the answers for that
    block, the validator statuses are the answers for the requested slot
    and the public keys of the fetched minipools, and the lookups are those
    of the fetched minipools. *)
Theorem snapshot_read_at_one_block (sched : Scheduler) cfg rp bc slotNumber beaconConfig st :
  (forall tasks, Permutation (sched tasks) tasks) ->
  snd (CreateNetworkState sched cfg rp bc slotNumber beaconConfig) = Ok st ->
  BeaconSlotNumber st = slotNumber /\
  BeaconConfig st = beaconConfig /\
  exists beaconBlock networkDetails fetched,
    GetBeaconBlock bc slotNumber = Ok (beaconBlock, true) /\
    ElBlockNumber st = ExecutionBlockNumber beaconBlock /\
    IsAtlasDeployed_at rp (ElBlockNumber st) = Ok (IsAtlasDeployed st) /\
    NetworkDetails_ st = Some networkDetails /\
    (forall f,
       answerAt cfg rp (ElBlockNumber st) (IsAtlasDeployed st) f (networkDetails f)) /\
    snd (getNetworkDetails sched cfg rp (ElBlockNumber st) (IsAtlasDeployed st)) =
      Ok networkDetails /\
    GetAllNativeNodeDetails rp (GetMulticallAddress cfg) (GetBalanceBatcherAddress cfg)
      (ElBlockNumber st) = Ok (NodeDetails st) /\
    GetAllNativeMinipoolDetails rp (GetMulticallAddress cfg) (GetBalanceBatcherAddress cfg)
      (ElBlockNumber st) = Ok fetched /\
    MinipoolDetailsByAddress st = (buildMinipoolLookups fetched).1.1 /\
    MinipoolDetailsByNode st = (buildMinipoolLookups fetched).2 /\
    GetValidatorStatuses bc (buildMinipoolLookups fetched).1.2 slotNumber =
      Ok (ValidatorDetails st) /\
    CalculateCompleteMinipoolShares rp (GetMulticallAddress cfg) fetched
      (List.map
         (fun mpd =>
            match ValidatorDetails st !! Pubkey mpd with
            | None => 0
            | Some validator => GweiToWei (Balance validator)
            end) fetched)
      (ElBlockNumber st) = Ok (MinipoolDetails st).
Proof.
  intros Hperm.
  unfold CreateNetworkState, bind, call, orWrap, fail, ret.
  destruct (GetBeaconBlock bc slotNumber) as [[beaconBlock exists_]|] eqn:Hblock;
    [|discriminate].
  destruct exists_; cbn [negb]; [|discriminate].
  destruct (IsAtlasDeployed_at rp _) as [isAtlas|] eqn:Hatlas; [|discriminate].
  destruct (NewNetworkContracts rp _ _) as [contracts|]; [|discriminate].
  destruct (getNetworkDetails sched cfg rp _ isAtlas) as [tnd [nd|]] eqn:Hnd;
    [|discriminate].
  destruct (GetAllNativeNodeDetails rp _ _ _) as [nodes|] eqn:Hnodes; [|discriminate].
  destruct (GetAllNativeMinipoolDetails rp _ _ _) as [fetched|] eqn:Hmps; [|discriminate].
  destruct (buildNodeLookup nodes) as [var byAddr].
  destruct (buildMinipoolLookups fetched) as [[mpByAddr pubkeys] mpByNode] eqn:Hlook.
  destruct (GetValidatorStatuses bc pubkeys slotNumber) as [statusMap|] eqn:Hstat;
    [|discriminate].
  destruct (CalculateCompleteMinipoolShares rp _ _ _ _) as [shares|] eqn:Hshares;
    [|discriminate].
  cbn [snd]. intros H. injection H as <-. cbn.
  split; [reflexivity|]. split; [reflexivity|].
  exists beaconBlock, nd, fetched.
  assert (Hans : forall f,
            answerAt cfg rp (ExecutionBlockNumber beaconBlock) isAtlas f (nd f)).
  { apply (getNetworkDetails_answers sched); [exact Hperm|]. rewrite Hnd. reflexivity. }
  rewrite Hnd, Hlook. cbn [fst snd].
  repeat split; try reflexivity; assumption.
Qed.

(** The snapshot of the small network, its goroutines taking effect in
    start order. *)
Lemma snapshot_read_at_one_block_small_network :
  exists st networkDetails,
    snd SmallNetwork.snapshot = Ok st /\
    BeaconSlotNumber st = SmallNetwork.slot /\
    ElBlockNumber st = 17000000 /\
    NetworkDetails_ st = Some networkDetails /\
    networkDetails RplPrice = VBig (10 ^ 16) /\
    networkDetails IntervalDuration = VDuration (2419200 * Second) /\
    networkDetails SmoothingPoolAddress = VAddress 204%N.
Proof.
  destruct (snd SmallNetwork.snapshot) as [st|] eqn:Hst.
  - destruct (snapshot_read_at_one_block SmallNetwork.inOrder SmallNetwork.cfg
                (SmallNetwork.rocketPool []) SmallNetwork.beaconClient SmallNetwork.slot
                SmallNetwork.beaconConfig st (fun tasks => Permutation_refl tasks) Hst)
      as (Hslot & _ & block & nd & fetched & Hb & Hel & _ & Hnd & Hans & _).
    exists st, nd. split; [reflexivity|].
    split; [exact Hslot|].
    split; [rewrite Hel; injection Hb as <-; reflexivity|].
    split; [exact Hnd|].
    pose proof (Hans RplPrice) as Hprice.
    pose proof (Hans SmoothingPoolAddress) as Haddress.
    destruct (Hans IntervalDuration) as (index & _ & Hduration).
    cbn in Hprice, Hduration, Haddress.
    injection Hprice as <-. injection Hduration as <-. injection Haddress as <-.
    repeat split; reflexivity.
  - exfalso. vm_compute in Hst. discriminate.
Defined.

End Snapshot_pinned.

(** ** CalculateEffectiveStakes: what it needs to return *)

Section EffectiveStakes_needs.
Import State.

(** X25. On a snapshot with at least one node, [CalculateEffectiveStakes]
    returns only if the snapshot has its network details, with the two
    collateral fractions set and an RPL price that is set and not 0: a nil
    or zero price makes every node's goroutine panic (a nil dereference, a
    division by zero). *)
Theorem effective_stakes_need_price (s : NetworkState) (scaleByParticipation : bool) :
  NodeDetails s <> [] ->
  is_Some (CalculateEffectiveStakes s scaleByParticipation) ->
  exists nd rplPrice minFraction maxFraction,
    NetworkDetails_ s = Some nd /\
    getBig nd RplPrice = Some rplPrice /\ rplPrice <> 0 /\
    getBig nd MinCollateralFraction = Some minFraction /\
    getBig nd MaxCollateralFraction = Some maxFraction.
Proof.
  intros Hnodes [r Hces]. unfold CalculateEffectiveStakes in Hces.
  destruct (NetworkDetails_ s) as [nd|] eqn:Hnd; [|discriminate].
  cbn [mbind option_bind] in Hces.
  destruct (mapM _ (NodeDetails s)) as [results|] eqn:Hm; [|discriminate].
  apply mapM_Some in Hm.
  destruct (NodeDetails s) as [|node nodes]; [contradiction|].
  inversion Hm as [|? result ? ? Hgo _]; subst.
  unfold nodeGoroutine in Hgo.
  destruct (collateralBounds s node) as [[minCollateral maxCollateral]|] eqn:Hb;
    [|discriminate].
  clear Hgo. unfold collateralBounds in Hb.
  destruct (eligibleEth s _ (0, 0)) as [[borrowed bonded]|]; [|discriminate].
  cbn [mbind option_bind] in Hb. rewrite Hnd in Hb. cbn [mbind option_bind] in Hb.
  destruct (getBig nd MinCollateralFraction) as [minFraction|] eqn:Hmin; [|discriminate].
  cbn [mbind option_bind] in Hb.
  destruct (getBig nd RplPrice) as [rplPrice|] eqn:Hprice; [|discriminate].
  cbn [mbind option_bind] in Hb.
  destruct (big_Div (borrowed * minFraction) rplPrice) as [q|] eqn:Hdiv; [|discriminate].
  cbn [mbind option_bind] in Hb.
  destruct (getBig nd MaxCollateralFraction) as [maxFraction|] eqn:Hmax; [|discriminate].
  exists nd, rplPrice, minFraction, maxFraction.
  split; [reflexivity|]. split; [exact Hprice|]. split; [|split; assumption].
  intros ->. unfold big_Div in Hdiv. discriminate.
Qed.

(** The small network: the calculation returns, and its price is set. *)
Lemma effective_stakes_need_price_small_network :
  exists nd rplPrice minFraction maxFraction,
    NetworkDetails_ SmallNetwork.state = Some nd /\
    getBig nd RplPrice = Some rplPrice /\ rplPrice <> 0 /\
    getBig nd MinCollateralFraction = Some minFraction /\
    getBig nd MaxCollateralFraction = Some maxFraction.
Proof.
  apply (effective_stakes_need_price SmallNetwork.state false).
  - discriminate.
  - destruct (CalculateEffectiveStakes_returns SmallNetwork.state false
                SmallNetwork.networkDetails eq_refl) as (stakes & total & Hces & _).
    + intros node [<-|[<-|[]]]; vm_compute; eauto.
    + rewrite Hces. eauto.
Defined.

End EffectiveStakes_needs.
